(** * Caloric: the nutrition-estimation gateway and the profile arithmetic

    A shallow embedding of the two Supabase edge functions
    ([scan-meal], [estimate-nutrition]), of the client-side search and
    photo-scan paths of the [FoodSearch] component, and of the calorie
    arithmetic of the onboarding and settings pages, together with the
    JavaScript built-ins they call.

    Conventions of the embedding.
    - A JavaScript string is a [string] of bytes (its UTF-8 encoding);
      the body of a request or of a reply is given as its bytes and
      decoded as the platform does.
    - A JavaScript number is a binary64 number, held as the rational
      it denotes, or one of NaN, +Infinity, -Infinity.  Literals and
      the results of arithmetic are rounded to the nearest binary64
      number, ties to even, and a number prints with the fewest
      digits that read back as itself; [-0] is identified with [0].
    - An object is an association list in property order.
    - A run leaves the outbound calls and the interface updates it
      performed; console output is not recorded. *)

From Stdlib Require Import ZArith QArith Qround Qreduction Qabs Qpower.
From Stdlib Require Import List String Ascii Bool Lia Lqa.
From Stdlib Require Import DecimalString.
From Stdlib Require DecimalN DecimalPos.
Import ListNotations.

Set Warnings "-register-all".

Local Open Scope string_scope.
Local Open Scope Z_scope.

(** ** Text helpers *)

Module Text.

Definition dquote : ascii := "034"%char.

(** String literals of the sources that contain double quotes are
    written here with apostrophes; [js] puts the double quotes back. *)
Definition js (s : string) : string :=
  string_of_list_ascii
    (map (fun c => if Ascii.eqb c "'" then dquote else c)
         (list_ascii_of_string s)).

Definition code (c : ascii) : N := N_of_ascii c.

Definition is_digit (c : ascii) : bool :=
  (48 <=? code c)%N && (code c <=? 57)%N.

Definition is_lower (c : ascii) : bool :=
  (97 <=? code c)%N && (code c <=? 122)%N.

Definition digit_val (c : ascii) : Z := Z.of_N (code c) - 48.

(** The value of a hexadecimal (or smaller radix) digit. *)
Definition hex_val (c : ascii) : option Z :=
  let n := code c in
  if is_digit c then Some (Z.of_N n - 48)
  else if (97 <=? n)%N && (n <=? 102)%N then Some (Z.of_N n - 87)
  else if (65 <=? n)%N && (n <=? 70)%N then Some (Z.of_N n - 55)
  else None.

Fixpoint span (p : ascii -> bool) (l : list ascii) : list ascii * list ascii :=
  match l with
  | c :: r => if p c then let (a, b) := span p r in (c :: a, b) else ([], l)
  | [] => ([], [])
  end.

Definition digits_val (l : list ascii) : Z :=
  fold_left (fun acc c => 10 * acc + digit_val c) l 0.

(** Digits of a radix-[b] literal; [None] when a character is not a
    digit of that radix. *)
Fixpoint radix_val (b : Z) (l : list ascii) (acc : Z) : option Z :=
  match l with
  | [] => Some acc
  | c :: r =>
      match hex_val c with
      | Some d => if d <? b then radix_val b r (b * acc + d) else None
      | None => None
      end
  end.

Definition decimal_digits (n : Z) : string :=
  NilEmpty.string_of_uint (N.to_uint (Z.to_N n)).

Fixpoint prefix_of (p s : list ascii) : option (list ascii) :=
  match p, s with
  | [], _ => Some s
  | a :: p', b :: s' => if Ascii.eqb a b then prefix_of p' s' else None
  | _ :: _, [] => None
  end.

(** [String.prototype.includes]. *)
Fixpoint includes_l (s p : list ascii) : bool :=
  match prefix_of p s with
  | Some _ => true
  | None => match s with [] => false | _ :: r => includes_l r p end
  end.

Definition includes (s p : string) : bool :=
  includes_l (list_ascii_of_string s) (list_ascii_of_string p).

(** [String.prototype.startsWith]. *)
Definition startsWith (s p : string) : bool :=
  match prefix_of (list_ascii_of_string p) (list_ascii_of_string s) with
  | Some _ => true
  | None => false
  end.

(** White space of [String.prototype.trim] and of [StringToNumber]:
    the ECMAScript WhiteSpace and LineTerminator code points, in UTF-8.
    [first_prefix] consumes one of them at the head of the text; each
    step of [trim_start] consumes at least one byte, so the length of
    the text is fuel enough. *)
Definition ws_table : list (list N) :=
  [ [9]; [10]; [11]; [12]; [13]; [32];
    [194; 160];
    [225; 154; 128];
    [226; 128; 128]; [226; 128; 129]; [226; 128; 130]; [226; 128; 131];
    [226; 128; 132]; [226; 128; 133]; [226; 128; 134]; [226; 128; 135];
    [226; 128; 136]; [226; 128; 137]; [226; 128; 138];
    [226; 128; 168]; [226; 128; 169]; [226; 128; 175];
    [226; 129; 159];
    [227; 128; 128];
    [239; 187; 191] ]%N.

Definition ws_seqs : list (list ascii) := map (map ascii_of_N) ws_table.

Fixpoint first_prefix (seqs : list (list ascii)) (s : list ascii)
  : option (list ascii) :=
  match seqs with
  | [] => None
  | p :: ps =>
      match prefix_of p s with
      | Some r => Some r
      | None => first_prefix ps s
      end
  end.

Fixpoint trim_start (fuel : nat) (seqs : list (list ascii)) (s : list ascii)
  : list ascii :=
  match fuel with
  | O => s
  | S f =>
      match first_prefix seqs s with
      | Some r => trim_start f seqs r
      | None => s
      end
  end.

Definition trim_l (s : list ascii) : list ascii :=
  let a := trim_start (List.length s) ws_seqs s in
  rev (trim_start (List.length a) (map (@rev ascii) ws_seqs) (rev a)).

(** [String.prototype.trim]. *)
Definition trim (s : string) : string :=
  string_of_list_ascii (trim_l (list_ascii_of_string s)).

(** *** The text of a body

    The platform reads the bytes of a body as UTF-8: a byte order
    mark at the head is dropped, and every ill-formed sequence is
    replaced by U+FFFD (the decoder of the Encoding standard: the
    replacement covers the bytes read so far, and the offending byte
    is read again as the start of a sequence). *)

Definition replacement : list ascii := map ascii_of_N [239; 191; 189]%N.

Definition byte_order_mark : list ascii := map ascii_of_N [239; 187; 191]%N.

(** Between two characters, or inside one: the bytes read so far,
    last first, the number of bytes expected after the next one, and
    the bounds of the next one. *)
Inductive utf8_state : Type :=
| Idle
| Inside (seen : list ascii) (more : nat) (lower upper : N).

(** A byte read between two characters: what is written, and the next
    state. *)
Definition lead (c : ascii) : list ascii * utf8_state :=
  let n := code c in
  if (n <=? 127)%N then ([c], Idle)
  else if (194 <=? n)%N && (n <=? 223)%N then ([], Inside [c] 0 128 191)
  else if (224 <=? n)%N && (n <=? 239)%N then
    ([], Inside [c] 1 (if (n =? 224)%N then 160 else 128)
                      (if (n =? 237)%N then 159 else 191))
  else if (240 <=? n)%N && (n <=? 244)%N then
    ([], Inside [c] 2 (if (n =? 240)%N then 144 else 128)
                      (if (n =? 244)%N then 143 else 191))
  else (replacement, Idle).

Fixpoint decode_bytes (st : utf8_state) (l : list ascii) : list ascii :=
  match l with
  | [] =>
      match st with
      | Idle => []
      | Inside _ _ _ _ => replacement
      end
  | c :: r =>
      match st with
      | Idle => let (out, st') := lead c in (out ++ decode_bytes st' r)%list
      | Inside seen more lower upper =>
          if (lower <=? code c)%N && (code c <=? upper)%N then
            match more with
            | O => (rev (c :: seen) ++ decode_bytes Idle r)%list
            | S m => decode_bytes (Inside (c :: seen) m 128 191) r
            end
          else
            let (out, st') := lead c in
            (replacement ++ out ++ decode_bytes st' r)%list
      end
  end.

Definition utf8_decode (bytes : string) : string :=
  let l := list_ascii_of_string bytes in
  string_of_list_ascii
    (decode_bytes Idle
       match prefix_of byte_order_mark l with
       | Some r => r
       | None => l
       end).

End Text.

Import Text.

(** ** Numbers *)

Module Num.

Inductive number : Type :=
| Fin (q : Q)
| NaN
| PosInf
| NegInf.

(** A whole number; it is a binary64 number when its magnitude is at
    most [2^53]. *)
Definition of_Z (z : Z) : number := Fin (inject_Z z).

Definition zero : number := of_Z 0.

Definition is_zero (q : Q) : bool := Qeq_bool q 0.

Definition sign_inf (positive : bool) : number :=
  if positive then PosInf else NegInf.

(** *** Rounding to binary64 *)

(** [2^e], for an exponent of either sign. *)
Definition pow2 (e : Z) : Q := Qpower 2 e.

(** The exponent of a positive rational: the [e] with
    [2^e <= q < 2^(e+1)]. *)
Definition ilog2 (q : Q) : Z :=
  let e := Z.log2 (Qnum q) - Z.log2 (Zpos (Qden q)) in
  if Qle_bool (pow2 e) q then e else e - 1.

(** The nearest integer, a tie going to the even one. *)
Definition nearest_even (q : Q) : Z :=
  let f := Qfloor q in
  match Qcompare (q - inject_Z f)%Q (1 # 2) with
  | Lt => f
  | Gt => f + 1
  | Eq => if Z.even f then f else f + 1
  end.

(** The binary64 number nearest to a rational (roundTiesToEven): 53
    significant bits, exponents from -1022 (below, the spacing stays
    [2^-1074]), an infinity from [2^1024] on.  The result is kept in
    lowest terms, so that equal numbers are equal terms. *)
Definition round64 (q : Q) : number :=
  if is_zero q then zero
  else
    let a := Qabs q in
    let e := Z.max (ilog2 a) (-1022) in
    let ulp := pow2 (e - 52) in
    let r := (inject_Z (nearest_even (a / ulp)) * ulp)%Q in
    if Qle_bool (pow2 1024) r then sign_inf (Qle_bool 0 q)
    else Fin (Qred (if Qle_bool 0 q then r else (- r)%Q)).

(** The result of an arithmetic operation whose exact value is [q]. *)
Definition fin (q : Q) : number := round64 q.

(** The number of a decimal literal whose exact value is [q]. *)
Definition of_literal (q : Q) : number := round64 q.

(** *** Vocabulary of the rounding *)

(** The spacing of the binary64 numbers around a positive rational. *)
Definition ulp (a : Q) : Q := pow2 (Z.max (ilog2 a) (-1022) - 52).

(** The rounded magnitude. *)
Definition rounded (a : Q) : Q :=
  (inject_Z (nearest_even (a / ulp a)) * ulp a)%Q.

(** Zero, or of a magnitude in the range of the normal numbers. *)
Definition normal (x : Q) : Prop := (x == 0 \/ pow2 (-1022) <= Qabs x)%Q.

(** A number that is not below, or not above, a rational. *)
Definition at_least (c : Q) (n : number) : Prop :=
  match n with
  | Fin y => (c <= y)%Q
  | PosInf => True
  | _ => False
  end.

Definition at_most (c : Q) (n : number) : Prop :=
  match n with
  | Fin y => (y <= c)%Q
  | NegInf => True
  | _ => False
  end.

(** A number of quarters. *)
Definition quarters (j : Z) : number := Fin (Qred (j # 4)).

(** [ToBoolean] on a number. *)
Definition truthy (n : number) : bool :=
  match n with
  | Fin q => negb (is_zero q)
  | NaN => false
  | PosInf | NegInf => true
  end.

(** [a > b]. *)
Definition gtb (a b : number) : bool :=
  match a, b with
  | NaN, _ | _, NaN => false
  | Fin x, Fin y => negb (Qle_bool x y)
  | PosInf, PosInf => false
  | PosInf, _ => true
  | _, PosInf => false
  | NegInf, _ => false
  | Fin _, NegInf => true
  end.

(** [- a]: the sign changes, nothing is rounded. *)
Definition neg (a : number) : number :=
  match a with
  | Fin q => Fin (Qred (- q))
  | NaN => NaN
  | PosInf => NegInf
  | NegInf => PosInf
  end.

Definition add (a b : number) : number :=
  match a, b with
  | NaN, _ | _, NaN => NaN
  | Fin x, Fin y => fin (x + y)
  | PosInf, NegInf | NegInf, PosInf => NaN
  | PosInf, _ | _, PosInf => PosInf
  | NegInf, _ | _, NegInf => NegInf
  end.

Definition sub (a b : number) : number := add a (neg b).

Definition mul (a b : number) : number :=
  match a, b with
  | NaN, _ | _, NaN => NaN
  | Fin x, Fin y => fin (x * y)
  | Fin x, PosInf | PosInf, Fin x =>
      if is_zero x then NaN else sign_inf (Qle_bool 0 x)
  | Fin x, NegInf | NegInf, Fin x =>
      if is_zero x then NaN else sign_inf (negb (Qle_bool 0 x))
  | PosInf, PosInf | NegInf, NegInf => PosInf
  | PosInf, NegInf | NegInf, PosInf => NegInf
  end.

(** [Math.round]: the nearest integer, halves towards +Infinity. *)
Definition round (a : number) : number :=
  match a with
  | Fin q => of_Z (Qfloor (q + (1 # 2)))
  | _ => a
  end.

(** *** Number to string *)

(** [10^e], for an exponent of either sign. *)
Definition pow10 (e : Z) : Q := Qpower 10 e.

(** The [n] with [10^(n-1) <= q < 10^n], for a positive [q]: an
    estimate from the binary exponent, corrected by at most one. *)
Definition decimal_exponent (q : Q) : Z :=
  let n := (ilog2 q * 30103) / 100000 + 1 in
  if Qle_bool (pow10 n) q then n + 1
  else if Qle_bool (pow10 (n - 1)) q then n
  else n - 1.

Definition rounds_to (v q : Q) : bool :=
  match round64 v with
  | Fin r => Qeq_bool r q
  | _ => false
  end.

(** The [k]-digit integers [s] for which [s * 10^(n-k)] rounds to
    [q]; they are among the two neighbours of [q / 10^(n-k)]. *)
Definition candidates (q : Q) (n k : Z) : list (Z * Z) :=
  let f := Qfloor (q / pow10 (n - k)) in
  filter (fun sn =>
            let s := fst sn in
            (10 ^ (k - 1) <=? s) && (s <? 10 ^ k)
            && rounds_to (inject_Z s * pow10 (n - k))%Q q)
         [(f, n); (f + 1, n)].

Definition distance (q : Q) (k : Z) (sn : Z * Z) : Q :=
  Qabs (inject_Z (fst sn) * pow10 (snd sn - k) - q)%Q.

(** Of the candidates, the one nearest to [q]; of two at the same
    distance, the even one. *)
Fixpoint nearest (q : Q) (k : Z) (l : list (Z * Z)) : option (Z * Z) :=
  match l with
  | [] => None
  | sn :: r =>
      match nearest q k r with
      | None => Some sn
      | Some best =>
          match Qcompare (distance q k sn) (distance q k best) with
          | Lt => Some sn
          | Gt => Some best
          | Eq => Some (if Z.even (fst sn) then sn else best)
          end
      end
  end.

(** The digits of [Number::toString]: the least [k] for which some
    [k]-digit [s] and some [n] have [s * 10^(n-k)] round to the
    number; 17 digits are enough for a binary64 number.  A rational
    that is not a binary64 number is cut off after them. *)
Fixpoint shortest (fuel : nat) (k : Z) (q : Q) (n0 : Z) : Z * Z :=
  match fuel with
  | O => (Qfloor (q / pow10 (n0 - k)), n0 - k)
  | S f =>
      match nearest q k (candidates q n0 k ++ candidates q (n0 + 1) k) with
      | Some (s, n) => (s, n - k)
      | None => shortest f (k + 1) q n0
      end
  end.

(** A positive number as [m * 10^e], [m] being its digits. *)
Definition decompose (q : Q) : Z * Z :=
  shortest 17 1 q (decimal_exponent q).

Fixpoint zeros (n : nat) : string :=
  match n with
  | O => EmptyString
  | S k => String "0" (zeros k)
  end.

(** [Number::toString] in radix ten, on the digits [m] and the
    exponent [e]. *)
Definition format (m e : Z) : string :=
  let ds := decimal_digits m in
  let k := Z.of_nat (String.length ds) in
  let n := k + e in
  if (k <=? n) && (n <=? 21) then ds ++ zeros (Z.to_nat (n - k))
  else if (0 <? n) && (n <=? 21) then
    substring 0 (Z.to_nat n) ds ++ "." ++ substring (Z.to_nat n) (Z.to_nat (k - n)) ds
  else if (-6 <? n) && (n <=? 0) then "0." ++ zeros (Z.to_nat (- n)) ++ ds
  else
    let ex := n - 1 in
    let mant :=
      if k =? 1 then ds
      else substring 0 1 ds ++ "." ++ substring 1 (Z.to_nat (k - 1)) ds in
    mant ++ "e" ++ (if 0 <=? ex then "+" else "-") ++ decimal_digits (Z.abs ex).

Definition to_string (a : number) : string :=
  match a with
  | NaN => "NaN"
  | PosInf => "Infinity"
  | NegInf => "-Infinity"
  | Fin q =>
      if is_zero q then "0"
      else
        let (m, e) := decompose (Qabs q) in
        (if Qle_bool 0 q then EmptyString else "-") ++ format m e
  end.

(** *** String to number *)

Definition decimal_value (ip fp : list ascii) (ex : Z) : Q :=
  let m := digits_val (ip ++ fp) in
  let e := ex - Z.of_nat (List.length fp) in
  if 0 <=? e then inject_Z (m * 10 ^ e) else m # Z.to_pos (10 ^ (- e)).

Definition is_e (c : ascii) : bool := Ascii.eqb c "e" || Ascii.eqb c "E".

(** The exponent part that ends a literal: absent, or [e], an optional
    sign and digits, with nothing after. *)
Definition exponent_part (l : list ascii) : option Z :=
  match l with
  | [] => Some 0
  | c :: r =>
      if is_e c then
        let (negative, r') :=
          match r with
          | "+"%char :: t => (false, t)
          | "-"%char :: t => (true, t)
          | _ => (false, r)
          end in
        match span is_digit r' with
        | ((_ :: _) as ds, []) =>
            Some (if negative then - digits_val ds else digits_val ds)
        | _ => None
        end
      else None
  end.

(** StrUnsignedDecimalLiteral without [Infinity]: [12], [12.], [12.5],
    [.5], each with an optional exponent. *)
Definition unsigned_decimal (l : list ascii) : option Q :=
  let (ip, r1) := span is_digit l in
  match r1 with
  | "."%char :: r2 =>
      let (fp, r3) := span is_digit r2 in
      match ip, fp with
      | [], [] => None
      | _, _ => option_map (decimal_value ip fp) (exponent_part r3)
      end
  | _ =>
      match ip with
      | [] => None
      | _ => option_map (decimal_value ip []) (exponent_part r1)
      end
  end.

Definition infinity_word : list ascii := list_ascii_of_string "Infinity".

Definition signed_decimal (l : list ascii) : number :=
  let (positive, r) :=
    match l with
    | "+"%char :: t => (true, t)
    | "-"%char :: t => (false, t)
    | _ => (true, l)
    end in
  match prefix_of infinity_word r with
  | Some [] => sign_inf positive
  | _ =>
      match unsigned_decimal r with
      | Some q => of_literal (if positive then q else - q)
      | None => NaN
      end
  end.

Definition radix_literal (b : Z) (ds : list ascii) : number :=
  match ds with
  | [] => NaN
  | _ =>
      match radix_val b ds 0 with
      | Some z => of_literal (inject_Z z)
      | None => NaN
      end
  end.

(** [StringToNumber]: the empty or blank string is [0]; [0x], [0o] and
    [0b] literals take no sign. *)
Definition StringToNumber (s : string) : number :=
  match trim_l (list_ascii_of_string s) with
  | [] => zero
  | "0"%char :: ("x" | "X")%char :: ds => radix_literal 16 ds
  | "0"%char :: ("o" | "O")%char :: ds => radix_literal 8 ds
  | "0"%char :: ("b" | "B")%char :: ds => radix_literal 2 ds
  | l => signed_decimal l
  end.

(** A number of the JSON grammar: an optional minus sign, an integer
    part without a leading zero (unless it is the single digit 0), an
    optional fraction of at least one digit, an optional exponent. *)
Definition json_number (l : list ascii) : option number :=
  let (negative, l1) :=
    match l with
    | "-"%char :: t => (true, t)
    | _ => (false, l)
    end in
  let (ip, r1) := span is_digit l1 in
  let int_ok :=
    match ip with
    | [] => false
    | "0"%char :: _ :: _ => false
    | _ => true
    end in
  if int_ok then
    let q :=
      match r1 with
      | "."%char :: r2 =>
          let (fp, r3) := span is_digit r2 in
          match fp with
          | [] => None
          | _ => option_map (decimal_value ip fp) (exponent_part r3)
          end
      | _ => option_map (decimal_value ip []) (exponent_part r1)
      end in
    option_map (fun v => of_literal (if negative then - v else v)) q
  else None.

End Num.

Import Num.

(** ** Values, conversions and property access *)

Module Js.

Inductive value : Type :=
| Undefined
| Null
| VBool (b : bool)
| VNum (n : number)
| VStr (s : string)
| VArr (elems : list value)
| VObj (props : list (string * value)).

(** Errors raised by the engine itself; their message texts are the
    engine's and are supplied by the runtime. *)
Inductive engine_error : Type :=
| SyntaxError_JSON (text : string)
| TypeError_nullish (base : value) (prop : string)
| TypeError_not_function (receiver : value) (method : string)
| TypeError_not_primitive (object : value).

Inductive exn : Type :=
| Error (message : string)
| Engine (e : engine_error)
| Rejected (message : string).

(** [ToBoolean]. *)
Definition truthy (v : value) : bool :=
  match v with
  | Undefined | Null => false
  | VBool b => b
  | VNum n => Num.truthy n
  | VStr s => negb (String.eqb s EmptyString)
  | VArr _ | VObj _ => true
  end.

Definition Array_isArray (v : value) : bool :=
  match v with
  | VArr _ => true
  | _ => false
  end.

(** [a || b]. *)
Definition or_else (a b : value) : value := if truthy a then a else b.

(** An array index: the canonical decimal text of an integer below
    [2^32 - 1]. *)
Definition array_index (k : string) : option Z :=
  match list_ascii_of_string k with
  | [] => None
  | "0"%char :: _ :: _ => None
  | l =>
      if forallb is_digit l && (digits_val l <? 2 ^ 32 - 1)
      then Some (digits_val l) else None
  end.

Fixpoint lookup (k : string) (props : list (string * value)) : option value :=
  match props with
  | [] => None
  | (k', v) :: r => if String.eqb k k' then Some v else lookup k r
  end.

Definition from_option (o : option value) : value :=
  match o with
  | Some v => v
  | None => Undefined
  end.

Definition length_value {A} (l : list A) : value :=
  VNum (of_Z (Z.of_nat (List.length l))).

(** [v.k] and [v[k]], for the property names the sources read (none of
    them is defined by a prototype): reading from [undefined] or [null]
    throws, an array or a string has its indices and [length], an
    object its own properties. *)
Definition get (v : value) (k : string) : exn + value :=
  match v with
  | Undefined | Null => inl (Engine (TypeError_nullish v k))
  | VBool _ | VNum _ => inr Undefined
  | VStr s =>
      match array_index k with
      | Some i =>
          inr (from_option
                 (option_map (fun c => VStr (String c EmptyString))
                    (nth_error (list_ascii_of_string s) (Z.to_nat i))))
      | None =>
          inr (if String.eqb k "length"
               then length_value (list_ascii_of_string s) else Undefined)
      end
  | VArr l =>
      match array_index k with
      | Some i => inr (from_option (nth_error l (Z.to_nat i)))
      | None => inr (if String.eqb k "length" then length_value l else Undefined)
      end
  | VObj props => inr (from_option (lookup k props))
  end.

(** [v?.k]: [undefined] when [v] is [undefined] or [null]. *)
Definition get_opt (v : value) (k : string) : value :=
  match get v k with
  | inr x => x
  | inl _ => Undefined
  end.

(** [ToString].  An array is joined with commas, its [null] and
    [undefined] elements printing as nothing.  An object, which here
    is always one made by [JSON.parse], prints as [[object Object]]
    through the method it inherits, unless it has a property
    [toString] of its own: that value is not callable, [valueOf] gives
    no primitive either, and the conversion throws a TypeError. *)
Fixpoint ToString (v : value) : exn + string :=
  match v with
  | Undefined => inr "undefined"
  | Null => inr "null"
  | VBool true => inr "true"
  | VBool false => inr "false"
  | VNum n => inr (Num.to_string n)
  | VStr s => inr s
  | VArr l =>
      (fix join (l : list value) : exn + string :=
         match l with
         | [] => inr EmptyString
         | x :: r =>
             match (match x with
                    | Undefined | Null => inr EmptyString
                    | _ => ToString x
                    end) with
             | inl e => inl e
             | inr sx =>
                 match r with
                 | [] => inr sx
                 | _ :: _ =>
                     match join r with
                     | inl e => inl e
                     | inr sr => inr (sx ++ "," ++ sr)
                     end
                 end
             end
         end) l
  | VObj props =>
      match lookup "toString" props with
      | Some _ => inl (Engine (TypeError_not_primitive v))
      | None => inr "[object Object]"
      end
  end.

(** [Number(v)]; an array or an object is converted through its
    text, and throws when that does. *)
Definition Number (v : value) : exn + number :=
  match v with
  | Undefined => inr NaN
  | Null => inr zero
  | VBool true => inr (of_Z 1)
  | VBool false => inr zero
  | VNum n => inr n
  | VStr s => inr (StringToNumber s)
  | VArr _ | VObj _ =>
      match ToString v with
      | inl e => inl e
      | inr s => inr (StringToNumber s)
      end
  end.

(** [n || 0] on a number. *)
Definition number_or_0 (n : number) : number :=
  if Num.truthy n then n else zero.

(** [Number(v) || 0]. *)
Definition Number_or_0 (v : value) : exn + value :=
  match Number v with
  | inl e => inl e
  | inr n => inr (VNum (number_or_0 n))
  end.

(** [s.trim()] as a method call: only a string has the method. *)
Definition call_trim (v : value) : exn + string :=
  match v with
  | VStr s => inr (trim s)
  | Undefined | Null => inl (Engine (TypeError_nullish v "trim"))
  | _ => inl (Engine (TypeError_not_function v "trim"))
  end.

End Js.

Import Js.

(** ** JSON.parse and JSON.stringify *)

Module Json.

Inductive token : Type :=
| TLBrace | TRBrace | TLBracket | TRBracket | TColon | TComma
| TString (s : string)
| TNumber (n : number)
| TTrue | TFalse | TNull.

(** The content of a string literal while it is read: a byte of the
    text, or the code unit of a [\uXXXX] escape. *)
Inductive sunit : Type :=
| Byte (c : ascii)
| Unit16 (u : Z).

Definition byte (z : Z) : ascii := ascii_of_N (Z.to_N z).

(** UTF-8 of a code point (a lone surrogate is written as three
    bytes). *)
Definition utf8 (cp : Z) : list ascii :=
  if cp <? 128 then [byte cp]
  else if cp <? 2048 then [byte (192 + cp / 64); byte (128 + cp mod 64)]
  else if cp <? 65536 then
    [byte (224 + cp / 4096); byte (128 + (cp / 64) mod 64); byte (128 + cp mod 64)]
  else
    [byte (240 + cp / 262144); byte (128 + (cp / 4096) mod 64);
     byte (128 + (cp / 64) mod 64); byte (128 + cp mod 64)].

Definition is_high (u : Z) : bool := (55296 <=? u) && (u <=? 56319).
Definition is_low (u : Z) : bool := (56320 <=? u) && (u <=? 57343).

Fixpoint decode (l : list sunit) : list ascii :=
  match l with
  | [] => []
  | Byte c :: r => c :: decode r
  | Unit16 h :: r =>
      match r with
      | Unit16 lo :: r' =>
          if is_high h && is_low lo
          then utf8 (65536 + (h - 55296) * 1024 + (lo - 56320)) ++ decode r'
          else utf8 h ++ decode r
      | _ => utf8 h ++ decode r
      end
  end.

Inductive lex_state : Type :=
| LStart
| LString (acc : list sunit)
| LEscape (acc : list sunit)
| LHex (acc : list sunit) (count : nat) (u : Z)
| LNumber (acc : list ascii)
| LWord (acc : list ascii).

Definition is_json_ws (c : ascii) : bool :=
  let n := code c in
  (n =? 9)%N || (n =? 10)%N || (n =? 13)%N || (n =? 32)%N.

Definition is_number_char (c : ascii) : bool :=
  is_digit c || Ascii.eqb c "-" || Ascii.eqb c "+" || Ascii.eqb c "."
  || is_e c.

Definition backslash : ascii := "092"%char.

(** A character met between two tokens. *)
Definition start_step (toks : list token) (c : ascii)
  : option (lex_state * list token) :=
  if is_json_ws c then Some (LStart, toks)
  else if Ascii.eqb c "{" then Some (LStart, TLBrace :: toks)
  else if Ascii.eqb c "}" then Some (LStart, TRBrace :: toks)
  else if Ascii.eqb c "[" then Some (LStart, TLBracket :: toks)
  else if Ascii.eqb c "]" then Some (LStart, TRBracket :: toks)
  else if Ascii.eqb c ":" then Some (LStart, TColon :: toks)
  else if Ascii.eqb c "," then Some (LStart, TComma :: toks)
  else if Ascii.eqb c dquote then Some (LString [], toks)
  else if is_digit c || Ascii.eqb c "-" then Some (LNumber [c], toks)
  else if is_lower c then Some (LWord [c], toks)
  else None.

Definition word_token (w : list ascii) : option token :=
  let s := string_of_list_ascii w in
  if String.eqb s "true" then Some TTrue
  else if String.eqb s "false" then Some TFalse
  else if String.eqb s "null" then Some TNull
  else None.

Definition escape_char (c : ascii) : option ascii :=
  if Ascii.eqb c dquote then Some dquote
  else if Ascii.eqb c backslash then Some backslash
  else if Ascii.eqb c "/" then Some "/"%char
  else if Ascii.eqb c "b" then Some "008"%char
  else if Ascii.eqb c "f" then Some "012"%char
  else if Ascii.eqb c "n" then Some "010"%char
  else if Ascii.eqb c "r" then Some "013"%char
  else if Ascii.eqb c "t" then Some "009"%char
  else None.

(** One character of the lexer; the accumulators are in reverse. *)
Definition lex_step (st : lex_state) (toks : list token) (c : ascii)
  : option (lex_state * list token) :=
  match st with
  | LStart => start_step toks c
  | LString acc =>
      if Ascii.eqb c dquote
      then Some (LStart, TString (string_of_list_ascii (decode (rev acc))) :: toks)
      else if Ascii.eqb c backslash then Some (LEscape acc, toks)
      else if (code c <? 32)%N then None
      else Some (LString (Byte c :: acc), toks)
  | LEscape acc =>
      if Ascii.eqb c "u" then Some (LHex acc 0 0, toks)
      else option_map (fun e => (LString (Byte e :: acc), toks)) (escape_char c)
  | LHex acc count u =>
      match hex_val c with
      | Some d =>
          if Nat.eqb count 3
          then Some (LString (Unit16 (16 * u + d) :: acc), toks)
          else Some (LHex acc (S count) (16 * u + d), toks)
      | None => None
      end
  | LNumber acc =>
      if is_number_char c then Some (LNumber (c :: acc), toks)
      else
        match json_number (rev acc) with
        | Some n => start_step (TNumber n :: toks) c
        | None => None
        end
  | LWord acc =>
      if is_lower c then Some (LWord (c :: acc), toks)
      else
        match word_token (rev acc) with
        | Some t => start_step (t :: toks) c
        | None => None
        end
  end.

Definition lex_finish (st : lex_state) (toks : list token)
  : option (list token) :=
  match st with
  | LStart => Some (rev toks)
  | LNumber acc => option_map (fun n => rev (TNumber n :: toks)) (json_number (rev acc))
  | LWord acc => option_map (fun t => rev (t :: toks)) (word_token (rev acc))
  | LString _ | LEscape _ | LHex _ _ _ => None
  end.

Fixpoint lex_run (st : lex_state) (toks : list token) (l : list ascii)
  : option (lex_state * list token) :=
  match l with
  | [] => Some (st, toks)
  | c :: r =>
      match lex_step st toks c with
      | Some (st', toks') => lex_run st' toks' r
      | None => None
      end
  end.

Definition lex (l : list ascii) : option (list token) :=
  match lex_run LStart [] l with
  | Some (st, toks) => lex_finish st toks
  | None => None
  end.

(** *** The parser: a stack of open containers *)

(** Property order of an object: array indices first, ascending, then
    the other names in order of creation; assigning an existing name
    keeps its place. *)
Definition index_before (k k' : string) : bool :=
  match array_index k, array_index k' with
  | Some i, Some j => i <? j
  | Some _, None => true
  | None, _ => false
  end.

Fixpoint set_prop (k : string) (v : value) (props : list (string * value))
  : list (string * value) :=
  match props with
  | [] => [(k, v)]
  | (k', v') :: r =>
      if String.eqb k k' then (k, v) :: r
      else if index_before k k' then (k, v) :: props
      else (k', v') :: set_prop k v r
  end.

Inductive frame : Type :=
| FArr (acc : list value)
| FObj (props : list (string * value)) (key : string).

Inductive mode : Type :=
| ExpectValue
| ExpectValueOrClose
| ExpectKeyOrClose
| ExpectKey
| ExpectColon
| AfterElement
| AfterMember
| Done (v : value).

(** A complete value [v] goes into the innermost open container. *)
Definition reduce (v : value) (stack : list frame) : list frame * mode :=
  match stack with
  | [] => ([], Done v)
  | FArr acc :: rest => (FArr (v :: acc) :: rest, AfterElement)
  | FObj props key :: rest => (FObj (set_prop key v props) key :: rest, AfterMember)
  end.

Definition scalar (t : token) : option value :=
  match t with
  | TString s => Some (VStr s)
  | TNumber n => Some (VNum n)
  | TTrue => Some (VBool true)
  | TFalse => Some (VBool false)
  | TNull => Some Null
  | _ => None
  end.

Definition open_or_scalar (t : token) (stack : list frame)
  : option (list frame * mode) :=
  match t with
  | TLBracket => Some (FArr [] :: stack, ExpectValueOrClose)
  | TLBrace => Some (FObj [] EmptyString :: stack, ExpectKeyOrClose)
  | _ => option_map (fun v => reduce v stack) (scalar t)
  end.

Definition set_key (k : string) (stack : list frame)
  : option (list frame * mode) :=
  match stack with
  | FObj props _ :: rest => Some (FObj props k :: rest, ExpectColon)
  | _ => None
  end.

Definition close_array (stack : list frame) : option (list frame * mode) :=
  match stack with
  | FArr acc :: rest => Some (reduce (VArr (rev acc)) rest)
  | _ => None
  end.

Definition close_object (stack : list frame) : option (list frame * mode) :=
  match stack with
  | FObj props _ :: rest => Some (reduce (VObj props) rest)
  | _ => None
  end.

Definition parse_step (stack : list frame) (m : mode) (t : token)
  : option (list frame * mode) :=
  match m, t with
  | ExpectValue, _ => open_or_scalar t stack
  | ExpectValueOrClose, TRBracket => close_array stack
  | ExpectValueOrClose, _ => open_or_scalar t stack
  | ExpectKeyOrClose, TRBrace => close_object stack
  | ExpectKeyOrClose, TString k => set_key k stack
  | ExpectKey, TString k => set_key k stack
  | ExpectColon, TColon => Some (stack, ExpectValue)
  | AfterElement, TComma => Some (stack, ExpectValue)
  | AfterElement, TRBracket => close_array stack
  | AfterMember, TComma => Some (stack, ExpectKey)
  | AfterMember, TRBrace => close_object stack
  | _, _ => None
  end.

Fixpoint parse_tokens (stack : list frame) (m : mode) (ts : list token)
  : option value :=
  match ts with
  | [] => match m with Done v => Some v | _ => None end
  | t :: r =>
      match parse_step stack m t with
      | Some (stack', m') => parse_tokens stack' m' r
      | None => None
      end
  end.

(** [JSON.parse(text)]; [None] stands for the SyntaxError. *)
Definition JSON_parse (text : string) : option value :=
  match lex (list_ascii_of_string text) with
  | Some ts => parse_tokens [] ExpectValue ts
  | None => None
  end.

(** *** JSON.stringify *)

Definition hex_digit (z : Z) : ascii :=
  if z <? 10 then byte (48 + z) else byte (87 + z).

Definition u_escape (u : Z) : list ascii :=
  [backslash; "u"%char; hex_digit (u / 4096); hex_digit ((u / 256) mod 16);
   hex_digit ((u / 16) mod 16); hex_digit (u mod 16)].

Definition escape_byte (c : ascii) : list ascii :=
  let n := Z.of_N (code c) in
  if Ascii.eqb c dquote then [backslash; dquote]
  else if Ascii.eqb c backslash then [backslash; backslash]
  else if n =? 8 then [backslash; "b"%char]
  else if n =? 9 then [backslash; "t"%char]
  else if n =? 10 then [backslash; "n"%char]
  else if n =? 12 then [backslash; "f"%char]
  else if n =? 13 then [backslash; "r"%char]
  else if n <? 32 then u_escape n
  else [c].

(** The three bytes of a lone surrogate are written back as its
    escape. *)
Fixpoint quote_l (l : list ascii) : list ascii :=
  match l with
  | [] => []
  | c :: r =>
      match r with
      | c2 :: c3 :: r' =>
          if (code c =? 237)%N && (160 <=? code c2)%N
          then u_escape (53248 + (Z.of_N (code c2) - 128) * 64
                         + (Z.of_N (code c3) - 128)) ++ quote_l r'
          else escape_byte c ++ quote_l r
      | _ => escape_byte c ++ quote_l r
      end
  end.

Definition quote (s : string) : string :=
  string_of_list_ascii (dquote :: quote_l (list_ascii_of_string s) ++ [dquote]).

(** The text of a value; [None] for [undefined], which an object omits
    and an array writes as [null]. *)
Fixpoint serialize (v : value) : option string :=
  match v with
  | Undefined => None
  | Null => Some "null"
  | VBool true => Some "true"
  | VBool false => Some "false"
  | VNum (Fin q) => Some (Num.to_string (Fin q))
  | VNum _ => Some "null"
  | VStr s => Some (quote s)
  | VArr l =>
      Some ("[" ++ String.concat ","
              ((fix elements (l : list value) : list string :=
                  match l with
                  | [] => []
                  | x :: r =>
                      match serialize x with
                      | Some t => t
                      | None => "null"
                      end :: elements r
                  end) l) ++ "]")
  | VObj props =>
      Some ("{" ++ String.concat ","
              ((fix members (ps : list (string * value)) : list string :=
                  match ps with
                  | [] => []
                  | (k, x) :: r =>
                      match serialize x with
                      | Some t => (quote k ++ ":" ++ t) :: members r
                      | None => members r
                      end
                  end) props) ++ "}")
  end.

(** [JSON.stringify(v)]; [None] is the [undefined] it returns for
    [undefined]. *)
Definition JSON_stringify (v : value) : option string := serialize v.

End Json.

Import Json.

(** ** Effects: outbound calls, interface events, exceptions *)

Module Effects.

Record fetch_request : Type := {
  url : string;
  fetch_method : string;
  fetch_headers : list (string * string);
  fetch_body : option string
}.

Record upstream_response : Type := {
  up_status : Z;
  statusText : string;
  body_bytes : string
}.

(** [await response.text()]. *)
Definition body_text (r : upstream_response) : string :=
  utf8_decode (body_bytes r).

(** [response.ok]: a status in the range 200-299. *)
Definition ok (r : upstream_response) : bool :=
  (200 <=? up_status r) && (up_status r <=? 299).

(** What [fetch] does: it rejects (network failure, abort) or resolves
    to a response of any status. *)
Inductive fetch_outcome : Type :=
| Rejects (message : string)
| Resolves (r : upstream_response).

Record toast_message : Type := {
  title : string;
  description : string;
  destructive : bool
}.

Inductive ui_event : Type :=
| Toast (t : toast_message)
| SetSearchResults (items : list value)
| SetLoading (b : bool)
| SetScanningPhoto (b : bool).

Inductive event : Type :=
| Outbound (r : fetch_request)
| Ui (e : ui_event).

(** The surroundings of a run: the environment variables, the message
    texts of the engine's own errors, and the external model. *)
Record runtime : Type := {
  env : string -> option string;
  error_text : engine_error -> string;
  network : fetch_request -> fetch_outcome
}.

Definition exn_message (rt : runtime) (e : exn) : string :=
  match e with
  | Error m => m
  | Engine ee => error_text rt ee
  | Rejected m => m
  end.

(** A computation ends in a value or an exception, and leaves the
    events it performed, oldest first. *)
Definition M (A : Type) : Type := (exn + A) * list event.

Definition ret {A} (a : A) : M A := (inr a, []).

Definition throw {A} (e : exn) : M A := (inl e, []).

Definition bind {A B} (m : M A) (f : A -> M B) : M B :=
  match m with
  | (inl e, t) => (inl e, t)
  | (inr a, t) => let (r, t') := f a in (r, (t ++ t')%list)
  end.

Definition lift {A} (r : exn + A) : M A := (r, []).

(** Sequencing of steps that perform no event. *)
Definition bind_pure {A B} (r : exn + A) (f : A -> exn + B) : exn + B :=
  match r with
  | inl e => inl e
  | inr a => f a
  end.

Definition emit (e : event) : M unit := (inr tt, [e]).

(** [try { m } catch (e) { h e }]. *)
Definition try_catch {A} (m : M A) (h : exn -> M A) : M A :=
  match m with
  | (inl e, t) => let (r, t') := h e in (r, (t ++ t')%list)
  | (inr a, t) => (inr a, t)
  end.

(** [try { m } finally { f }], for an [f] that does not throw. *)
Definition finally {A} (m : M A) (f : M unit) : M A :=
  (fst m, (snd m ++ snd f)%list).

Definition result {A} (m : M A) : exn + A := fst m.
Definition trace {A} (m : M A) : list event := snd m.

Definition is_outbound (e : event) : bool :=
  match e with
  | Outbound _ => true
  | Ui _ => false
  end.

(** The outbound calls of a run. *)
Definition outbound_calls {A} (m : M A) : list event :=
  filter is_outbound (trace m).

Definition fetch (rt : runtime) (r : fetch_request) : M upstream_response :=
  (match network rt r with
   | Rejects msg => inl (Rejected msg)
   | Resolves resp => inr resp
   end, [Outbound r]).

(** [JSON.parse] of a text, throwing its SyntaxError. *)
Definition parse_text {A} (text : string) (k : value -> M A) : M A :=
  match JSON_parse text with
  | Some v => k v
  | None => throw (Engine (SyntaxError_JSON text))
  end.

(** [Array.prototype.map] and [Array.prototype.filter] with a callback
    that may throw: the first exception ends the traversal. *)
Fixpoint mapM {A B} (f : A -> exn + B) (l : list A) : exn + list B :=
  match l with
  | [] => inr []
  | x :: r =>
      bind_pure (f x) (fun y =>
      bind_pure (mapM f r) (fun ys => inr (y :: ys)))
  end.

Fixpoint filterM {A} (f : A -> exn + bool) (l : list A) : exn + list A :=
  match l with
  | [] => inr []
  | x :: r =>
      bind_pure (f x) (fun b =>
      bind_pure (filterM f r) (fun ys => inr (if b then x :: ys else ys)))
  end.

End Effects.

Import Effects.

Declare Scope js_scope.
Delimit Scope js_scope with js.
Notation "x <- m ;; k" := (bind m (fun x => k))
  (at level 61, m at next level, right associativity) : js_scope.
Notation "m ;;; k" := (bind m (fun _ => k))
  (at level 61, right associativity) : js_scope.
Notation "x <~ r ;; k" := (bind_pure r (fun x => k))
  (at level 61, r at next level, right associativity) : js_scope.

(** ** The prompts sent to the external model *)

Module Prompts.

Definition estimate_nutrition_system : string :=
  (js "You are a nutrition expert. Given a food item or meal description, provide accurate nutrition estimates. Always respond with ONLY a valid JSON array containing 1-3 variations of the food item with different serving sizes. Each object should have exactly these fields:
            - name: string (descriptive name)
            - calories: number
            - protein: number (grams)
            - carbs: number (grams) 
            - fat: number (grams)
            - serving_size: string (e.g., '100g', '1 cup', '1 medium')
            
            Example response format:
            [
              {
                'name': 'Banana - medium',
                'calories': 105,
                'protein': 1.3,
                'carbs': 27,
                'fat': 0.4,
                'serving_size': '1 medium (118g)'
              }
            ]").

Definition scan_meal_text : string :=
  (js "Analyze this meal image and estimate the nutritional content. For each identifiable food item in the image, provide:
                1. Food name
                2. Estimated serving size
                3. Calories
                4. Protein (grams)
                5. Carbohydrates (grams)
                6. Fat (grams)

                Return the response as a JSON object with a 'results' array containing food items. Each item should have: name, calories, protein, carbs, fat, serving_size.

                Example format:
                {
                  'results': [
                    {
                      'name': 'grilled chicken breast',
                      'calories': 165,
                      'protein': 31,
                      'carbs': 0,
                      'fat': 3.6,
                      'serving_size': '100g'
                    }
                  ]
                }

                Be as accurate as possible with portion sizes and nutritional estimates based on what you can see in the image.").

Definition food_search_text (searchQuery : string) : string :=
  (js "Provide nutritional information for '") ++ searchQuery ++
  (js "'. Return the response as a JSON object with a 'results' array containing food items. Each item should have: name, calories, protein, carbs, fat, serving_size.

              Example format:
              {
                'results': [
                  {
                    'name': 'grilled chicken breast',
                    'calories': 165,
                    'protein': 31,
                    'carbs': 0,
                    'fat': 3.6,
                    'serving_size': '100g'
                  }
                ]
              }

              If the food item is ambiguous, provide multiple variations or serving sizes. Be as accurate as possible with nutritional estimates. Only return the JSON, no additional text.").

Definition photo_scan_text : string :=
  (js "Analyze this meal image and estimate the nutritional content. For each identifiable food item in the image, provide:
                  1. Food name
                  2. Estimated serving size
                  3. Calories
                  4. Protein (grams)
                  5. Carbohydrates (grams)
                  6. Fat (grams)

                  Return the response as a JSON object with a 'results' array containing food items. Each item should have: name, calories, protein, carbs, fat, serving_size.

                  Example format:
                  {
                    'results': [
                      {
                        'name': 'grilled chicken breast',
                        'calories': 165,
                        'protein': 31,
                        'carbs': 0,
                        'fat': 3.6,
                        'serving_size': '100g'
                      }
                    ]
                  }

                  Be as accurate as possible with portion sizes and nutritional estimates based on what you can see in the image. Only return the JSON, no additional text.").

End Prompts.

(** ** The edge functions *)

Module Http.

Record request : Type := {
  method : string;
  req_bytes : string
}.

(** [await req.text()]. *)
Definition req_body (req : request) : string := utf8_decode (req_bytes req).

(** A [Response]: [body] is [None] for [new Response(null, ...)]. *)
Record response : Type := {
  status : Z;
  headers : list (string * string);
  body : option string
}.

(** [await req.json()] and [await response.json()], on the text of
    the body. *)
Definition json_of (text : string) : M value :=
  parse_text text ret.

(** [data.choices[0].message.content]. *)
Definition content_of (data : value) : exn + value :=
  (choices <~ get data "choices" ;;
   first <~ get choices "0" ;;
   message <~ get first "message" ;;
   get message "content")%js.

(** [data.choices[0]?.message?.content]. *)
Definition optional_content_of (data : value) : exn + value :=
  (choices <~ get data "choices" ;;
   first <~ get choices "0" ;;
   inr (get_opt (get_opt first "message") "content"))%js.

End Http.

Import Http.

(** *** supabase/functions/scan-meal/index.ts *)

Module ScanMeal.

Definition corsHeaders : list (string * string) :=
  [ ("Access-Control-Allow-Origin", "*");
    ("Access-Control-Allow-Headers",
     "authorization, x-client-info, apikey, content-type") ].

Definition json_headers : list (string * string) :=
  (corsHeaders ++ [("Content-Type", "application/json")])%list.

Definition json_response (st : Z) (v : value) : response :=
  {| status := st; headers := json_headers; body := JSON_stringify v |}.

(** [image.replace(/^data:image\/[a-z]+;base64,/, '')]. *)
Definition strip_data_url (s : string) : string :=
  match prefix_of (list_ascii_of_string "data:image/") (list_ascii_of_string s) with
  | Some r =>
      match span is_lower r with
      | (_ :: _, r2) =>
          match prefix_of (list_ascii_of_string ";base64,") r2 with
          | Some rest => string_of_list_ascii rest
          | None => s
          end
      | _ => s
      end
  | None => s
  end.

Definition replace_data_url (image : value) : exn + string :=
  match image with
  | VStr s => inr (strip_data_url s)
  | _ => inl (Engine (TypeError_not_function image "replace"))
  end.

Definition openai_request (openaiApiKey base64Data : string) : fetch_request :=
  {| url := "https://api.openai.com/v1/chat/completions";
     fetch_method := "POST";
     fetch_headers :=
       [ ("Authorization", "Bearer " ++ openaiApiKey);
         ("Content-Type", "application/json") ];
     fetch_body :=
       JSON_stringify
         (VObj
            [ ("model", VStr "gpt-4o");
              ("messages",
               VArr
                 [ VObj
                     [ ("role", VStr "user");
                       ("content",
                        VArr
                          [ VObj [ ("type", VStr "text");
                                   ("text", VStr Prompts.scan_meal_text) ];
                            VObj
                              [ ("type", VStr "image_url");
                                ("image_url",
                                 VObj
                                   [ ("url", VStr ("data:image/jpeg;base64," ++ base64Data));
                                     ("detail", VStr "high") ]) ] ]) ] ]);
              ("max_tokens", VNum (of_Z 1000));
              ("temperature", VNum (fin (1 # 10))) ]) |}.

(** The callback of [parsedResults.results.map]; a conversion that
    throws ends it. *)
Definition validate (item : value) : exn + value :=
  (name <~ get item "name" ;;
   calories <~ get item "calories" ;;
   calories <~ Number_or_0 calories ;;
   protein <~ get item "protein" ;;
   protein <~ Number_or_0 protein ;;
   carbs <~ get item "carbs" ;;
   carbs <~ Number_or_0 carbs ;;
   fat <~ get item "fat" ;;
   fat <~ Number_or_0 fat ;;
   serving_size <~ get item "serving_size" ;;
   inr (VObj
          [ ("name", or_else name (VStr "Unknown food"));
            ("calories", calories);
            ("protein", protein);
            ("carbs", carbs);
            ("fat", fat);
            ("serving_size", or_else serving_size (VStr "1 serving")) ]))%js.

Definition fallback : value :=
  VObj
    [ ("name", VStr "Mixed meal (AI estimated)");
      ("calories", VNum (of_Z 350));
      ("protein", VNum (of_Z 20));
      ("carbs", VNum (of_Z 30));
      ("fat", VNum (of_Z 15));
      ("serving_size", VStr "1 portion") ].

(** The inner [try] block: parse the content, which [JSON.parse]
    first converts to a text, and validate it. *)
Definition parse_content (content : value) : M response :=
  (text <- lift (ToString content) ;;
   parse_text text (fun parsedResults =>
   results <- lift (get parsedResults "results") ;;
   if truthy results && Array_isArray results then
     match results with
     | VArr items =>
         validatedResults <- lift (mapM validate items) ;;
         ret (json_response 200 (VObj [("results", VArr validatedResults)]))
     | _ => throw (Error "Invalid response structure")
     end
   else throw (Error "Invalid response structure")))%js.

(** The inner [try]/[catch]: any exception of the block gives the
    generic response. *)
Definition parse_or_fallback (content : value) : M response :=
  try_catch (parse_content content)
    (fun parseError =>
       ret (json_response 200 (VObj [("results", VArr [fallback])]))).

Definition handler (rt : runtime) (req : request) : M response :=
  (if String.eqb (method req) "OPTIONS" then
     ret {| status := 200; headers := corsHeaders; body := None |}
   else
     try_catch
       (body <- json_of (req_body req) ;;
        image <- lift (get body "image") ;;
        prompt <- lift (get body "prompt") ;;
        if negb (truthy image) then
          ret (json_response 400 (VObj [("error", VStr "No image provided")]))
        else
          match env rt "OPENAI_API_KEY" with
          | None | Some EmptyString =>
              ret (json_response 500
                     (VObj [("error", VStr "OpenAI API key not configured")]))
          | Some openaiApiKey =>
              base64Data <- lift (replace_data_url image) ;;
              openaiResponse <- fetch rt (openai_request openaiApiKey base64Data) ;;
              if negb (ok openaiResponse) then
                let errorText := body_text openaiResponse in
                ret (json_response 500
                       (VObj [ ("error", VStr "Failed to analyze image");
                               ("details", VStr errorText) ]))
              else
                openaiData <- json_of (body_text openaiResponse) ;;
                content <- lift (optional_content_of openaiData) ;;
                if negb (truthy content) then
                  ret (json_response 500
                         (VObj [("error", VStr "No analysis returned from AI")]))
                else parse_or_fallback content
          end)
       (fun error =>
          ret (json_response 500
                 (VObj [ ("error", VStr "Internal server error");
                         ("message", VStr (exn_message rt error)) ]))))%js.

End ScanMeal.

(** *** The [estimate-nutrition] function (src/unnamed/part_000) *)

Module EstimateNutrition.

Definition corsHeaders : list (string * string) :=
  [ ("Access-Control-Allow-Origin", "*");
    ("Access-Control-Allow-Headers",
     "authorization, x-client-info, apikey, content-type") ].

Definition json_headers : list (string * string) :=
  (corsHeaders ++ [("Content-Type", "application/json")])%list.

(** [const openAIApiKey = Deno.env.get('OPENAI_KEY')], as it prints in
    a template literal. *)
Definition openAIApiKey (rt : runtime) : string :=
  match env rt "OPENAI_KEY" with
  | Some k => k
  | None => "undefined"
  end.

(** The call to the model; [query] is the text of [foodQuery] as the
    template literal prints it. *)
Definition openai_request (rt : runtime) (query : string) : fetch_request :=
  {| url := "https://api.openai.com/v1/chat/completions";
     fetch_method := "POST";
     fetch_headers :=
       [ ("Authorization", "Bearer " ++ openAIApiKey rt);
         ("Content-Type", "application/json") ];
     fetch_body :=
       JSON_stringify
         (VObj
            [ ("model", VStr "gpt-4o-mini");
              ("messages",
               VArr
                 [ VObj [ ("role", VStr "system");
                          ("content", VStr Prompts.estimate_nutrition_system) ];
                   VObj [ ("role", VStr "user");
                          ("content",
                           VStr ("Estimate nutrition for: " ++ query)) ] ]);
              ("temperature", VNum (fin (3 # 10)));
              ("max_tokens", VNum (of_Z 500)) ]) |}.

Definition fallback (query : string) : value :=
  VArr
    [ VObj
        [ ("name", VStr (query ++ " (estimated)"));
          ("calories", VNum (of_Z 100));
          ("protein", VNum (of_Z 5));
          ("carbs", VNum (of_Z 15));
          ("fat", VNum (of_Z 3));
          ("serving_size", VStr "100g") ] ].

(** [if (!Array.isArray(nutritionData)) nutritionData = [nutritionData]]. *)
Definition ensure_array (nutritionData : value) : value :=
  if negb (Array_isArray nutritionData) then VArr [nutritionData]
  else nutritionData.

Definition handler (rt : runtime) (req : request) : M response :=
  (if String.eqb (method req) "OPTIONS" then
     ret {| status := 200; headers := corsHeaders; body := None |}
   else
     try_catch
       (body <- json_of (req_body req) ;;
        foodQuery <- lift (get body "foodQuery") ;;
        if negb (truthy foodQuery) then
          ret {| status := 400; headers := json_headers;
                 body := JSON_stringify
                           (VObj [("error", VStr "Food query is required")]) |}
        else
          query <- lift (ToString foodQuery) ;;
          response <- fetch rt (openai_request rt query) ;;
          if negb (ok response) then
            throw (Error ("OpenAI API error: "
                          ++ Num.to_string (of_Z (up_status response))))
          else
            data <- json_of (body_text response) ;;
            content <- lift (content_of data) ;;
            nutritionText <- lift (call_trim content) ;;
            nutritionData <-
              try_catch (parse_text nutritionText ret)
                (fun parseError => ret (fallback query)) ;;
            ret {| status := 200; headers := json_headers;
                   body := JSON_stringify
                             (VObj [("results", ensure_array nutritionData)]) |})
       (fun error =>
          ret {| status := 500; headers := json_headers;
                 body := JSON_stringify
                           (VObj [ ("error", VStr "Failed to estimate nutrition");
                                   ("details", VStr (exn_message rt error)) ]) |}))%js.

End EstimateNutrition.

(** ** The client-side paths of the FoodSearch component *)

Module Client.

(** [content.match(/\{[\s\S]*\}/)]: the match starts at the first
    opening brace and, the star being greedy, ends at the last closing
    brace after it. *)
Fixpoint from_first (c : ascii) (l : list ascii) : option (list ascii) :=
  match l with
  | [] => None
  | a :: r => if Ascii.eqb a c then Some l else from_first c r
  end.

Fixpoint upto_last (c : ascii) (l : list ascii) : option (list ascii) :=
  match l with
  | [] => None
  | a :: r =>
      match upto_last c r with
      | Some p => Some (a :: p)
      | None => if Ascii.eqb a c then Some [a] else None
      end
  end.

Definition match_braces (s : string) : option string :=
  match from_first "{" (list_ascii_of_string s) with
  | Some t => option_map string_of_list_ascii (upto_last "}" t)
  | None => None
  end.

(** The match on the content, which has the method only when it is a
    string, and the [throw] of the source when nothing matches. *)
Definition extract_json (content : value) : exn + string :=
  match content with
  | VStr s =>
      match match_braces s with
      | Some jsonString => inr jsonString
      | None => inl (Error "No valid JSON object found in AI response.")
      end
  | _ => inl (Engine (TypeError_not_function content "match"))
  end.

(** The callback of [filter]. *)
Definition keep (item : value) : exn + bool :=
  (name <~ get item "name" ;;
   if truthy name then
     calories <~ get item "calories" ;;
     match calories with
     | VNum n => inr (gtb n zero)
     | _ => inr false
     end
   else inr false)%js.

(** The callback of [map]; a conversion that throws ends it. *)
Definition clean (item : value) : exn + value :=
  (name <~ get item "name" ;;
   calories <~ get item "calories" ;;
   calories <~ Number_or_0 calories ;;
   protein <~ get item "protein" ;;
   protein <~ Number_or_0 protein ;;
   carbs <~ get item "carbs" ;;
   carbs <~ Number_or_0 carbs ;;
   fat <~ get item "fat" ;;
   fat <~ Number_or_0 fat ;;
   serving_size <~ get item "serving_size" ;;
   inr (VObj
          [ ("name", name);
            ("calories", calories);
            ("protein", protein);
            ("carbs", carbs);
            ("fat", fat);
            ("serving_size", or_else serving_size (VStr "1 serving")) ]))%js.

(** [parsedResults.results.filter(...).map(...)]. *)
Definition validResults_of (items : list value) : exn + list value :=
  (kept <~ filterM keep items ;; mapM clean kept)%js.

(** [parsedResults.results && Array.isArray(parsedResults.results) &&
    parsedResults.results.length > 0]. *)
Definition nonempty_results (parsedResults : value) : exn + option (list value) :=
  (results <~ get parsedResults "results" ;;
   match results with
   | VArr (x :: r) => inr (Some (x :: r))
   | _ => inr None
   end)%js.

Definition toast (t d : string) (destr : bool) : M unit :=
  emit (Ui (Toast {| title := t; description := d; destructive := destr |})).

Definition count_text {A} (l : list A) : string :=
  Num.to_string (of_Z (Z.of_nat (List.length l))).

Definition response_error (response : upstream_response) (access_hint : string)
  : exn :=
  let errorText := body_text response in
  if up_status response =? 401 then
    Error "Invalid OpenAI API key. Please check your API key."
  else if up_status response =? 429 then
    Error "OpenAI API rate limit exceeded. Please try again in a moment."
  else if (up_status response =? 400)
          && includes errorText "does not have access to model" then
    Error access_hint
  else
    Error ("OpenAI API error: " ++ Num.to_string (of_Z (up_status response))
           ++ " " ++ statusText response).

Definition client_request (openaiApiKey : string) (content : value)
           (max_tokens : Z) : fetch_request :=
  {| url := "https://api.openai.com/v1/chat/completions";
     fetch_method := "POST";
     fetch_headers :=
       [ ("Authorization", "Bearer " ++ openaiApiKey);
         ("Content-Type", "application/json") ];
     fetch_body :=
       JSON_stringify
         (VObj
            [ ("model", VStr "chatgpt-4o-latest");
              ("messages",
               VArr [ VObj [ ("role", VStr "user"); ("content", content) ] ]);
              ("max_tokens", VNum (of_Z max_tokens));
              ("temperature", VNum (fin (1 # 10))) ]) |}.

Definition key_missing : exn :=
  Error "OpenAI API key not configured. Please add VITE_OPENAI_API_KEY to your environment variables.".

(** *** [searchFood] (src/unnamed/part_003) *)

Definition search_fallback (searchQuery : string) : value :=
  VObj
    [ ("name", VStr (searchQuery ++ " (estimated)"));
      ("calories", VNum (of_Z 100));
      ("protein", VNum (of_Z 5));
      ("carbs", VNum (of_Z 15));
      ("fat", VNum (of_Z 3));
      ("serving_size", VStr "100g") ].

(** The inner [try]/[catch] of [searchFood]: from the content of the
    reply to the results shown. *)
Definition search_parse (searchQuery : string) (content : value) : M unit :=
  (try_catch
     (jsonString <- lift (extract_json content) ;;
      parse_text jsonString (fun parsedResults =>
      found <- lift (nonempty_results parsedResults) ;;
      match found with
      | Some items =>
          validResults <- lift (validResults_of items) ;;
          match validResults with
          | _ :: _ =>
              emit (Ui (SetSearchResults validResults)) ;;;
              toast "Nutrition Found"
                ("Found " ++ count_text validResults ++ js " result(s) for '"
                 ++ searchQuery ++ js "'.") false
          | [] => throw (Error "No valid nutrition data found")
          end
      | None => throw (Error "No nutrition data found in response")
      end))
     (fun parseError =>
        emit (Ui (SetSearchResults [search_fallback searchQuery])) ;;;
        toast "Nutrition Estimated"
          "AI provided a general estimate. You may want to adjust the values."
          false))%js.

Definition search_error_message (message : string) : string :=
  if includes message "API key not configured" then
    "OpenAI API key not configured. Please add your API key to the .env file."
  else if includes message "Invalid OpenAI API key" then
    "Invalid OpenAI API key. Please check your API key."
  else if includes message "rate limit" then
    "OpenAI API rate limit exceeded. Please try again in a moment."
  else if includes message "does not have access" then
    "Your OpenAI account doesn't have access to GPT-4o. Please upgrade your account."
  else "Failed to get nutrition data. Please try again.".

Definition searchFood (rt : runtime) (searchQuery : string) : M unit :=
  (if negb (truthy (VStr (trim searchQuery))) then
     toast "Error" "Please enter a food item to search for." true
   else
     emit (Ui (SetLoading true)) ;;;
     finally
       (try_catch
          (match env rt "VITE_OPENAI_API_KEY" with
           | None | Some EmptyString => throw key_missing
           | Some openaiApiKey =>
               response <-
                 fetch rt
                   (client_request openaiApiKey
                      (VStr (Prompts.food_search_text searchQuery)) 500) ;;
               if negb (ok response) then
                 throw (response_error response
                          "Your OpenAI account does not have access to GPT-4o. Please upgrade your account.")
               else
                 data <- json_of (body_text response) ;;
                 content <- lift (optional_content_of data) ;;
                 if negb (truthy content) then
                   throw (Error "No nutrition data returned from AI")
                 else search_parse searchQuery content
           end)
          (fun error =>
             toast "Search Failed"
               (search_error_message (exn_message rt error)) true ;;;
             emit (Ui (SetSearchResults [search_fallback searchQuery]))))
       (emit (Ui (SetLoading false))))%js.

(** *** [processImageFile] (src/unnamed/part_002) *)

(** A file, with the data URL that the [FileReader] gives for it.
    The promise of the read has no [onerror] in the source: a read
    that fails leaves the function pending after
    [setScanningPhoto(true)].  The runs of [processImageFile] below
    are those of a file whose read completes. *)
Record file : Type := {
  file_type : string;
  file_size : Z;
  data_url : string
}.

Definition scan_fallback : value :=
  VObj
    [ ("name", VStr "Mixed meal (AI estimated)");
      ("calories", VNum (of_Z 350));
      ("protein", VNum (of_Z 20));
      ("carbs", VNum (of_Z 30));
      ("fat", VNum (of_Z 15));
      ("serving_size", VStr "1 portion") ].

(** The inner [try]/[catch] of [processImageFile]. *)
Definition scan_parse (content : value) : M unit :=
  (try_catch
     (jsonString <- lift (extract_json content) ;;
      parse_text jsonString (fun parsedResults =>
      found <- lift (nonempty_results parsedResults) ;;
      match found with
      | Some items =>
          validResults <- lift (validResults_of items) ;;
          match validResults with
          | _ :: _ =>
              emit (Ui (SetSearchResults validResults)) ;;;
              toast "Meal Scanned Successfully!"
                ("Found " ++ count_text validResults
                 ++ " food item(s) in your photo.") false
          | [] => throw (Error "No valid food items detected in the image")
          end
      | None => throw (Error "No food items detected in the image")
      end))
     (fun parseError =>
        emit (Ui (SetSearchResults [scan_fallback])) ;;;
        toast "Meal Analyzed"
          "AI provided a general estimate. You may want to adjust the values."
          false))%js.

Definition scan_error_message (message : string) : string :=
  if includes message "API key not configured" then
    "OpenAI API key not configured. Please add your API key to the .env file."
  else if includes message "Invalid OpenAI API key" then
    "Invalid OpenAI API key. Please check your API key."
  else if includes message "rate limit" then
    "OpenAI API rate limit exceeded. Please try again in a moment."
  else if includes message "does not have access" then
    "Your OpenAI account doesn't have access to GPT-4o. Please upgrade or use text search."
  else "Failed to analyze the photo. Please try taking a clearer photo or use text search.".

Definition processImageFile (rt : runtime) (f : file) : M unit :=
  (if negb (startsWith (file_type f) "image/") then
     toast "Invalid File" "Please select an image file." true
   else if 10 * 1024 * 1024 <? file_size f then
     toast "File Too Large" "Please select an image smaller than 10MB." true
   else
     emit (Ui (SetScanningPhoto true)) ;;;
     finally
       (try_catch
          (let base64 := data_url f in
           match env rt "VITE_OPENAI_API_KEY" with
           | None | Some EmptyString => throw key_missing
           | Some openaiApiKey =>
               response <-
                 fetch rt
                   (client_request openaiApiKey
                      (VArr
                         [ VObj [ ("type", VStr "text");
                                  ("text", VStr Prompts.photo_scan_text) ];
                           VObj [ ("type", VStr "image_url");
                                  ("image_url",
                                   VObj [ ("url", VStr base64);
                                          ("detail", VStr "high") ]) ] ])
                      1000) ;;
               if negb (ok response) then
                 throw (response_error response
                          "Your OpenAI account does not have access to GPT-4o. Please upgrade your account or use text search.")
               else
                 data <- json_of (body_text response) ;;
                 content <- lift (optional_content_of data) ;;
                 if negb (truthy content) then
                   throw (Error "No analysis returned from AI")
                 else scan_parse content
           end)
          (fun error =>
             toast "Scan Failed"
               (scan_error_message (exn_message rt error)) true))
       (emit (Ui (SetScanningPhoto false))))%js.

End Client.

(** ** The calorie arithmetic of the profile pages *)

Module Profile.

Record UserProfile : Type := {
  weight : number;
  height : number;
  age : number;
  gender : string;
  activity_level : string;
  goal : string;
  maintenance_calories : number;
  target_calories : number
}.

Definition activityMultipliers : list (string * value) :=
  [ ("sedentary", VNum (fin (12 # 10)));
    ("light", VNum (fin (1375 # 1000)));
    ("moderate", VNum (fin (155 # 100)));
    ("active", VNum (fin (1725 # 1000)));
    ("very-active", VNum (fin (19 # 10))) ].

(** [activityMultipliers[activityLevel]] as the operand of a product:
    the number of the entry; a missing entry is [undefined], which
    multiplies as NaN. *)
Definition multiplier (activityLevel : string) : number :=
  match lookup activityLevel activityMultipliers with
  | Some (VNum n) => n
  | _ => NaN
  end.

(** *** The settings page (src/unnamed/part_010) *)

Module Settings.

(** Mifflin-St Jeor. *)
Definition calculateBMR (weight height age : number) (gender : string) : number :=
  if String.eqb gender "male" then
    add (sub (add (mul (of_Z 10) weight) (mul (fin (625 # 100)) height))
             (mul (of_Z 5) age))
        (of_Z 5)
  else
    sub (sub (add (mul (of_Z 10) weight) (mul (fin (625 # 100)) height))
             (mul (of_Z 5) age))
        (of_Z 161).

Definition calculateMaintenanceCalories (bmr : number) (activityLevel : string)
  : number :=
  round (mul bmr (multiplier activityLevel)).

Definition calculateTargetCalories (maintenanceCalories : number) (goal : string)
  : number :=
  if String.eqb goal "bulk" then round (add maintenanceCalories (of_Z 500))
  else if String.eqb goal "cut" then round (sub maintenanceCalories (of_Z 500))
  else if String.eqb goal "maintain" then maintenanceCalories
  else maintenanceCalories.

(** The recalculation of [updateProfileWithCalculations]. *)
Definition recalculate (newProfile : UserProfile) : UserProfile :=
  let bmr := calculateBMR (weight newProfile) (height newProfile)
                          (age newProfile) (gender newProfile) in
  let maintenanceCalories :=
    calculateMaintenanceCalories bmr (activity_level newProfile) in
  let targetCalories := calculateTargetCalories maintenanceCalories (goal newProfile) in
  {| weight := weight newProfile;
     height := height newProfile;
     age := age newProfile;
     gender := gender newProfile;
     activity_level := activity_level newProfile;
     goal := goal newProfile;
     maintenance_calories := maintenanceCalories;
     target_calories := targetCalories |}.

End Settings.

(** *** The onboarding page (src/unnamed/part_009) *)

Module Onboarding.

(** Harris-Benedict. *)
Definition bmr_of (profile : UserProfile) : number :=
  if String.eqb (gender profile) "male" then
    sub (add (add (fin (88362 # 1000)) (mul (fin (13397 # 1000)) (weight profile)))
             (mul (fin (4799 # 1000)) (height profile)))
        (mul (fin (5677 # 1000)) (age profile))
  else
    sub (add (add (fin (447593 # 1000)) (mul (fin (9247 # 1000)) (weight profile)))
             (mul (fin (3098 # 1000)) (height profile)))
        (mul (fin (4330 # 1000)) (age profile)).

Definition calculateMaintenanceCalories (profile : UserProfile) : UserProfile :=
  let bmr := bmr_of profile in
  let maintenanceCalories := round (mul bmr (multiplier (activity_level profile))) in
  let targetCalories :=
    if String.eqb (goal profile) "bulk" then add maintenanceCalories (of_Z 500)
    else if String.eqb (goal profile) "cut" then sub maintenanceCalories (of_Z 500)
    else maintenanceCalories in
  {| weight := weight profile;
     height := height profile;
     age := age profile;
     gender := gender profile;
     activity_level := activity_level profile;
     goal := goal profile;
     maintenance_calories := maintenanceCalories;
     target_calories := targetCalories |}.

End Onboarding.

End Profile.

(** * Vocabulary of the properties *)

Module Spec.

(** The outbound call failed: [fetch] rejected (network failure,
    timeout) or the status is not 2xx. *)
Definition failed (o : fetch_outcome) : bool :=
  match o with
  | Rejects _ => true
  | Resolves r => negb (ok r)
  end.

(** The external model answered [call] with a 2xx completion whose
    [choices[0].message.content] is [content]. *)
Definition replies (rt : runtime) (call : fetch_request) (content : value)
  : Prop :=
  exists resp data,
    network rt call = Resolves resp
    /\ ok resp = true
    /\ JSON_parse (body_text resp) = Some data
    /\ content_of data = inr content.

(** The body of the response of a run, when it ends in one. *)
Definition body_of (m : M response) : option string :=
  match result m with
  | inr r => body r
  | inl _ => None
  end.

(** An error response: the given status and a JSON object that starts
    with an [error] message. *)
Definition error_response (st : Z) (r : response) : Prop :=
  status r = st
  /\ exists msg rest,
       body r = JSON_stringify (VObj (("error", VStr msg) :: rest)).

Definition nullish (v : value) : bool :=
  match v with
  | Undefined | Null => true
  | _ => false
  end.

Definition no_null (entries : list value) : bool :=
  forallb (fun e => negb (nullish e)) entries.

(** A numeric field after [Number(v) || 0]: the conversion of the
    source gives a number, and the field is that number, or 0 when it
    is NaN or 0.  A missing value converts to NaN, a text that is not
    numeric too. *)
Definition coerced (src out : value) : Prop :=
  exists n,
    Number src = inr n /\ out = VNum (if Num.truthy n then n else zero).

(** A text field after [v || 'default']. *)
Definition defaulted (src : value) (dflt : string) (out : value) : Prop :=
  (truthy src = true /\ out = src) \/ (truthy src = false /\ out = VStr dflt).

(** The calories of a returned item: a number other than NaN, and
    the calories of the entry when those are a number above zero. *)
Definition counted (src out : value) : Prop :=
  exists m,
    out = VNum m /\ m <> NaN
    /\ (forall n, src = VNum n -> gtb n zero = true -> m = n).

(** A returned item [out] against the entry [src] it was made from. *)
Definition validated (src out : value) : Prop :=
  exists name cal pro carb fat ss,
    out = VObj [ ("name", name); ("calories", cal); ("protein", pro);
                 ("carbs", carb); ("fat", fat); ("serving_size", ss) ]
    /\ defaulted (get_opt src "name") "Unknown food" name
    /\ counted (get_opt src "calories") cal
    /\ coerced (get_opt src "protein") pro
    /\ coerced (get_opt src "carbs") carb
    /\ coerced (get_opt src "fat") fat
    /\ defaulted (get_opt src "serving_size") "1 serving" ss.

(** The entries of the reply to a request of [scan-meal]: the
    [results] array of the JSON text that the model returned as the
    content of its first choice. *)
Definition reply_entries (rt : runtime) (req : request) (entries : list value)
  : Prop :=
  exists call resp data content text parsed,
    In (Outbound call) (trace (ScanMeal.handler rt req))
    /\ network rt call = Resolves resp
    /\ JSON_parse (body_text resp) = Some data
    /\ optional_content_of data = inr content
    /\ ToString content = inr text
    /\ JSON_parse text = Some parsed
    /\ get parsed "results" = inr (VArr entries).

(** An entry the client keeps: it has a name, and calories that are a
    number above zero. *)
Definition usable (entry : value) : bool :=
  truthy (get_opt entry "name")
  && match get_opt entry "calories" with
     | VNum n => gtb n zero
     | _ => false
     end.

(** A numeric field of the item the client makes, when the conversion
    does not throw. *)
Definition numeric (v : value) : option value :=
  match Number v with
  | inr n => Some (VNum (if Num.truthy n then n else zero))
  | inl _ => None
  end.

(** The item the client makes from a kept entry; none when a
    conversion throws. *)
Definition cleaned (entry : value) : option value :=
  match numeric (get_opt entry "calories"), numeric (get_opt entry "protein"),
        numeric (get_opt entry "carbs"), numeric (get_opt entry "fat") with
  | Some cal, Some pro, Some carb, Some fat =>
      Some (VObj [ ("name", get_opt entry "name");
                   ("calories", cal);
                   ("protein", pro);
                   ("carbs", carb);
                   ("fat", fat);
                   ("serving_size",
                    or_else (get_opt entry "serving_size") (VStr "1 serving")) ])
  | _, _, _, _ => None
  end.

Fixpoint all_cleaned (entries : list value) : option (list value) :=
  match entries with
  | [] => Some []
  | e :: r =>
      match cleaned e, all_cleaned r with
      | Some item, Some items => Some (item :: items)
      | _, _ => None
      end
  end.

(** What the client shows for the entries of a reply: the entries it
    keeps, in order, each cleaned; the one generic item when none is
    kept, when an entry is [null], or when a conversion throws. *)
Definition shown (generic : value) (entries : list value) : list value :=
  if no_null entries then
    match all_cleaned (filter usable entries) with
    | Some (item :: items) => item :: items
    | _ => [generic]
    end
  else [generic].

(** The text has no occurrence of the character. *)
Definition lacks (c : ascii) (s : string) : bool :=
  forallb (fun a => negb (Ascii.eqb a c)) (list_ascii_of_string s).

(** The extraction as the specification words it: the first balanced
    brace-delimited substring of the text.  [balanced_prefix depth l]
    is the prefix of [l] that closes [depth] open braces. *)
Fixpoint balanced_prefix (depth : nat) (l : list ascii) : option (list ascii) :=
  match l with
  | [] => None
  | c :: r =>
      if Ascii.eqb c "{" then option_map (cons c) (balanced_prefix (S depth) r)
      else if Ascii.eqb c "}" then
        match depth with
        | O => None
        | S O => Some [c]
        | S d => option_map (cons c) (balanced_prefix d r)
        end
      else option_map (cons c) (balanced_prefix depth r)
  end.

Fixpoint first_balanced_l (l : list ascii) : option (list ascii) :=
  match l with
  | [] => None
  | c :: r =>
      if Ascii.eqb c "{" then
        match balanced_prefix 1 r with
        | Some p => Some (c :: p)
        | None => first_balanced_l r
        end
      else first_balanced_l r
  end.

Definition first_balanced (s : string) : option string :=
  option_map string_of_list_ascii (first_balanced_l (list_ascii_of_string s)).

(** [Math.round] as the claim words it: the nearest integer, a half
    going up. *)
Definition round_half_up (q : Q) : Z := Qfloor (q + (1 # 2)).

(** The closed forms, over the rationals: Mifflin-St Jeor, and the
    Harris-Benedict variant of the onboarding page. *)
Definition mifflin (w h a : Z) (gender : string) : Q :=
  (10 * inject_Z w + (625 # 100) * inject_Z h - 5 * inject_Z a
   + (if String.eqb gender "male" then 5 else - (161)))%Q.

Definition harris_benedict (w h a : Z) (gender : string) : Q :=
  (if String.eqb gender "male" then
     (88362 # 1000) + (13397 # 1000) * inject_Z w + (4799 # 1000) * inject_Z h
     - (5677 # 1000) * inject_Z a
   else
     (447593 # 1000) + (9247 # 1000) * inject_Z w + (3098 # 1000) * inject_Z h
     - (4330 # 1000) * inject_Z a)%Q.

(** The multipliers of the activity levels, as the claim lists them. *)
Definition multipliers : list (string * Q) :=
  [ ("sedentary", 12 # 10); ("light", 1375 # 1000); ("moderate", 155 # 100);
    ("active", 1725 # 1000); ("very-active", 19 # 10) ].

(** Whole numbers in the range of the measures of a person. *)
Definition measure (n : Z) : Prop := 0 <= n <= 1000000.

Definition whole_profile (w h a : Z) (gender level goal : string)
  : Profile.UserProfile :=
  {| Profile.weight := of_Z w;
     Profile.height := of_Z h;
     Profile.age := of_Z a;
     Profile.gender := gender;
     Profile.activity_level := level;
     Profile.goal := goal;
     Profile.maintenance_calories := zero;
     Profile.target_calories := zero |}.

Definition with_goal (p : Profile.UserProfile) (g : string) : Profile.UserProfile :=
  {| Profile.weight := Profile.weight p;
     Profile.height := Profile.height p;
     Profile.age := Profile.age p;
     Profile.gender := Profile.gender p;
     Profile.activity_level := Profile.activity_level p;
     Profile.goal := g;
     Profile.maintenance_calories := Profile.maintenance_calories p;
     Profile.target_calories := Profile.target_calories p |}.

End Spec.

(** * Sample inputs *)

Module Sample.

Definition text_of (o : option string) : string :=
  match o with
  | Some s => s
  | None => EmptyString
  end.

(** A chat completion whose first choice carries [content]. *)
Definition completion (content : string) : upstream_response :=
  {| up_status := 200;
     statusText := "OK";
     body_bytes :=
       text_of
         (JSON_stringify
            (VObj
               [ ("choices",
                  VArr
                    [ VObj
                        [ ("index", VNum (of_Z 0));
                          ("message",
                           VObj [ ("role", VStr "assistant");
                                  ("content", VStr content) ]) ] ]) ])) |}.

Definition unavailable : upstream_response :=
  {| up_status := 503;
     statusText := "Service Unavailable";
     body_bytes := "upstream unavailable" |}.

(** A runtime with the given variables, whose model always answers
    with [outcome]. *)
Definition runtime_of (vars : list (string * string)) (outcome : fetch_outcome)
  : runtime :=
  {| env := fun name =>
              match find (fun kv => String.eqb (fst kv) name) vars with
              | Some kv => Some (snd kv)
              | None => None
              end;
     error_text := fun _ => "engine error";
     network := fun _ => outcome |}.

Definition server_key : list (string * string) :=
  [ ("OPENAI_API_KEY", "sk-test"); ("OPENAI_KEY", "sk-test") ].

Definition post (text : string) : request :=
  {| method := "POST"; req_bytes := text |}.

Definition photo_request : request :=
  post (js "{'image':'data:image/png;base64,iVBORw0KGgo='}").

Definition chicken_query : request :=
  post (js "{'foodQuery':'grilled chicken breast'}").

Definition chicken_object : string :=
  js "{'results':[{'name':'grilled chicken breast','calories':165,'protein':31,'carbs':0,'fat':3.6,'serving_size':'100g'}]}".

Definition chicken_array : string :=
  js "[{'name':'grilled chicken breast','calories':165,'protein':31,'carbs':0,'fat':3.6,'serving_size':'100g'}]".

Definition chicken_wrapped : string :=
  js "{'results':[{'results':[{'name':'grilled chicken breast','calories':165,'protein':31,'carbs':0,'fat':3.6,'serving_size':'100g'}]}]}".

Definition chicken_value : value :=
  VArr
    [ VObj [ ("name", VStr "grilled chicken breast");
             ("calories", VNum (of_Z 165));
             ("protein", VNum (of_Z 31));
             ("carbs", VNum zero);
             ("fat", VNum (fin (36 # 10)));
             ("serving_size", VStr "100g") ] ].

Definition banana_inside : string :=
  js "'results':[{'name':'Banana','calories':105,'protein':1.3,'carbs':27,'fat':0.4,'serving_size':'1 medium (118g)'}]".

Definition banana_text : string :=
  js "{'results':[{'name':'Banana','calories':105,'protein':1.3,'carbs':27,'fat':0.4,'serving_size':'1 medium (118g)'}]}".

Definition banana_item : value :=
  VObj [ ("name", VStr "Banana");
         ("calories", VNum (of_Z 105));
         ("protein", VNum (fin (13 # 10)));
         ("carbs", VNum (of_Z 27));
         ("fat", VNum (fin (4 # 10)));
         ("serving_size", VStr "1 medium (118g)") ].

Definition found_toast (searchQuery : string) (count : string) : toast_message :=
  {| title := "Nutrition Found";
     description := "Found " ++ count ++ js " result(s) for '" ++ searchQuery ++ js "'.";
     destructive := false |}.

Definition soda_runtime : runtime :=
  runtime_of server_key
    (Resolves
       (completion (js "{'results':[{'name':'soda','calories':150,'protein':-2}]}"))).

Definition soda_response : response :=
  ScanMeal.json_response 200
    (VObj [("results",
            VArr [VObj [ ("name", VStr "soda");
                         ("calories", VNum (of_Z 150));
                         ("protein", VNum (of_Z (-2)));
                         ("carbs", VNum zero);
                         ("fat", VNum zero);
                         ("serving_size", VStr "1 serving") ]])]).

Definition empty_results_runtime : runtime :=
  runtime_of server_key (Resolves (completion (js "{'results':[]}"))).

Definition mixed_text : string :=
  js "{'results':[{'calories':100},{'name':'rice','calories':0},{'name':'egg','calories':78,'protein':6}]}".

Definition mixed_entries : list value :=
  [ VObj [("calories", VNum (of_Z 100))];
    VObj [("name", VStr "rice"); ("calories", VNum zero)];
    VObj [("name", VStr "egg"); ("calories", VNum (of_Z 78));
          ("protein", VNum (of_Z 6))] ].

Definition estimated_toast : toast_message :=
  {| title := "Nutrition Estimated";
     description := "AI provided a general estimate. You may want to adjust the values.";
     destructive := false |}.

Definition analyzed_toast : toast_message :=
  {| title := "Meal Analyzed";
     description := "AI provided a general estimate. You may want to adjust the values.";
     destructive := false |}.

End Sample.

(** * More of the application *)

(** ** Division, [Math.min], [Math.max] and [parseFloat] *)

Module Maths.

(** [a / b].  The model has one zero, so a non-zero number divided by
    zero takes its sign from the dividend alone. *)
Definition div (a b : number) : number :=
  match a, b with
  | NaN, _ | _, NaN => NaN
  | Fin x, Fin y =>
      if is_zero y then (if is_zero x then NaN else sign_inf (Qle_bool 0 x))
      else fin (x / y)
  | Fin _, (PosInf | NegInf) => zero
  | PosInf, Fin y => sign_inf (Qle_bool 0 y)
  | NegInf, Fin y => sign_inf (negb (Qle_bool 0 y))
  | (PosInf | NegInf), (PosInf | NegInf) => NaN
  end.

(** [Math.min(a, b)] and [Math.max(a, b)]: NaN when an argument is. *)
Definition min (a b : number) : number :=
  match a, b with
  | NaN, _ | _, NaN => NaN
  | _, _ => if gtb a b then b else a
  end.

Definition max (a b : number) : number :=
  match a, b with
  | NaN, _ | _, NaN => NaN
  | _, _ => if gtb a b then a else b
  end.

(** The exponent part at the head of a text, for [parseFloat]: it
    counts only when at least one digit follows the [e] and its sign. *)
Definition leading_exponent (l : list ascii) : Z :=
  match l with
  | c :: r =>
      if is_e c then
        let (negative, r') :=
          match r with
          | "+"%char :: t => (false, t)
          | "-"%char :: t => (true, t)
          | _ => (false, r)
          end in
        match fst (span is_digit r') with
        | [] => 0
        | ds => if negative then - digits_val ds else digits_val ds
        end
      else 0
  | [] => 0
  end.

(** [parseFloat]: leading white space is skipped and the longest
    prefix that is a decimal literal is converted; NaN when there is
    none. *)
Definition parseFloat (s : string) : number :=
  let l0 := list_ascii_of_string s in
  let l := trim_start (List.length l0) ws_seqs l0 in
  let (positive, r) :=
    match l with
    | "+"%char :: t => (true, t)
    | "-"%char :: t => (false, t)
    | _ => (true, l)
    end in
  match prefix_of infinity_word r with
  | Some _ => sign_inf positive
  | None =>
      let (ip, r1) := span is_digit r in
      let (fp, r2) :=
        match r1 with
        | "."%char :: t => span is_digit t
        | _ => ([], r1)
        end in
      match ip, fp with
      | [], [] => NaN
      | _, _ =>
          let q := decimal_value ip fp (leading_exponent r2) in
          of_literal (if positive then q else - q)
      end
  end.

End Maths.

(** ** Dropping a photo (src/unnamed/part_002, part_003) *)

Module Intake.

Import Client.

(** [handleDrop]: the next value of [isDragOver], and what is done
    with the dropped files. *)
Definition handleDrop (rt : runtime) (isDragOver : bool) (files : list file)
  : bool * M unit :=
  (false,
   match find (fun f => startsWith (file_type f) "image/") files with
   | Some imageFile => processImageFile rt imageFile
   | None => toast "Invalid File" "Please drop an image file." true
   end).

End Intake.

(** ** The search through the edge function (src/src/components/FoodSearch.tsx) *)

Module EdgeSearch.

(** The one result shown when the search fails. *)
Definition estimated (searchQuery : string) : value :=
  VObj
    [ ("name", VStr (searchQuery ++ " (estimated)"));
      ("calories", VNum (of_Z 100));
      ("protein", VNum (of_Z 5));
      ("carbs", VNum (of_Z 15));
      ("fat", VNum (of_Z 3));
      ("serving_size", VStr "100g") ].

(** [supabase.functions.invoke] answers with [data] and [error], or
    rejects.  [invoke] is given the body of the call. *)
Record invocation : Type := {
  data : value;
  error : value
}.

(** [throw error]: the error of the invocation is thrown as it is;
    the handler logs it and does not look at it.  Of the error the
    exception keeps the [message], when it is a text. *)
Definition thrown (error : value) : exn :=
  Rejected match get_opt error "message" with
           | VStr message => message
           | _ => EmptyString
           end.

(** [searchFood]. *)
Definition searchFood (invoke : value -> exn + invocation) (searchQuery : string)
  : M unit :=
  (if negb (truthy (VStr (trim searchQuery))) then
     Client.toast "Error" "Please enter a food item to search for." true
   else
     emit (Ui (SetLoading true)) ;;;
     finally
       (try_catch
          (reply <- lift (invoke (VObj [("foodQuery", VStr searchQuery)])) ;;
           if truthy (error reply) then
             throw (thrown (error reply))
           else
             let results := get_opt (data reply) "results" in
             if truthy results && Array_isArray results then
               match results with
               | VArr items =>
                   emit (Ui (SetSearchResults items)) ;;;
                   Client.toast "Nutrition Estimated"
                     ("Found " ++ Client.count_text items
                      ++ js " nutrition estimate(s) for '" ++ searchQuery
                      ++ js "'.") false
               | _ => throw (Error "Invalid response format from nutrition service")
               end
             else throw (Error "Invalid response format from nutrition service"))
          (fun error =>
             Client.toast "Search Failed"
               "Failed to estimate nutrition. Please try again." true ;;;
             emit (Ui (SetSearchResults [estimated searchQuery]))))
       (emit (Ui (SetLoading false))))%js.

End EdgeSearch.

(** ** The settings page, continued (src/unnamed/part_010) *)

Module SettingsPage.

Import Profile.

(** A [Partial<UserProfile>]: the fields an update carries. *)
Record Partial : Type := {
  weight' : option number;
  height' : option number;
  age' : option number;
  gender' : option string;
  activity_level' : option string;
  goal' : option string;
  maintenance_calories' : option number;
  target_calories' : option number
}.

Definition over {A} (old : A) (new : option A) : A :=
  match new with
  | Some a => a
  | None => old
  end.

(** [{ ...profile, ...updatedProfile }]. *)
Definition spread (profile : UserProfile) (updatedProfile : Partial) : UserProfile :=
  {| weight := over (weight profile) (weight' updatedProfile);
     height := over (height profile) (height' updatedProfile);
     age := over (age profile) (age' updatedProfile);
     gender := over (gender profile) (gender' updatedProfile);
     activity_level := over (activity_level profile) (activity_level' updatedProfile);
     goal := over (goal profile) (goal' updatedProfile);
     maintenance_calories :=
       over (maintenance_calories profile) (maintenance_calories' updatedProfile);
     target_calories := over (target_calories profile) (target_calories' updatedProfile) |}.

Definition defined {A} (o : option A) : bool :=
  match o with
  | Some _ => true
  | None => false
  end.

(** [supabase.auth.getSession()]: it rejects, or answers with the
    session, the user's id when there is one. *)
Definition session_answer : Type := exn + option string.

(** A row written by [update ... eq('id', id)]. *)
Record written : Type := {
  row_id : string;
  row : UserProfile
}.

(** [updateProfileWithCalculations]: the next value of [profile] and
    the rows sent to the table.  The answer of the update is not
    looked at, and an exception of the saving is only logged. *)
Definition updateProfileWithCalculations
           (getSession : session_answer) (profile : option UserProfile)
           (updatedProfile : Partial)
  : option UserProfile * list written :=
  match profile with
  | None => (None, [])
  | Some profile =>
      let newProfile := spread profile updatedProfile in
      if defined (weight' updatedProfile)
         || defined (height' updatedProfile)
         || defined (age' updatedProfile)
         || defined (gender' updatedProfile)
         || defined (activity_level' updatedProfile)
         || defined (goal' updatedProfile)
      then
        let newProfile := Settings.recalculate newProfile in
        (Some newProfile,
         match getSession with
         | inr (Some id) => [ {| row_id := id; row := newProfile |} ]
         | _ => []
         end)
      else (Some newProfile, [])
  end.

(** The updates the controls of the page make. *)
Inductive control : Type :=
| Weight (n : number)
| Height (n : number)
| Age (n : number)
| Gender (v : string)
| Activity (v : string)
| Goal (v : string).

Definition update_of (c : control) : Partial :=
  match c with
  | Weight n =>
      {| weight' := Some n; height' := None; age' := None; gender' := None;
         activity_level' := None; goal' := None;
         maintenance_calories' := None; target_calories' := None |}
  | Height n =>
      {| weight' := None; height' := Some n; age' := None; gender' := None;
         activity_level' := None; goal' := None;
         maintenance_calories' := None; target_calories' := None |}
  | Age n =>
      {| weight' := None; height' := None; age' := Some n; gender' := None;
         activity_level' := None; goal' := None;
         maintenance_calories' := None; target_calories' := None |}
  | Gender v =>
      {| weight' := None; height' := None; age' := None; gender' := Some v;
         activity_level' := None; goal' := None;
         maintenance_calories' := None; target_calories' := None |}
  | Activity v =>
      {| weight' := None; height' := None; age' := None; gender' := None;
         activity_level' := Some v; goal' := None;
         maintenance_calories' := None; target_calories' := None |}
  | Goal v =>
      {| weight' := None; height' := None; age' := None; gender' := None;
         activity_level' := None; goal' := Some v;
         maintenance_calories' := None; target_calories' := None |}
  end.

(** A session of the user on the page: one update for each control
    used. *)
Fixpoint edits (getSession : session_answer) (controls : list control)
         (profile : option UserProfile) : option UserProfile * list written :=
  match controls with
  | [] => (profile, [])
  | c :: rest =>
      let (p1, w1) :=
        updateProfileWithCalculations getSession profile (update_of c) in
      let (p2, w2) := edits getSession rest p1 in
      (p2, (w1 ++ w2)%list)
  end.

End SettingsPage.

(** ** The onboarding page, continued (src/unnamed/part_009) *)

Module Wizard.

Import Profile.

(** The state of the page.  [left] is set by [navigate('/tracker')],
    after which the page is gone. *)
Record state : Type := {
  step : Z;
  loading : bool;
  profile : UserProfile;
  left : bool
}.

Definition initial : state :=
  {| step := 1;
     loading := false;
     profile :=
       {| weight := zero; height := zero; age := zero;
          gender := "male"; activity_level := "moderate"; goal := "maintain";
          maintenance_calories := zero; target_calories := zero |};
     left := false |}.

Definition setProfile (f : UserProfile -> UserProfile) (st : state) : state :=
  {| step := step st; loading := loading st; profile := f (profile st);
     left := left st |}.

Definition setStep (n : Z) (st : state) : state :=
  {| step := n; loading := loading st; profile := profile st; left := left st |}.

Definition isStepValid (st : state) : bool :=
  if step st =? 1 then
    gtb (weight (profile st)) zero && gtb (height (profile st)) zero
    && gtb (age (profile st)) zero
  else if step st =? 2 then true
  else if step st =? 3 then true
  else false.

Definition handleNext (st : state) : state :=
  let st1 :=
    if step st =? 2 then setProfile Onboarding.calculateMaintenanceCalories st
    else st in
  if step st <? 3 then setStep (step st + 1) st1 else st1.

(** What [handleComplete] does outside the page. *)
Inductive effect : Type :=
| Upsert (id : string) (row : UserProfile)
| Notice (t : toast_message)
| Navigate (path : string).

(** The answers of the backend to [handleComplete]: of [getSession],
    and of the upsert, which rejects or answers with or without an
    error. *)
Record backend : Type := {
  getSession : exn + option string;
  upsert : string -> UserProfile -> exn + bool
}.

Definition saved_notice : toast_message :=
  {| title := "Profile Created!";
     description := "Your profile has been saved successfully.";
     destructive := false |}.

Definition failed_notice : toast_message :=
  {| title := "Error";
     description := "Failed to save your profile. Please try again.";
     destructive := true |}.

(** [handleComplete]; [loading] is true while it runs and false when
    it is over. *)
Definition handleComplete (b : backend) (st : state) : state * list effect :=
  match getSession b with
  | inr (Some id) =>
      match upsert b id (profile st) with
      | inr false =>
          ({| step := step st; loading := false; profile := profile st;
              left := true |},
           [Upsert id (profile st); Notice saved_notice; Navigate "/tracker"])
      | _ =>
          ({| step := step st; loading := false; profile := profile st;
              left := left st |},
           [Upsert id (profile st); Notice failed_notice])
      end
  | _ =>
      ({| step := step st; loading := false; profile := profile st;
          left := left st |},
       [Notice failed_notice])
  end.

(** What the user can do; a control acts only while it is on the page
    and enabled. *)
Inductive action : Type :=
| TypeWeight (n : number)
| TypeHeight (n : number)
| TypeAge (n : number)
| PickGender (v : string)
| PickActivity (v : string)
| PickGoal (v : string)
| Back
| Next
| Complete (b : backend).

Definition put_weight (n : number) (prev : UserProfile) : UserProfile :=
  {| weight := n; height := height prev; age := age prev; gender := gender prev;
     activity_level := activity_level prev; goal := goal prev;
     maintenance_calories := maintenance_calories prev;
     target_calories := target_calories prev |}.

Definition put_height (n : number) (prev : UserProfile) : UserProfile :=
  {| weight := weight prev; height := n; age := age prev; gender := gender prev;
     activity_level := activity_level prev; goal := goal prev;
     maintenance_calories := maintenance_calories prev;
     target_calories := target_calories prev |}.

Definition put_age (n : number) (prev : UserProfile) : UserProfile :=
  {| weight := weight prev; height := height prev; age := n; gender := gender prev;
     activity_level := activity_level prev; goal := goal prev;
     maintenance_calories := maintenance_calories prev;
     target_calories := target_calories prev |}.

Definition put_gender (v : string) (prev : UserProfile) : UserProfile :=
  {| weight := weight prev; height := height prev; age := age prev; gender := v;
     activity_level := activity_level prev; goal := goal prev;
     maintenance_calories := maintenance_calories prev;
     target_calories := target_calories prev |}.

Definition put_activity_level (v : string) (prev : UserProfile) : UserProfile :=
  {| weight := weight prev; height := height prev; age := age prev;
     gender := gender prev; activity_level := v; goal := goal prev;
     maintenance_calories := maintenance_calories prev;
     target_calories := target_calories prev |}.

Definition put_goal (v : string) (prev : UserProfile) : UserProfile :=
  {| weight := weight prev; height := height prev; age := age prev;
     gender := gender prev; activity_level := activity_level prev; goal := v;
     maintenance_calories := maintenance_calories prev;
     target_calories := target_calories prev |}.

Definition act (a : action) (st : state) : state * list effect :=
  if left st then (st, [])
  else
    match a with
    | TypeWeight n =>
        (if step st =? 1 then setProfile (put_weight n) st else st, [])
    | TypeHeight n =>
        (if step st =? 1 then setProfile (put_height n) st else st, [])
    | TypeAge n =>
        (if step st =? 1 then setProfile (put_age n) st else st, [])
    | PickGender v =>
        (if step st =? 1 then setProfile (put_gender v) st else st, [])
    | PickActivity v =>
        (if step st =? 2 then setProfile (put_activity_level v) st else st, [])
    | PickGoal v =>
        (if step st =? 2 then setProfile (put_goal v) st else st, [])
    | Back =>
        (if (1 <? step st) && negb (loading st) then setStep (step st - 1) st
         else st, [])
    | Next =>
        (if (step st <? 3) && negb (negb (isStepValid st) || loading st)
         then handleNext st else st, [])
    | Complete b =>
        if negb (step st <? 3) && negb (loading st) then handleComplete b st
        else (st, [])
    end.

(** A session of the user on the page. *)
Fixpoint run (actions : list action) (st : state) : state * list effect :=
  match actions with
  | [] => (st, [])
  | a :: rest =>
      let (st1, e1) := act a st in
      let (st2, e2) := run rest st1 in
      (st2, (e1 ++ e2)%list)
  end.

End Wizard.

(** ** The tracker page (src/unnamed/part_008) *)

Module Tracker.

Record FoodEntry : Type := {
  id : string;
  name : string;
  calories : number;
  protein : number;
  carbs : number;
  fat : number;
  serving_size : string;
  logged_at : string;
  meal_type : option string
}.

(** The argument of [addFoodEntry]: an entry without [id] and
    [logged_at]. *)
Record Food : Type := {
  food_name : string;
  food_calories : number;
  food_protein : number;
  food_carbs : number;
  food_fat : number;
  food_serving_size : string;
  food_meal_type : option string
}.

(** The row handed to [insert]. *)
Record NewRow : Type := {
  new_user_id : string;
  new_name : string;
  new_calories : number;
  new_protein : number;
  new_carbs : number;
  new_fat : number;
  new_serving_size : string;
  new_meal_type : string
}.

Record page : Type := {
  todaysEntries : list FoodEntry;
  showFoodSearch : bool;
  showCustomFood : bool;
  selectedMealType : string
}.

Inductive output : Type :=
| Insert (row : NewRow)
| Delete (id : string)
| Shown (t : toast_message).

(** The answers of the backend: a call rejects, or answers with an
    error or with its data. *)
Inductive answer (A : Type) : Type :=
| Thrown
| Refused
| Given (a : A).

Arguments Thrown {A}.
Arguments Refused {A}.
Arguments Given {A} a.

Record store : Type := {
  getSession : exn + option string;
  insert : NewRow -> answer FoodEntry;
  delete : string -> answer unit
}.

(** [a || b] on an optional text and a text. *)
Definition or_text (a : option string) (b : string) : string :=
  match a with
  | Some s => if truthy (VStr s) then s else b
  | None => b
  end.

Definition error_notice (text : string) : toast_message :=
  {| title := "Error"; description := text; destructive := true |}.

Definition addFoodEntry (b : store) (food : Food) (mealType : option string)
           (st : page) : page * list output :=
  match getSession b with
  | inl _ =>
      (st, [Shown (error_notice "Failed to add food entry. Please try again.")])
  | inr None => (st, [])
  | inr (Some user_id) =>
      let row :=
        {| new_user_id := user_id;
           new_name := food_name food;
           new_calories := food_calories food;
           new_protein := food_protein food;
           new_carbs := food_carbs food;
           new_fat := food_fat food;
           new_serving_size := food_serving_size food;
           new_meal_type :=
             or_text (food_meal_type food)
               (or_text mealType (selectedMealType st)) |} in
      match insert b row with
      | Given data =>
          ({| todaysEntries := data :: todaysEntries st;
              showFoodSearch := false;
              showCustomFood := false;
              selectedMealType := EmptyString |},
           [ Insert row;
             Shown {| title := "Food Added";
                      description :=
                        food_name food ++ " has been added to your daily log.";
                      destructive := false |} ])
      | _ =>
          (st,
           [ Insert row;
             Shown (error_notice "Failed to add food entry. Please try again.") ])
      end
  end.

Definition removeEntry (b : store) (id' : string) (st : page)
  : page * list output :=
  match delete b id' with
  | Given _ =>
      ({| todaysEntries :=
            filter (fun entry => negb (String.eqb (id entry) id'))
                   (todaysEntries st);
          showFoodSearch := showFoodSearch st;
          showCustomFood := showCustomFood st;
          selectedMealType := selectedMealType st |},
       [ Delete id';
         Shown {| title := "Food Removed";
                  description :=
                    "Food item has been removed from your daily log.";
                  destructive := false |} ])
  | _ =>
      (st,
       [ Delete id';
         Shown (error_notice "Failed to remove food entry. Please try again.") ])
  end.

Definition handleAddFood (mealType : string) (st : page) : page :=
  {| todaysEntries := todaysEntries st;
     showFoodSearch := true;
     showCustomFood := showCustomFood st;
     selectedMealType := mealType |}.


Definition custom_onAddFood (b : store) (food : Food) (st : page)
  : page * list output :=
  addFoodEntry b food None st.

Definition caloriesProgress (totalCalories target_calories : number) : number :=
  Maths.min (mul (Maths.div totalCalories target_calories) (of_Z 100)) (of_Z 100).

Definition remainingCalories (totalCalories target_calories : number) : number :=
  Maths.max (sub target_calories totalCalories) zero.

End Tracker.

(** ** The custom food form (src/unnamed/part_005) *)

Module CustomFood.

Record FormData : Type := {
  name : string;
  calories : string;
  protein : string;
  carbs : string;
  fat : string;
  serving_size : string;
  meal_type : string
}.

(** [parseFloat(text) || 0]. *)
Definition parseFloat_or_0 (text : string) : number :=
  let n := Maths.parseFloat text in
  if Num.truthy n then n else zero.

(** [handleSubmit]: the food handed to [onAddFood], if any. *)
Definition handleSubmit (formData : FormData) : option Tracker.Food :=
  if negb (truthy (VStr (name formData)))
     || negb (truthy (VStr (calories formData)))
     || negb (truthy (VStr (meal_type formData)))
  then None
  else
    Some {| Tracker.food_name := name formData;
            Tracker.food_calories := parseFloat_or_0 (calories formData);
            Tracker.food_protein := parseFloat_or_0 (protein formData);
            Tracker.food_carbs := parseFloat_or_0 (carbs formData);
            Tracker.food_fat := parseFloat_or_0 (fat formData);
            Tracker.food_serving_size :=
              if truthy (VStr (serving_size formData))
              then serving_size formData else "1 serving";
            Tracker.food_meal_type := Some (meal_type formData) |}.

End CustomFood.

(** ** The daily chart (src/unnamed/part_001) *)

Module Chart.

Definition calorieProgress (target current : number) : number :=
  Maths.min (mul (Maths.div current target) (of_Z 100)) (of_Z 100).

Definition isOverTarget (target current : number) : bool := gtb current target.

(** [percentage] of a macro with [perGram] calories in a gram. *)
Definition percentage (current grams : number) (perGram : Z) : number :=
  if gtb current zero then
    mul (Maths.div (mul grams (of_Z perGram)) current) (of_Z 100)
  else zero.

End Chart.

(** * Vocabulary of the further properties *)

Module Terms.

(** What a caller of an edge function may rely on: the CORS header on
    every response; an empty 200 for a preflight; otherwise a JSON
    object, [results] holding an array under status 200 or an [error]
    message under status 400 or 500. *)
Definition enveloped (req : request) (r : response) : Prop :=
  In ("Access-Control-Allow-Origin", "*") (headers r)
  /\ (method req = "OPTIONS" -> status r = 200 /\ body r = None)
  /\ (method req <> "OPTIONS" ->
      In ("Content-Type", "application/json") (headers r)
      /\ ((status r = 200
           /\ exists items,
                body r = JSON_stringify (VObj [("results", VArr items)]))
          \/ ((status r = 400 \/ status r = 500)
              /\ exists msg rest,
                   body r = JSON_stringify (VObj (("error", VStr msg) :: rest))))).

(** A run talks to the outside at most once, and then to the chat
    completions endpoint with a POST. *)
Definition at_most_one_call (tr : list event) : Prop :=
  tr = []
  \/ exists c,
       tr = [Outbound c]
       /\ url c = "https://api.openai.com/v1/chat/completions"
       /\ fetch_method c = "POST".

(** A text of lower-case letters only, the [[a-z]] of the sources. *)
Definition lowercase (s : string) : bool :=
  forallb is_lower (list_ascii_of_string s).

(** A 2xx completion that carries no text: its body is not JSON, or
    [choices[0].message.content] is not a string. *)
Definition no_text (resp : upstream_response) : Prop :=
  match JSON_parse (body_text resp) with
  | None => True
  | Some data => forall s, content_of data <> inr (VStr s)
  end.


(** What the component shows at the end of a search or a scan: a list
    of results that is never empty followed by a notice, or, at the
    failure of a search, the destructive notice followed by its one
    generic result. *)
Definition shows_results (shown : list event) : Prop :=
  exists items t,
    items <> []
    /\ ((shown = [Ui (SetSearchResults items); Ui (Toast t)]
         /\ destructive t = false)
        \/ (shown = [Ui (Toast t); Ui (SetSearchResults items)]
            /\ destructive t = true)).

(** A destructive notice and nothing else: the results on screen are
    left as they were. *)
Definition only_warns (heading : string) (shown : list event) : Prop :=
  exists text,
    shown = [Ui (Toast {| title := heading; description := text;
                          destructive := true |})].

Definition scan_content (f : Client.file) : value :=
  VArr
    [ VObj [ ("type", VStr "text"); ("text", VStr Prompts.photo_scan_text) ];
      VObj [ ("type", VStr "image_url");
             ("image_url",
              VObj [ ("url", VStr (Client.data_url f));
                     ("detail", VStr "high") ]) ] ].


(** The environment variable is not set, or set to the empty text. *)
Definition key_absent (rt : runtime) (name : string) : Prop :=
  env rt name = None \/ env rt name = Some EmptyString.

(** The two statuses of the model that the browser explains by name. *)
Definition explained (st : Z) (text : string) : Prop :=
  (st = 401 /\ text = "Invalid OpenAI API key. Please check your API key.")
  \/ (st = 429
      /\ text = "OpenAI API rate limit exceeded. Please try again in a moment.").

Definition warning (heading text : string) : event :=
  Ui (Toast {| title := heading; description := text; destructive := true |}).

(** An item as the browser shows it after its own filter: a name,
    calories above zero, the other amounts numbers, a serving size. *)
Definition shown_ok (v : value) : Prop :=
  exists name cal pro carb fat ss,
    v = VObj [ ("name", name); ("calories", VNum cal); ("protein", VNum pro);
               ("carbs", VNum carb); ("fat", VNum fat); ("serving_size", ss) ]
    /\ truthy name = true /\ gtb cal zero = true
    /\ pro <> NaN /\ carb <> NaN /\ fat <> NaN
    /\ truthy ss = true.

Definition sample_photo : Client.file :=
  {| Client.file_type := "image/png";
     Client.file_size := 2048;
     Client.data_url := "data:image/png;base64,iVBORw0KGgo=" |}.

Definition browser_key : list (string * string) :=
  [ ("VITE_OPENAI_API_KEY", "sk-test") ].

Definition unauthorized : upstream_response :=
  {| up_status := 401; statusText := "Unauthorized";
     body_bytes := "bad key" |}.


Definition not_image (f : Client.file) : Prop :=
  startsWith (Client.file_type f) "image/" = false.

(** What the search through the edge function takes as results: the
    answer carries no error and [data.results] is an array. *)
Definition accepted (answer : exn + EdgeSearch.invocation) : option (list value) :=
  match answer with
  | inr reply =>
      if truthy (EdgeSearch.error reply) then None
      else
        match get_opt (EdgeSearch.data reply) "results" with
        | VArr items => Some items
        | _ => None
        end
  | inl _ => None
  end.

Definition estimate_notice (searchQuery : string) (items : list value) : event :=
  Ui (Toast {| title := "Nutrition Estimated";
               description :=
                 "Found " ++ Client.count_text items
                 ++ js " nutrition estimate(s) for '" ++ searchQuery ++ js "'.";
               destructive := false |}).

(** A profile whose calories are those the onboarding page computes
    from its other fields, weight, height and age being above zero. *)
Definition plan_ready (row : Profile.UserProfile) : Prop :=
  gtb (Profile.weight row) zero = true
  /\ gtb (Profile.height row) zero = true
  /\ gtb (Profile.age row) zero = true
  /\ Profile.maintenance_calories row
     = round (mul (Profile.Onboarding.bmr_of row)
                  (Profile.multiplier (Profile.activity_level row)))
  /\ Profile.target_calories row
     = (if String.eqb (Profile.goal row) "bulk"
        then add (Profile.maintenance_calories row) (of_Z 500)
        else if String.eqb (Profile.goal row) "cut"
             then sub (Profile.maintenance_calories row) (of_Z 500)
             else Profile.maintenance_calories row).

(** A profile whose calories are those the settings page computes from
    its other fields. *)
Definition plan_current (p : Profile.UserProfile) : Prop :=
  Profile.maintenance_calories p
  = Profile.Settings.calculateMaintenanceCalories
      (Profile.Settings.calculateBMR (Profile.weight p) (Profile.height p)
                                     (Profile.age p) (Profile.gender p))
      (Profile.activity_level p)
  /\ Profile.target_calories p
     = Profile.Settings.calculateTargetCalories (Profile.maintenance_calories p)
                                                (Profile.goal p).

Definition sample_backend : Wizard.backend :=
  {| Wizard.getSession := inr (Some "user-1");
     Wizard.upsert := fun _ _ => inr false |}.

Definition sample_session : list Wizard.action :=
  [ Wizard.TypeWeight (of_Z 70); Wizard.TypeHeight (of_Z 175);
    Wizard.TypeAge (of_Z 30); Wizard.Next; Wizard.PickGoal "cut";
    Wizard.Next; Wizard.Complete sample_backend ].

Definition sample_profile : Profile.UserProfile :=
  {| Profile.weight := of_Z 70; Profile.height := of_Z 175;
     Profile.age := of_Z 30; Profile.gender := "male";
     Profile.activity_level := "moderate"; Profile.goal := "maintain";
     Profile.maintenance_calories := zero; Profile.target_calories := zero |}.

Definition sample_plan : Profile.UserProfile :=
  {| Profile.weight := of_Z 70; Profile.height := of_Z 175;
     Profile.age := of_Z 30; Profile.gender := "male";
     Profile.activity_level := "moderate"; Profile.goal := "cut";
     Profile.maintenance_calories := of_Z 2628;
     Profile.target_calories := of_Z 2128 |}.

(** The numbers of a row to insert are numbers. *)
Definition row_numbers (row : Tracker.NewRow) : Prop :=
  Tracker.new_calories row <> NaN /\ Tracker.new_protein row <> NaN
  /\ Tracker.new_carbs row <> NaN /\ Tracker.new_fat row <> NaN.



Definition ids (entries : list Tracker.FoodEntry) : list string :=
  map Tracker.id entries.

Definition sample_entry : Tracker.FoodEntry :=
  {| Tracker.id := "e-1"; Tracker.name := "Oatmeal";
     Tracker.calories := of_Z 150; Tracker.protein := of_Z 5;
     Tracker.carbs := of_Z 27; Tracker.fat := of_Z 3;
     Tracker.serving_size := "1 cup"; Tracker.logged_at := "2025-06-30T08:00:00Z";
     Tracker.meal_type := Some "breakfast" |}.

Definition sample_store : Tracker.store :=
  {| Tracker.getSession := inr (Some "user-1");
     Tracker.insert := fun _ => Tracker.Given sample_entry;
     Tracker.delete := fun _ => Tracker.Given tt |}.

Definition sample_food : Tracker.Food :=
  {| Tracker.food_name := "Oatmeal"; Tracker.food_calories := of_Z 150;
     Tracker.food_protein := of_Z 5; Tracker.food_carbs := of_Z 27;
     Tracker.food_fat := of_Z 3; Tracker.food_serving_size := "1 cup";
     Tracker.food_meal_type := None |}.

Definition empty_page : Tracker.page :=
  {| Tracker.todaysEntries := []; Tracker.showFoodSearch := false;
     Tracker.showCustomFood := false; Tracker.selectedMealType := EmptyString |}.

Definition sample_form : CustomFood.FormData :=
  {| CustomFood.name := "Smoothie"; CustomFood.calories := "250";
     CustomFood.protein := "20.5"; CustomFood.carbs := EmptyString;
     CustomFood.fat := "abc"; CustomFood.serving_size := EmptyString;
     CustomFood.meal_type := "snacks" |}.

Definition logged_page : Tracker.page :=
  {| Tracker.todaysEntries := [sample_entry]; Tracker.showFoodSearch := false;
     Tracker.showCustomFood := false; Tracker.selectedMealType := EmptyString |}.

(** A backend that accepts no write. *)
Definition closed_store : Tracker.store :=
  {| Tracker.getSession := inr (Some "user-1");
     Tracker.insert := fun _ => Tracker.Refused;
     Tracker.delete := fun _ => Tracker.Thrown |}.

(** The state of the onboarding page between two actions of the user:
    past the first step weight, height and age are above zero, and on
    the last step the calories are those computed from the profile. *)
Definition measured (p : Profile.UserProfile) : Prop :=
  gtb (Profile.weight p) zero = true /\ gtb (Profile.height p) zero = true
  /\ gtb (Profile.age p) zero = true.

Definition settled (st : Wizard.state) : Prop :=
  1 <= Wizard.step st <= 3
  /\ (2 <= Wizard.step st -> measured (Wizard.profile st))
  /\ (Wizard.step st = 3 ->
      Profile.Onboarding.calculateMaintenanceCalories (Wizard.profile st)
      = Wizard.profile st).

End Terms.

(** * Proofs *)

Import Spec Sample.

Ltac monad_unfold :=
  unfold json_of, parse_text, bind, try_catch, lift, ret, throw, fetch,
    emit, finally, bind_pure.

(** Case analysis on the innermost scrutinee of the goal. *)
Ltac innermost x tac :=
  lazymatch x with
  | context [match _ with _ => _ end] => fail
  | _ => tac x
  end.

Ltac split_goal_match :=
  match goal with
  | |- context [match ?x with _ => _ end] =>
      innermost x ltac:(fun y => destruct y eqn:?)
  end.

Ltac same_pairs :=
  repeat match goal with
         | H : (_, _) = (_, _) |- _ => injection H as <- <-
         | H : inr _ = inr _ |- _ => injection H as <-
         | H : inl _ = inl _ |- _ => injection H as <-
         end.

(** ** Lists and texts *)

Module ListFacts.

Lemma mapM_Forall2 {A B} (f : A -> exn + B) (l : list A) (l' : list B) :
  mapM f l = inr l' -> Forall2 (fun x y => f x = inr y) l l'.
Proof.
  revert l'. induction l as [| x r IH]; intros l' H; cbn in H.
  - injection H as <-. constructor.
  - unfold bind_pure in H. destruct (f x) as [e | y] eqn:Hx; [discriminate |].
    destruct (mapM f r) as [e | ys]; [discriminate |].
    injection H as <-. constructor; auto.
Qed.

Lemma Forall2_Forall_r {A B} (R : A -> B -> Prop) (P : B -> Prop) l l' :
  (forall x y, R x y -> P y) -> Forall2 R l l' -> Forall P l'.
Proof. intros H F. induction F; constructor; eauto. Qed.

Lemma Forall2_weaken {A B} (R S : A -> B -> Prop) l l' :
  (forall x y, R x y -> S x y) -> Forall2 R l l' -> Forall2 S l l'.
Proof. intros H F. induction F; constructor; auto. Qed.

Lemma forallb_filter {A} (p q : A -> bool) (l : list A) :
  forallb p l = true -> forallb p (filter q l) = true.
Proof.
  induction l as [| x r IH]; cbn; intros H; [reflexivity |].
  apply andb_true_iff in H as [Hx Hr].
  destruct (q x); cbn; [rewrite Hx |]; auto.
Qed.

Lemma list_ascii_app (a b : string) :
  list_ascii_of_string (a ++ b)
  = (list_ascii_of_string a ++ list_ascii_of_string b)%list.
Proof. induction a as [| c a IH]; cbn; [reflexivity | now rewrite IH]. Qed.

Lemma string_of_list_app (a b : list ascii) :
  string_of_list_ascii (a ++ b)%list
  = string_of_list_ascii a ++ string_of_list_ascii b.
Proof. induction a as [| c a IH]; cbn; [reflexivity | now rewrite IH]. Qed.

Lemma prefix_of_length (p s r : list ascii) :
  prefix_of p s = Some r -> List.length s = (List.length p + List.length r)%nat.
Proof.
  revert s. induction p as [| a p IH]; intros s H; cbn in H.
  - injection H as <-. reflexivity.
  - destruct s as [| b s]; [discriminate |].
    destruct (Ascii.eqb a b); [| discriminate].
    cbn. now rewrite (IH s H).
Qed.

Lemma first_prefix_shorter (seqs : list (list ascii)) (s r : list ascii) :
  Forall (fun p => p <> []) seqs ->
  first_prefix seqs s = Some r -> (List.length r < List.length s)%nat.
Proof.
  intros F. induction F as [| p ps Hp F IH]; cbn; intros H; [discriminate |].
  destruct (prefix_of p s) as [r' |] eqn:E; [| auto].
  injection H as ->. apply prefix_of_length in E.
  destruct p; [contradiction | cbn in E; lia].
Qed.

(** The length of the text is fuel enough for [trim_start]: no white
    space is left at the head. *)
Lemma trim_start_enough (seqs : list (list ascii)) (fuel : nat) (s : list ascii) :
  Forall (fun p => p <> []) seqs ->
  (List.length s <= fuel)%nat ->
  first_prefix seqs (trim_start fuel seqs s) = None.
Proof.
  intros F. revert s. induction fuel as [| f IH]; intros s L; cbn.
  - destruct s; [| cbn in L; lia].
    clear L. induction F as [| p ps Hp F IHF]; cbn; [reflexivity |].
    destruct p; [contradiction | exact IHF].
  - destruct (first_prefix seqs s) as [r |] eqn:E; [| exact E].
    apply IH. apply (first_prefix_shorter seqs s r F) in E. lia.
Qed.

Lemma trim_start_whitespace (s : list ascii) :
  first_prefix ws_seqs (trim_start (List.length s) ws_seqs s) = None.
Proof.
  apply trim_start_enough; [| lia].
  unfold ws_seqs, ws_table. cbn [map]. repeat constructor; discriminate.
Qed.

Lemma not_options (req : request) :
  method req <> "OPTIONS" -> String.eqb (method req) "OPTIONS" = false.
Proof. intros H. now apply String.eqb_neq. Qed.

End ListFacts.

Import ListFacts.

(** ** White space around a JSON text *)

Module JsonFacts.

Lemma prefix_of_app (p s r : list ascii) :
  prefix_of p s = Some r -> s = (p ++ r)%list.
Proof.
  revert s. induction p as [| a p IH]; intros s H; cbn in H.
  - now injection H as <-.
  - destruct s as [| b s]; [discriminate |].
    destruct (Ascii.eqb_spec a b) as [-> |]; [| discriminate].
    cbn. now rewrite <- (IH s H).
Qed.

Lemma first_prefix_app (seqs : list (list ascii)) (s r : list ascii) :
  first_prefix seqs s = Some r -> exists p, In p seqs /\ s = (p ++ r)%list.
Proof.
  induction seqs as [| q qs IH]; cbn; intros H; [discriminate |].
  destruct (prefix_of q s) as [r' |] eqn:E.
  - injection H as ->. exists q. split; [now left | now apply prefix_of_app].
  - destruct (IH H) as (p & Hin & ->). exists p. split; [now right | reflexivity].
Qed.

Lemma lex_run_app (a b : list ascii) (st : lex_state) (toks : list token) :
  lex_run st toks (a ++ b)
  = match lex_run st toks a with
    | Some (st', toks') => lex_run st' toks' b
    | None => None
    end.
Proof.
  revert st toks. induction a as [| c a IH]; intros st toks; cbn; [reflexivity |].
  destruct (lex_step st toks c) as [[st' toks'] |]; [apply IH | reflexivity].
Qed.

(** White space at the head of a text that lexes is skipped. *)
Lemma ws_head :
  Forall (fun p => forall toks st' toks',
              lex_run LStart toks p = Some (st', toks') ->
              st' = LStart /\ toks' = toks) ws_seqs.
Proof.
  unfold ws_seqs, ws_table. cbn [map].
  repeat (apply Forall_cons;
          [intros toks st' toks' H; vm_compute in H;
           first [discriminate H | injection H as <- <-; split; reflexivity] |]).
  apply Forall_nil.
Qed.

(** White space at the end of a text that lexes changes nothing. *)
Lemma ws_tail :
  Forall (fun p => forall st toks st' toks' ts,
              lex_run st toks p = Some (st', toks') ->
              lex_finish st' toks' = Some ts ->
              lex_finish st toks = Some ts) ws_seqs.
Proof.
  unfold ws_seqs, ws_table. cbn [map].
  repeat (apply Forall_cons;
          [intros st toks st' toks' ts H F;
           destruct st; cbn in H;
           repeat match type of H with
                  | context [json_number ?x] =>
                      destruct (json_number x) eqn:?; cbn in H
                  | context [word_token ?x] =>
                      destruct (word_token x) eqn:?; cbn in H
                  end;
           try discriminate H; injection H as <- <-; cbn in F |- *;
           try discriminate F;
           repeat match goal with
                  | E : json_number _ = _ |- _ => rewrite E; clear E
                  | E : word_token _ = _ |- _ => rewrite E; clear E
                  end;
           exact F |]).
  apply Forall_nil.
Qed.

Lemma lex_skip_head (p l : list ascii) (ts : list token) :
  In p ws_seqs -> lex (p ++ l) = Some ts -> lex l = Some ts.
Proof.
  intros Hin. unfold lex. rewrite lex_run_app.
  destruct (lex_run LStart [] p) as [[st toks] |] eqn:E; [| discriminate].
  pose proof (proj1 (Forall_forall _ _) ws_head p Hin [] st toks E) as [-> ->].
  auto.
Qed.

Lemma lex_skip_tail (p l : list ascii) (ts : list token) :
  In p ws_seqs -> lex (l ++ p) = Some ts -> lex l = Some ts.
Proof.
  intros Hin. unfold lex. rewrite lex_run_app.
  destruct (lex_run LStart [] l) as [[st toks] |]; [| discriminate].
  destruct (lex_run st toks p) as [[st' toks'] |] eqn:E; [| discriminate].
  apply (proj1 (Forall_forall _ _) ws_tail p Hin st toks st' toks' ts E).
Qed.

Lemma lex_trim_start (fuel : nat) (s : list ascii) (ts : list token) :
  lex s = Some ts -> lex (trim_start fuel ws_seqs s) = Some ts.
Proof.
  revert s. induction fuel as [| f IH]; intros s H; cbn [trim_start]; [exact H |].
  destruct (first_prefix ws_seqs s) as [r |] eqn:E; [| exact H].
  apply IH. destruct (first_prefix_app _ _ _ E) as (p & Hin & ->).
  now apply (lex_skip_head p r).
Qed.

Lemma lex_trim_end (fuel : nat) (x : list ascii) (ts : list token) :
  lex (rev x) = Some ts ->
  lex (rev (trim_start fuel (map (@rev ascii) ws_seqs) x)) = Some ts.
Proof.
  revert x. induction fuel as [| f IH]; intros x H; cbn [trim_start]; [exact H |].
  destruct (first_prefix (map (@rev ascii) ws_seqs) x) as [r |] eqn:E; [| exact H].
  apply IH. destruct (first_prefix_app _ _ _ E) as (q & Hin & ->).
  apply in_map_iff in Hin as (p & <- & Hin).
  rewrite rev_app_distr, rev_involutive in H.
  now apply (lex_skip_tail p (rev r)).
Qed.

(** A text that parses as JSON parses to the same value after
    [trim]. *)
Lemma JSON_parse_trim (raw : string) (v : value) :
  JSON_parse raw = Some v -> JSON_parse (trim raw) = Some v.
Proof.
  unfold JSON_parse, trim. rewrite list_ascii_of_string_of_list_ascii.
  destruct (lex (list_ascii_of_string raw)) as [ts |] eqn:E; [| discriminate].
  intros H. unfold trim_l.
  rewrite (lex_trim_end _ _ ts); [exact H |].
  rewrite rev_involutive. now apply lex_trim_start.
Qed.

End JsonFacts.

(** ** Binary64 arithmetic *)

Module FloatFacts.

Local Open Scope Q_scope.

Lemma pow2_pos (e : Z) : 0 < pow2 e.
Proof. apply Qpower_0_lt. reflexivity. Qed.

Lemma pow2_plus (a b : Z) : pow2 (a + b) == pow2 a * pow2 b.
Proof. apply Qpower_plus. discriminate. Qed.

Lemma pow2_le (a b : Z) : (a <= b)%Z -> pow2 a <= pow2 b.
Proof. intros H. apply Qpower_le_compat_l; [exact H | discriminate]. Qed.

Lemma pow2_lt (a b : Z) : (a < b)%Z -> pow2 a < pow2 b.
Proof. intros H. apply Qpower_lt_compat_l; [exact H | reflexivity]. Qed.

Lemma pow2_lt_inv (a b : Z) : pow2 a < pow2 b -> (a < b)%Z.
Proof. intros H. apply (Qpower_lt_compat_l_inv 2); [exact H | reflexivity]. Qed.

Lemma pow2_Z (n : Z) : (0 <= n)%Z -> pow2 n == inject_Z (2 ^ n).
Proof. intros H. unfold pow2. now rewrite (Zpower_Qpower 2 n H). Qed.

Lemma pow2_succ (e : Z) : pow2 (e + 1) == 2 * pow2 e.
Proof. rewrite pow2_plus. change (pow2 1) with 2. ring. Qed.

Lemma pow2_pred (e : Z) : pow2 (e - 1) == pow2 e / 2.
Proof.
  assert (H : pow2 e == pow2 (e - 1) * 2).
  { replace e with ((e - 1) + 1)%Z at 1 by ring. rewrite pow2_plus. reflexivity. }
  rewrite H. field.
Qed.

Lemma pow2_half (e : Z) : pow2 (e - 1) == pow2 e * (1 # 2).
Proof. rewrite pow2_pred. field. Qed.

(** The exponent found by [ilog2] is the right one. *)
Lemma ilog2_spec (q : Q) :
  0 < q -> pow2 (ilog2 q) <= q /\ q < pow2 (ilog2 q + 1).
Proof.
  intros Hq. destruct q as [n d]. unfold ilog2. cbn [Qnum Qden].
  assert (Hn : (0 < n)%Z) by (unfold Qlt in Hq; cbn in Hq; lia).
  set (a := Z.log2 n). set (b := Z.log2 (Z.pos d)).
  destruct (Z.log2_spec n Hn) as [Ha1 Ha2]. fold a in Ha1, Ha2.
  destruct (Z.log2_spec (Z.pos d) eq_refl) as [Hb1 Hb2]. fold b in Hb1, Hb2.
  assert (Ha0 : (0 <= a)%Z) by apply Z.log2_nonneg.
  assert (Hb0 : (0 <= b)%Z) by apply Z.log2_nonneg.
  assert (Ea : pow2 (a - b) * inject_Z (2 ^ b) == inject_Z (2 ^ a)).
  { rewrite <- !pow2_Z by lia. rewrite <- pow2_plus. now replace (a - b + b)%Z with a by ring. }
  assert (Hd : 0 < inject_Z (Z.pos d)) by reflexivity.
  assert (HB : 0 < inject_Z (2 ^ b)).
  { change 0 with (inject_Z 0). rewrite <- Zlt_Qlt. lia. }
  assert (Hq' : n # d == inject_Z n / inject_Z (Z.pos d)) by apply Qmake_Qdiv.
  (* upper bound: q < pow2 (a - b + 1) *)
  assert (Hup : n # d < pow2 (a - b + 1)).
  { rewrite Hq'. apply Qlt_shift_div_r; [exact Hd |].
    rewrite pow2_succ.
    apply Qmult_lt_r with (z := inject_Z (2 ^ b)); [exact HB |].
    setoid_replace (2 * pow2 (a - b) * inject_Z (Z.pos d) * inject_Z (2 ^ b))
      with (2 * inject_Z (2 ^ a) * inject_Z (Z.pos d))
      by (rewrite <- Ea; ring).
    rewrite <- !inject_Z_mult. change 2 with (inject_Z 2). rewrite <- !inject_Z_mult.
    rewrite <- Zlt_Qlt. replace (Z.succ a) with (a + 1)%Z in Ha2 by lia.
    rewrite Z.pow_add_r in Ha2 by lia. change (2 ^ 1)%Z with 2%Z in Ha2. nia. }
  assert (Hlow : pow2 (a - b - 1) <= n # d).
  { rewrite Hq'. apply Qle_shift_div_l; [exact Hd |].
    rewrite pow2_pred.
    apply Qmult_le_r with (z := 2 * inject_Z (2 ^ b)).
    { apply Qmult_lt_0_compat; [reflexivity | exact HB]. }
    setoid_replace (pow2 (a - b) / 2 * inject_Z (Z.pos d) * (2 * inject_Z (2 ^ b)))
      with (inject_Z (2 ^ a) * inject_Z (Z.pos d))
      by (rewrite <- Ea; field).
    change 2 with (inject_Z 2). rewrite <- !inject_Z_mult.
    rewrite <- Zle_Qle. replace (Z.succ b) with (b + 1)%Z in Hb2 by lia.
    rewrite Z.pow_add_r in Hb2 by lia. change (2 ^ 1)%Z with 2%Z in Hb2. nia. }
  destruct (Qle_bool (pow2 (a - b)) (n # d)) eqn:E.
  - apply Qle_bool_iff in E. split; assumption.
  - split; [exact Hlow |].
    replace (a - b - 1 + 1)%Z with (a - b)%Z by ring.
    apply Qnot_le_lt. intros H. apply Qle_bool_iff in H. congruence.
Qed.

Lemma ilog2_unique (q : Q) (e : Z) :
  pow2 e <= q -> q < pow2 (e + 1) -> ilog2 q = e.
Proof.
  intros H1 H2.
  assert (Hq : 0 < q) by (eapply Qlt_le_trans; [apply pow2_pos | exact H1]).
  destruct (ilog2_spec q Hq) as [S1 S2].
  assert (L1 : (e < ilog2 q + 1)%Z).
  { apply pow2_lt_inv. eapply Qle_lt_trans; eassumption. }
  assert (L2 : (ilog2 q < e + 1)%Z).
  { apply pow2_lt_inv. eapply Qle_lt_trans; eassumption. }
  lia.
Qed.

Lemma ilog2_comp (q q' : Q) : 0 < q -> q == q' -> ilog2 q = ilog2 q'.
Proof.
  intros Hq E. symmetry. destruct (ilog2_spec q Hq) as [S1 S2].
  apply ilog2_unique; rewrite <- E; assumption.
Qed.

Lemma ilog2_mono (x y : Q) : 0 < x -> x <= y -> (ilog2 x <= ilog2 y)%Z.
Proof.
  intros Hx Hxy.
  assert (Hy : 0 < y) by (eapply Qlt_le_trans; eassumption).
  destruct (ilog2_spec x Hx) as [X1 X2]. destruct (ilog2_spec y Hy) as [Y1 Y2].
  assert (L : (ilog2 x < ilog2 y + 1)%Z).
  { apply pow2_lt_inv. eapply Qle_lt_trans; [exact X1 |].
    eapply Qle_lt_trans; eassumption. }
  lia.
Qed.


(** *** The nearest integer *)

Lemma nearest_even_comp (x y : Q) : x == y -> nearest_even x = nearest_even y.
Proof.
  intros E. unfold nearest_even. rewrite (Qfloor_comp _ _ E).
  assert (C : (x - inject_Z (Qfloor y) ?= 1 # 2) = (y - inject_Z (Qfloor y) ?= 1 # 2))
    by (now rewrite E).
  now rewrite C.
Qed.

Lemma nearest_even_close (x : Q) :
  Qabs (inject_Z (nearest_even x) - x) <= 1 # 2.
Proof.
  unfold nearest_even.
  pose proof (Qfloor_le x) as L. pose proof (Qlt_floor x) as U.
  rewrite inject_Z_plus in U. change (inject_Z 1) with 1 in U.
  apply Qabs_Qle_condition.
  destruct (Qcompare_spec (x - inject_Z (Qfloor x)) (1 # 2)) as [E | E | E].
  - destruct (Z.even (Qfloor x)); rewrite ?inject_Z_plus;
      change (inject_Z 1) with 1; split; lra.
  - split; lra.
  - rewrite inject_Z_plus. change (inject_Z 1) with 1. split; lra.
Qed.

Lemma Z_of_Qlt (a b : Z) : inject_Z a < inject_Z b + 1 -> (a <= b)%Z.
Proof.
  intros H. change 1 with (inject_Z 1) in H. rewrite <- inject_Z_plus in H.
  rewrite <- Zlt_Qlt in H. lia.
Qed.

Lemma nearest_even_near (x : Q) (m : Z) :
  Qabs (x - inject_Z m) < 1 # 2 -> nearest_even x = m.
Proof.
  intros H. apply Qabs_Qlt_condition in H as [H1 H2].
  pose proof (nearest_even_close x) as C.
  apply Qabs_Qle_condition in C as [C1 C2].
  apply Z.le_antisymm; apply Z_of_Qlt; lra.
Qed.

Lemma nearest_even_Z (m : Z) : nearest_even (inject_Z m) = m.
Proof.
  apply nearest_even_near.
  setoid_replace (inject_Z m - inject_Z m) with 0 by ring. reflexivity.
Qed.

Lemma nearest_even_mono (x y : Q) :
  x <= y -> (nearest_even x <= nearest_even y)%Z.
Proof.
  intros H.
  destruct (Z.le_gt_cases (nearest_even x) (nearest_even y)) as [L | G]; [exact L |].
  exfalso.
  pose proof (nearest_even_close x) as Cx. pose proof (nearest_even_close y) as Cy.
  apply Qabs_Qle_condition in Cx as [Cx1 Cx2].
  apply Qabs_Qle_condition in Cy as [Cy1 Cy2].
  assert (G' : inject_Z (nearest_even y) + 1 <= inject_Z (nearest_even x)).
  { change 1 with (inject_Z 1). rewrite <- inject_Z_plus, <- Zle_Qle. lia. }
  assert (E : x == y) by lra.
  rewrite (nearest_even_comp x y E) in G. lia.
Qed.

Lemma nearest_even_ge (x : Q) (n : Z) :
  inject_Z n <= x -> (n <= nearest_even x)%Z.
Proof.
  intros H. rewrite <- (nearest_even_Z n). now apply nearest_even_mono.
Qed.

Lemma nearest_even_le (x : Q) (n : Z) :
  x <= inject_Z n -> (nearest_even x <= n)%Z.
Proof.
  intros H. rewrite <- (nearest_even_Z n). now apply nearest_even_mono.
Qed.

(** *** Rounding to binary64 *)

Lemma ulp_pos (a : Q) : 0 < ulp a.
Proof. apply pow2_pos. Qed.

Lemma Qabs_of_pos (x : Q) : 0 < x -> Qabs x = x.
Proof.
  destruct x as [n d]. unfold Qlt. cbn. intros H.
  rewrite Z.abs_eq by lia. reflexivity.
Qed.

Lemma Qabs_of_opp (x : Q) : Qabs (- x) = Qabs x.
Proof. destruct x as [n d]. cbn. now rewrite Z.abs_opp. Qed.

Lemma is_zero_false (x : Q) : ~ x == 0 -> is_zero x = false.
Proof.
  intros H. unfold is_zero. destruct (Qeq_bool x 0) eqn:E; [| reflexivity].
  apply Qeq_bool_iff in E. contradiction.
Qed.

Lemma Qle_bool_false (x y : Q) : y < x -> Qle_bool x y = false.
Proof.
  intros H. destruct (Qle_bool x y) eqn:E; [| reflexivity].
  apply Qle_bool_iff in E. lra.
Qed.

Lemma Qle_bool_true (x y : Q) : x <= y -> Qle_bool x y = true.
Proof. intros H. now apply Qle_bool_iff. Qed.

Lemma round64_pos (x : Q) :
  0 < x ->
  round64 x
  = if Qle_bool (pow2 1024) (rounded x) then PosInf else Fin (Qred (rounded x)).
Proof.
  intros H. unfold round64, rounded, ulp.
  rewrite is_zero_false by lra. rewrite (Qabs_of_pos x H).
  rewrite (Qle_bool_true 0 x) by lra. reflexivity.
Qed.

Lemma round64_neg (x : Q) :
  0 < x ->
  round64 (- x)
  = if Qle_bool (pow2 1024) (rounded x) then NegInf
    else Fin (Qred (- rounded x)).
Proof.
  intros H. unfold round64, rounded, ulp.
  rewrite is_zero_false by lra. rewrite Qabs_of_opp, (Qabs_of_pos x H).
  rewrite (Qle_bool_false 0 (- x)) by lra. reflexivity.
Qed.

Lemma round64_zero (x : Q) : x == 0 -> round64 x = zero.
Proof.
  intros H. unfold round64, is_zero.
  now rewrite (proj2 (Qeq_bool_iff x 0) H).
Qed.

Lemma ulp_comp (x y : Q) : 0 < x -> x == y -> ulp x = ulp y.
Proof. intros H E. unfold ulp. now rewrite (ilog2_comp x y H E). Qed.

Lemma rounded_comp (x y : Q) : 0 < x -> x == y -> rounded x == rounded y.
Proof.
  intros H E. unfold rounded. rewrite (ulp_comp x y H E).
  rewrite (nearest_even_comp (x / ulp y) (y / ulp y)); [reflexivity |].
  now rewrite E.
Qed.

Lemma Qle_bool_comp_r (a x y : Q) : x == y -> Qle_bool a x = Qle_bool a y.
Proof.
  intros E. destruct (Qle_bool a y) eqn:Hy.
  - apply Qle_bool_iff. apply Qle_bool_iff in Hy. now rewrite E.
  - destruct (Qle_bool a x) eqn:Hx; [| reflexivity].
    apply Qle_bool_iff in Hx. rewrite E in Hx. apply Qle_bool_iff in Hx. congruence.
Qed.

(** Rounding sees the value of a rational, not its fraction. *)
Lemma round64_comp (x y : Q) : x == y -> round64 x = round64 y.
Proof.
  intros E.
  destruct (Qlt_le_dec 0 x) as [P | N].
  - assert (P' : 0 < y) by now rewrite <- E.
    rewrite (round64_pos x P), (round64_pos y P').
    pose proof (rounded_comp x y P E) as R.
    rewrite (Qle_bool_comp_r _ _ _ R), (Qred_complete _ _ R). reflexivity.
  - destruct (Qeq_dec x 0) as [Z | NZ].
    + rewrite (round64_zero x Z). rewrite E in Z. now rewrite (round64_zero y Z).
    + assert (P : 0 < - x) by lra.
      assert (P' : 0 < - y) by now rewrite <- E.
      assert (Ex : x = - - x) by (destruct x; unfold Qopp; simpl; f_equal; lia).
      assert (Ey : y = - - y) by (destruct y; unfold Qopp; simpl; f_equal; lia).
      rewrite Ex, Ey, (round64_neg _ P), (round64_neg _ P').
      assert (En : - x == - y) by now rewrite E.
      pose proof (rounded_comp _ _ P En) as R.
      rewrite (Qle_bool_comp_r _ _ _ R).
      assert (R' : - rounded (- x) == - rounded (- y)) by now rewrite R.
      rewrite (Qred_complete _ _ R'). reflexivity.
Qed.


Lemma pow2_minus (a b : Z) : pow2 (a - b) == pow2 a / pow2 b.
Proof.
  assert (H : pow2 a == pow2 (a - b) * pow2 b).
  { rewrite <- pow2_plus. now replace (a - b + b)%Z with a by ring. }
  rewrite H. field. pose proof (pow2_pos b). lra.
Qed.

Lemma ulp_exponent (a : Q) :
  exists e, (-1022 <= e)%Z /\ (ilog2 a <= e)%Z /\ ulp a = pow2 (e - 52)
            /\ (e = ilog2 a \/ e = (-1022)%Z).
Proof.
  exists (Z.max (ilog2 a) (-1022)). unfold ulp. repeat split; lia.
Qed.

(** A number with at most 53 significant bits and an exponent in
    range is its own rounding. *)
Lemma rounded_dyadic (x : Q) (j s : Z) :
  x == inject_Z j * pow2 s ->
  (0 < j < 2 ^ 53)%Z -> (-1074 <= s)%Z ->
  rounded x == x.
Proof.
  intros E Hj Hs.
  assert (Hx : 0 < x).
  { rewrite E. apply Qmult_lt_0_compat; [| apply pow2_pos].
    change 0 with (inject_Z 0). rewrite <- Zlt_Qlt. lia. }
  destruct (ilog2_spec x Hx) as [L _].
  assert (U : x < pow2 (s + 53)).
  { rewrite E, Z.add_comm, pow2_plus.
    apply Qmult_lt_r; [apply pow2_pos |].
    rewrite (pow2_Z 53) by lia. rewrite <- Zlt_Qlt. lia. }
  assert (Le : (ilog2 x < s + 53)%Z).
  { apply pow2_lt_inv. eapply Qle_lt_trans; eassumption. }
  destruct (ulp_exponent x) as (e & He1 & He2 & Hu & Hc).
  assert (Ht : (0 <= s - (e - 52))%Z) by lia.
  unfold rounded. rewrite Hu.
  assert (D : x / pow2 (e - 52) == inject_Z (j * 2 ^ (s - (e - 52)))).
  { rewrite E, inject_Z_mult, <- (pow2_Z _ Ht), (pow2_minus s (e - 52)).

    field.
    pose proof (pow2_pos (e - 52)). lra. }
  rewrite (nearest_even_comp _ _ D), nearest_even_Z.
  rewrite <- D. field. pose proof (pow2_pos (e - 52)). lra.
Qed.

Lemma round64_exact_pos (x : Q) (j s : Z) :
  x == inject_Z j * pow2 s ->
  (0 < j < 2 ^ 53)%Z -> (-1074 <= s)%Z -> (s + 53 <= 1024)%Z ->
  round64 x = Fin (Qred x).
Proof.
  intros E Hj Hs Hs'.
  assert (Hx : 0 < x).
  { rewrite E. apply Qmult_lt_0_compat; [| apply pow2_pos].
    change 0 with (inject_Z 0). rewrite <- Zlt_Qlt. lia. }
  pose proof (rounded_dyadic x j s E Hj Hs) as R.
  rewrite (round64_pos x Hx).
  assert (U : x < pow2 1024).
  { eapply Qlt_le_trans; [| apply (pow2_le (s + 53) 1024 Hs')].
    rewrite E, Z.add_comm, pow2_plus.
    apply Qmult_lt_r; [apply pow2_pos |].
    rewrite (pow2_Z 53) by lia. rewrite <- Zlt_Qlt. lia. }
  rewrite Qle_bool_false by (rewrite R; exact U).
  now rewrite (Qred_complete _ _ R).
Qed.

Lemma Qopp_opp_eq (x : Q) : x = - - x.
Proof. destruct x; unfold Qopp; simpl; f_equal; lia. Qed.

Lemma round64_exact (x : Q) (j s : Z) :
  x == inject_Z j * pow2 s ->
  (Z.abs j < 2 ^ 53)%Z -> (-1074 <= s)%Z -> (s + 53 <= 1024)%Z ->
  round64 x = Fin (Qred x).
Proof.
  intros E Hj Hs Hs'.
  destruct (Z.lt_trichotomy j 0) as [N | [Z | P]].
  - assert (En : - x == inject_Z (- j) * pow2 s).
    { rewrite E, inject_Z_opp. ring. }
    assert (Hx : 0 < - x).
    { rewrite En. apply Qmult_lt_0_compat; [| apply pow2_pos].
      change 0 with (inject_Z 0). rewrite <- Zlt_Qlt. lia. }
    pose proof (rounded_dyadic (- x) (- j) s En ltac:(lia) Hs) as R.
    replace (round64 x) with (round64 (- - x)) by (now rewrite <- Qopp_opp_eq).
    rewrite (round64_neg _ Hx).
    assert (U : - x < pow2 1024).
    { eapply Qlt_le_trans; [| apply (pow2_le (s + 53) 1024 Hs')].
      rewrite En, Z.add_comm, pow2_plus.
      apply Qmult_lt_r; [apply pow2_pos |].
      rewrite (pow2_Z 53) by lia. rewrite <- Zlt_Qlt. lia. }
    rewrite Qle_bool_false by (rewrite R; exact U).
    f_equal. apply Qred_complete. rewrite R. ring.
  - subst j. assert (Z0 : x == 0) by (rewrite E; ring).
    rewrite (round64_zero x Z0). unfold zero, of_Z. f_equal.
    now rewrite (Qred_complete _ _ Z0).
  - apply (round64_exact_pos x j s); auto. lia.
Qed.

Lemma Qred_inject_Z (z : Z) : Qred (inject_Z z) = inject_Z z.
Proof.
  unfold Qred, inject_Z. simpl.
  pose proof (Z.ggcd_correct_divisors z 1) as H.
  pose proof (Z.ggcd_gcd z 1) as G.
  destruct (Z.ggcd z 1) as [g [a b]]. simpl in *.
  rewrite Z.gcd_1_r in G. subst g. destruct H as [Ha Hb].
  rewrite Z.mul_1_l in Ha, Hb. subst. reflexivity.
Qed.

(** A whole number below [2^53] in magnitude is a binary64 number. *)
Lemma round64_Z (q : Q) (z : Z) :
  q == inject_Z z -> (Z.abs z < 2 ^ 53)%Z -> round64 q = of_Z z.
Proof.
  intros E H.
  rewrite (round64_exact q z 0); try lia.
  - unfold of_Z. f_equal. rewrite (Qred_complete _ _ E). apply Qred_inject_Z.
  - rewrite E. change (pow2 0) with 1. ring.
Qed.

(** *** Order *)

Lemma rounded_mono (x y : Q) : 0 < x -> x <= y -> rounded x <= rounded y.
Proof.
  intros Hx Hxy.
  assert (Hy : 0 < y) by lra.
  pose proof (ilog2_mono x y Hx Hxy) as Hl.
  destruct (ilog2_spec x Hx) as [_ Ux]. destruct (ilog2_spec y Hy) as [Ly _].
  destruct (ulp_exponent x) as (ex & Hx1 & Hx2 & Eux & Hcx).
  destruct (ulp_exponent y) as (ey & Hy1 & Hy2 & Euy & Hcy).
  unfold rounded. rewrite Eux, Euy.
  pose proof (pow2_pos (ex - 52)) as Px. pose proof (pow2_pos (ey - 52)) as Py.
  destruct (Z.eq_dec ex ey) as [<- | Ne].
  - apply Qmult_le_compat_r; [| lra].
    rewrite <- Zle_Qle. apply nearest_even_mono.
    apply Qmult_le_compat_r; [exact Hxy |].
    apply Qlt_le_weak, Qinv_lt_0_compat, Px.
  - assert (Lt : (ex + 1 <= ey)%Z) by lia.
    assert (Ey : ey = ilog2 y) by lia. subst ey.
    apply Qle_trans with (pow2 (ex + 1)).
    + assert (H1 : (nearest_even (x / pow2 (ex - 52)) <= 2 ^ 53)%Z).
      { apply nearest_even_le. apply Qle_shift_div_r; [exact Px |].
        rewrite <- (pow2_Z 53) by lia. rewrite <- pow2_plus.
        replace (53 + (ex - 52))%Z with (ex + 1)%Z by ring.
        apply Qlt_le_weak. eapply Qlt_le_trans; [exact Ux |].
        apply pow2_le. lia. }
      rewrite Zle_Qle in H1. rewrite <- (pow2_Z 53) in H1 by lia.
      replace (ex + 1)%Z with (53 + (ex - 52))%Z by ring. rewrite pow2_plus.
      apply Qmult_le_compat_r; [exact H1 | lra].
    + apply Qle_trans with (pow2 (ilog2 y)); [apply pow2_le; lia |].
      assert (H2 : (2 ^ 52 <= nearest_even (y / pow2 (ilog2 y - 52)))%Z).
      { apply nearest_even_ge. apply Qle_shift_div_l; [exact Py |].
        rewrite <- (pow2_Z 52) by lia. rewrite <- pow2_plus.
        replace (52 + (ilog2 y - 52))%Z with (ilog2 y) by ring. exact Ly. }
      rewrite Zle_Qle in H2. rewrite <- (pow2_Z 52) in H2 by lia.
      replace (ilog2 y) with (52 + (ilog2 y - 52))%Z at 1 by ring.
      rewrite pow2_plus.
      apply Qmult_le_compat_r; [exact H2 | lra].
Qed.

Lemma rounded_nonneg (x : Q) : 0 < x -> 0 <= rounded x.
Proof.
  intros Hx. unfold rounded. apply Qmult_le_0_compat.
  - change 0 with (inject_Z 0). rewrite <- Zle_Qle. apply nearest_even_ge.
    apply Qlt_le_weak. apply Qlt_shift_div_l; [apply ulp_pos |].
    change (inject_Z 0) with 0. lra.
  - apply Qlt_le_weak, ulp_pos.
Qed.

(** Rounding does not cross a binary64 number. *)
Lemma round64_at_least (c x : Q) (j s : Z) :
  c == inject_Z j * pow2 s ->
  (0 < j < 2 ^ 53)%Z -> (-1074 <= s)%Z ->
  c <= x -> at_least c (round64 x).
Proof.
  intros E Hj Hs Hcx.
  assert (Hc : 0 < c).
  { rewrite E. apply Qmult_lt_0_compat; [| apply pow2_pos].
    change 0 with (inject_Z 0). rewrite <- Zlt_Qlt. lia. }
  assert (Hx : 0 < x) by lra.
  pose proof (rounded_dyadic c j s E Hj Hs) as R.
  pose proof (rounded_mono c x Hc Hcx) as M.
  rewrite (round64_pos x Hx).
  destruct (Qle_bool (pow2 1024) (rounded x)); unfold at_least; [exact I |].
  rewrite Qred_correct. lra.
Qed.

Lemma round64_at_least_0 (x : Q) : 0 <= x -> at_least 0 (round64 x).
Proof.
  intros H. destruct (Qeq_dec x 0) as [Z | NZ].
  - rewrite (round64_zero x Z). unfold at_least, at_most, zero, of_Z. apply Qle_refl.
  - assert (Hx : 0 < x) by lra. rewrite (round64_pos x Hx).
    destruct (Qle_bool (pow2 1024) (rounded x)); unfold at_least; [exact I |].
    rewrite Qred_correct. now apply rounded_nonneg.
Qed.

Lemma round64_at_most_0 (x : Q) : x <= 0 -> at_most 0 (round64 x).
Proof.
  intros H. destruct (Qeq_dec x 0) as [Z | NZ].
  - rewrite (round64_zero x Z). unfold at_least, at_most, zero, of_Z. apply Qle_refl.
  - assert (Hx : 0 < - x) by lra.
    rewrite (Qopp_opp_eq x), (round64_neg _ Hx).
    destruct (Qle_bool (pow2 1024) (rounded (- x))); unfold at_most; [exact I |].
    rewrite Qred_correct. pose proof (rounded_nonneg _ Hx). lra.
Qed.


(** *** The error of a rounding *)

Lemma rounded_close (x : Q) : 0 < x -> Qabs (rounded x - x) <= ulp x * (1 # 2).
Proof.
  intros Hx. unfold rounded.
  pose proof (ulp_pos x) as Pu.
  pose proof (nearest_even_close (x / ulp x)) as C.
  apply Qabs_Qle_condition in C as [C1 C2].
  set (n := inject_Z (nearest_even (x / ulp x))) in *.
  assert (E : x == x / ulp x * ulp x) by (field; lra).
  set (t := x / ulp x) in *.
  apply Qabs_Qle_condition. split.
  - assert (H : (t - (1 # 2)) * ulp x <= n * ulp x)
      by (apply Qmult_le_compat_r; lra).
    lra.
  - assert (H : n * ulp x <= (t + (1 # 2)) * ulp x)
      by (apply Qmult_le_compat_r; lra).
    lra.
Qed.

Lemma ulp_normal (x : Q) : pow2 (-1022) <= x -> ulp x = pow2 (ilog2 x - 52).
Proof.
  intros H. unfold ulp.
  assert (Hx : 0 < x) by (pose proof (pow2_pos (-1022)); lra).
  destruct (ilog2_spec x Hx) as [_ U].
  assert (L : (-1022 < ilog2 x + 1)%Z).
  { apply pow2_lt_inv. eapply Qle_lt_trans; eassumption. }
  now rewrite Z.max_l by lia.
Qed.

Lemma half_ulp_normal (x : Q) :
  pow2 (-1022) <= x -> ulp x * (1 # 2) <= x * (1 # 2 ^ 53).
Proof.
  intros H. rewrite (ulp_normal x H).
  assert (Hx : 0 < x) by (pose proof (pow2_pos (-1022)); lra).
  destruct (ilog2_spec x Hx) as [L _].
  replace (ilog2 x - 52)%Z with (ilog2 x + (-52))%Z by ring.
  rewrite pow2_plus.
  setoid_replace (pow2 (-52)) with (2 * (1 # 2 ^ 53)) by reflexivity.
  assert (Hm : pow2 (ilog2 x) * (1 # 2 ^ 53) <= x * (1 # 2 ^ 53))
    by (apply Qmult_le_compat_r; [exact L | discriminate]).
  lra.
Qed.

Lemma rounded_error (x B : Q) :
  pow2 (-1022) <= x -> x <= B -> B <= pow2 1023 ->
  rounded x < pow2 1024 /\ Qabs (rounded x - x) <= B * (1 # 2 ^ 53).
Proof.
  intros Hn HB HB'.
  assert (Hx : 0 < x) by (pose proof (pow2_pos (-1022)); lra).
  pose proof (rounded_close x Hx) as C.
  pose proof (half_ulp_normal x Hn) as U.
  assert (Hm : x * (1 # 2 ^ 53) <= B * (1 # 2 ^ 53))
    by (apply Qmult_le_compat_r; [exact HB | discriminate]).
  assert (C' : Qabs (rounded x - x) <= B * (1 # 2 ^ 53)) by lra.
  split; [| exact C'].
  apply Qabs_Qle_condition in C' as [_ C2].
  assert (E : pow2 1024 == 2 * pow2 1023) by reflexivity.
  pose proof (pow2_pos 1023).
  assert (B * (1 # 2 ^ 53) <= B * (1 # 2))
    by (apply Qmult_le_l; [lra | discriminate]).
  lra.
Qed.

(** The result of an operation on numbers of the normal range, in
    magnitude at most [B], is a finite number within [B * 2^-53] of
    the exact result. *)
Lemma round64_error (x B : Q) :
  normal x -> Qabs x <= B -> B <= pow2 1023 ->
  exists y, round64 x = Fin y /\ Qabs (y - x) <= B * (1 # 2 ^ 53).
Proof.
  intros [Z | Hn] HB HB'.
  - rewrite (round64_zero x Z). exists (inject_Z 0). split; [reflexivity |].
    rewrite Z. setoid_replace (inject_Z 0 - 0) with 0 by ring.
    assert (0 <= B) by (pose proof (Qabs_nonneg x); lra).
    change (Qabs 0) with 0. apply Qmult_le_0_compat; [assumption | discriminate].
  - destruct (Qlt_le_dec 0 x) as [P | N].
    + rewrite (Qabs_pos x) in Hn, HB by lra.
      destruct (rounded_error x B Hn HB HB') as [Hov C].
      rewrite (round64_pos x P), (Qle_bool_false _ _ Hov).
      eexists. split; [reflexivity |]. now rewrite Qred_correct.
    + rewrite (Qabs_neg x N) in Hn, HB.
      destruct (rounded_error (- x) B Hn HB HB') as [Hov C].
      assert (Hx : 0 < - x) by (pose proof (pow2_pos (-1022)); lra).
      replace (round64 x) with (round64 (- - x)) by (now rewrite <- Qopp_opp_eq).
      rewrite (round64_neg _ Hx), (Qle_bool_false _ _ Hov).
      eexists. split; [reflexivity |]. rewrite Qred_correct.
      setoid_replace (- rounded (- x) - x) with (- (rounded (- x) - - x)) by ring.
      now rewrite Qabs_opp.
Qed.

Lemma half_ulp_bound (x : Q) :
  0 < x -> ulp x * (1 # 2) <= x * (1 # 2 ^ 53) + pow2 (-1075).
Proof.
  intros Hx. destruct (ilog2_spec x Hx) as [L _].
  destruct (ulp_exponent x) as (e & _ & _ & -> & [-> | ->]).
  - replace (ilog2 x - 52)%Z with (ilog2 x + (-52))%Z by ring.
    rewrite pow2_plus.
    setoid_replace (pow2 (-52)) with (2 * (1 # 2 ^ 53)) by reflexivity.
    assert (Hm : pow2 (ilog2 x) * (1 # 2 ^ 53) <= x * (1 # 2 ^ 53))
      by (apply Qmult_le_compat_r; [exact L | discriminate]).
    pose proof (pow2_pos (-1075)). lra.
  - assert (E : pow2 (-1022 - 52) * (1 # 2) == pow2 (-1075)) by reflexivity.
    assert (0 <= x * (1 # 2 ^ 53))
      by (apply Qmult_le_0_compat; [lra | discriminate]).
    lra.
Qed.

(** The same without a condition on the range: the error is at most
    [B * 2^-53 + 2^-100]. *)
Lemma round64_error_any (x B : Q) :
  Qabs x <= B -> B <= pow2 1000 ->
  exists y,
    round64 x = Fin y /\ Qabs (y - x) <= B * (1 # 2 ^ 53) + (1 # 2 ^ 100).
Proof.
  intros HB HB'.
  assert (T : pow2 (-1075) <= 1 # 2 ^ 100).
  { change (1 # 2 ^ 100) with (pow2 (-100)). apply pow2_le. lia. }
  assert (Hpos : forall a, 0 < a -> a <= B ->
                 rounded a < pow2 1024
                 /\ Qabs (rounded a - a) <= B * (1 # 2 ^ 53) + (1 # 2 ^ 100)).
  { intros a Ha HaB.
    pose proof (rounded_close a Ha) as C.
    pose proof (half_ulp_bound a Ha) as U.
    assert (Hm : a * (1 # 2 ^ 53) <= B * (1 # 2 ^ 53))
      by (apply Qmult_le_compat_r; [exact HaB | discriminate]).
    assert (C' : Qabs (rounded a - a) <= B * (1 # 2 ^ 53) + (1 # 2 ^ 100)) by lra.
    split; [| exact C'].
    apply Qabs_Qle_condition in C' as [_ C2].
    assert (E : pow2 1024 == 16777216 * pow2 1000) by reflexivity.
    pose proof (pow2_pos 1000).
    assert (B * (1 # 2 ^ 53) <= B * (1 # 2))
      by (apply Qmult_le_l; [lra | discriminate]).
    assert ((1 # 2 ^ 100) <= 1) by discriminate.
    assert (1 <= pow2 1000) by (change 1 with (pow2 0); apply pow2_le; lia).
    lra. }
  destruct (Qeq_dec x 0) as [Z | NZ].
  - rewrite (round64_zero x Z). exists (inject_Z 0). split; [reflexivity |].
    rewrite Z. setoid_replace (inject_Z 0 - 0) with 0 by ring.
    assert (0 <= B) by (pose proof (Qabs_nonneg x); lra).
    change (Qabs 0) with 0.
    assert (0 <= B * (1 # 2 ^ 53))
      by (apply Qmult_le_0_compat; [assumption | discriminate]).
    assert (0 <= 1 # 2 ^ 100) by discriminate.
    lra.
  - destruct (Qlt_le_dec 0 x) as [P | N].
    + rewrite (Qabs_pos x) in HB by lra.
      destruct (Hpos x P HB) as [Hov C].
      rewrite (round64_pos x P), (Qle_bool_false _ _ Hov).
      eexists. split; [reflexivity |]. now rewrite Qred_correct.
    + rewrite (Qabs_neg x N) in HB.
      assert (Hx : 0 < - x) by lra.
      destruct (Hpos (- x) Hx HB) as [Hov C].
      replace (round64 x) with (round64 (- - x)) by (now rewrite <- Qopp_opp_eq).
      rewrite (round64_neg _ Hx), (Qle_bool_false _ _ Hov).
      eexists. split; [reflexivity |]. rewrite Qred_correct.
      setoid_replace (- rounded (- x) - x) with (- (rounded (- x) - - x)) by ring.
      now rewrite Qabs_opp.
Qed.

(** A rational nearer than half a spacing to a binary64 number that
    is not a power of two rounds to it. *)
Lemma round64_near_pos (x p : Q) (m e : Z) :
  p == inject_Z m * pow2 (e - 52) ->
  (2 ^ 52 < m < 2 ^ 53)%Z -> (-1022 <= e <= 1023)%Z ->
  Qabs (x - p) < pow2 (e - 53) ->
  round64 x = Fin (Qred p).
Proof.
  intros E Hm He Hc.
  apply Qabs_Qlt_condition in Hc as [C1 C2].
  pose proof (pow2_pos (e - 52)) as Pu.
  assert (Eh : pow2 (e - 53) == pow2 (e - 52) * (1 # 2)).
  { replace (e - 53)%Z with (e - 52 - 1)%Z by ring. apply pow2_half. }
  assert (Ee : pow2 e == inject_Z (2 ^ 52) * pow2 (e - 52)).
  { rewrite <- (pow2_Z 52) by lia. rewrite <- pow2_plus.
    now replace (52 + (e - 52))%Z with e by ring. }
  assert (Ee1 : pow2 (e + 1) == inject_Z (2 ^ 53) * pow2 (e - 52)).
  { rewrite <- (pow2_Z 53) by lia. rewrite <- pow2_plus.
    now replace (53 + (e - 52))%Z with (e + 1)%Z by ring. }
  assert (L : inject_Z (2 ^ 52 + 1) * pow2 (e - 52) <= p).
  { rewrite E. apply Qmult_le_compat_r; [| lra]. rewrite <- Zle_Qle. lia. }
  assert (U : p <= inject_Z (2 ^ 53 - 1) * pow2 (e - 52)).
  { rewrite E. apply Qmult_le_compat_r; [| lra]. rewrite <- Zle_Qle. lia. }
  change (inject_Z (2 ^ 52 + 1)) with (4503599627370497 # 1) in L.
  change (inject_Z (2 ^ 53 - 1)) with (9007199254740991 # 1) in U.
  change (inject_Z (2 ^ 52)) with (4503599627370496 # 1) in Ee.
  change (inject_Z (2 ^ 53)) with (9007199254740992 # 1) in Ee1.
  assert (X1 : pow2 e <= x) by lra.
  assert (X2 : x < pow2 (e + 1)) by lra.
  assert (Hx : 0 < x) by (pose proof (pow2_pos e); lra).
  pose proof (ilog2_unique x e X1 X2) as Hl.
  assert (Hu : ulp x = pow2 (e - 52)).
  { unfold ulp. rewrite Hl. now rewrite Z.max_l by lia. }
  assert (Hn : nearest_even (x / ulp x) = m).
  { apply nearest_even_near. rewrite Hu.
    setoid_replace (x / pow2 (e - 52) - inject_Z m)
      with ((x - p) / pow2 (e - 52)) by (rewrite E; field; lra).
    apply Qabs_Qlt_condition. split.
    - apply Qlt_shift_div_l; [exact Pu |]. lra.
    - apply Qlt_shift_div_r; [exact Pu |]. lra. }
  assert (R : rounded x == p).
  { unfold rounded. rewrite Hn, Hu. now rewrite E. }
  rewrite (round64_pos x Hx).
  assert (Hov : rounded x < pow2 1024).
  { rewrite R. eapply Qlt_le_trans with (pow2 (e + 1)); [lra |].
    apply pow2_le. lia. }
  rewrite (Qle_bool_false _ _ Hov). now rewrite (Qred_complete _ _ R).
Qed.

Lemma round64_near (x p : Q) (m e : Z) :
  p == inject_Z m * pow2 (e - 52) ->
  (2 ^ 52 < Z.abs m < 2 ^ 53)%Z -> (-1022 <= e <= 1023)%Z ->
  Qabs (x - p) < pow2 (e - 53) ->
  round64 x = Fin (Qred p).
Proof.
  intros E Hm He Hc.
  destruct (Z.lt_ge_cases m 0) as [N | P].
  - assert (En : - p == inject_Z (- m) * pow2 (e - 52)).
    { rewrite E, inject_Z_opp. ring. }
    assert (Hc' : Qabs (- x - - p) < pow2 (e - 53)).
    { setoid_replace (- x - - p) with (- (x - p)) by ring. now rewrite Qabs_opp. }
    pose proof (round64_near_pos (- x) (- p) (- m) e En ltac:(lia) He Hc') as R.
    assert (Hx : 0 < - x).
    { apply Qabs_Qlt_condition in Hc' as [C1 C2].
      pose proof (pow2_pos (e - 52)) as Pu.
      assert (Eh : pow2 (e - 53) == pow2 (e - 52) * (1 # 2)).
      { replace (e - 53)%Z with (e - 52 - 1)%Z by ring. apply pow2_half. }
      assert (L : inject_Z 1 * pow2 (e - 52) <= - p).
      { rewrite En. apply Qmult_le_compat_r; [| lra]. rewrite <- Zle_Qle. lia. }
      change (inject_Z 1) with 1 in L. lra. }
    rewrite (round64_pos _ Hx) in R.
    rewrite (Qopp_opp_eq x), (round64_neg _ Hx).
    destruct (Qle_bool (pow2 1024) (rounded (- x))); [discriminate |].
    assert (R' : Qred (rounded (- x)) = Qred (- p)) by congruence.
    f_equal. apply Qred_complete.
    assert (R2 : rounded (- x) == - p).
    { rewrite <- (Qred_correct (rounded (- x))), R'. apply Qred_correct. }
    rewrite R2. ring.
  - apply (round64_near_pos x p m e); auto. lia.
Qed.

End FloatFacts.

(** ** The calorie arithmetic *)

Module ProfileFacts.

Import Profile FloatFacts.

Local Open Scope Q_scope.

Lemma fin_of_Z (q : Q) (z : Z) :
  q == inject_Z z -> (Z.abs z < 2 ^ 53)%Z -> fin q = of_Z z.
Proof. apply round64_Z. Qed.

Lemma round_half_up_Z (z : Z) : round_half_up (inject_Z z) = z.
Proof.
  unfold round_half_up.
  assert (H : inject_Z z + (1 # 2) == (2 * z + 1) # 2).
  { unfold Qeq, Qplus, inject_Z; cbn [Qnum Qden]. lia. }
  rewrite (Qfloor_comp _ _ H). unfold Qfloor.
  change (Z.pos 2) with 2%Z.
  symmetry. apply (Z.div_unique_pos (2 * z + 1) 2 z 1); lia.
Qed.

Lemma round_of_Z (z : Z) : round (of_Z z) = of_Z z.
Proof. unfold round, of_Z. do 2 f_equal. apply round_half_up_Z. Qed.

Lemma add_of_Z (a b : Z) :
  (Z.abs (a + b) < 2 ^ 53)%Z -> add (of_Z a) (of_Z b) = of_Z (a + b).
Proof.
  intros H. unfold add, of_Z. apply fin_of_Z; [| exact H].
  now rewrite inject_Z_plus.
Qed.

Lemma neg_of_Z (a : Z) : neg (of_Z a) = of_Z (- a).
Proof.
  unfold neg, of_Z. f_equal. rewrite <- inject_Z_opp. apply Qred_inject_Z.
Qed.

Lemma sub_of_Z (a b : Z) :
  (Z.abs (a - b) < 2 ^ 53)%Z -> sub (of_Z a) (of_Z b) = of_Z (a - b).
Proof.
  intros H. unfold sub. rewrite neg_of_Z. now apply add_of_Z.
Qed.

Lemma mul_of_Z (a b : Z) :
  (Z.abs (a * b) < 2 ^ 53)%Z -> mul (of_Z a) (of_Z b) = of_Z (a * b).
Proof.
  intros H. unfold mul, of_Z. apply fin_of_Z; [| exact H].
  now rewrite inject_Z_mult.
Qed.

(** *** Quarters

    The values of the Mifflin-St Jeor formula on whole numbers are
    multiples of a quarter, which binary64 holds exactly. *)

Lemma fin_quarters (q : Q) (j : Z) :
  q == j # 4 -> (Z.abs j < 2 ^ 53)%Z -> fin q = quarters j.
Proof.
  intros E H. unfold fin, quarters.
  rewrite (round64_exact q j (-2)); try lia.
  - now rewrite (Qred_complete _ _ E).
  - rewrite E. change (pow2 (-2)) with (1 # 4).
    unfold Qeq, Qmult, inject_Z; cbn [Qnum Qden]. lia.
Qed.

Lemma of_Z_quarters (z : Z) : of_Z z = quarters (4 * z).
Proof.
  unfold of_Z, quarters. f_equal. rewrite <- (Qred_inject_Z z).
  apply Qred_complete. unfold Qeq, inject_Z; cbn [Qnum Qden]. lia.
Qed.

Lemma add_quarters (i j : Z) :
  (Z.abs (i + j) < 2 ^ 53)%Z -> add (quarters i) (quarters j) = quarters (i + j).
Proof.
  intros H. unfold quarters at 1 2. cbn [add]. apply fin_quarters; [| exact H].
  rewrite !Qred_correct. unfold Qeq, Qplus; cbn [Qnum Qden]. lia.
Qed.

Lemma neg_quarters (j : Z) : neg (quarters j) = quarters (- j).
Proof.
  unfold quarters, neg. f_equal. apply Qred_complete. rewrite Qred_correct.
  unfold Qeq, Qopp; cbn [Qnum Qden]. lia.
Qed.

Lemma sub_quarters (i j : Z) :
  (Z.abs (i - j) < 2 ^ 53)%Z -> sub (quarters i) (quarters j) = quarters (i - j).
Proof.
  intros H. unfold sub. rewrite neg_quarters. now apply add_quarters.
Qed.

Lemma six_and_a_quarter : fin (625 # 100) = quarters 25.
Proof. vm_compute. reflexivity. Qed.

Lemma mul_quarters (i z : Z) :
  (Z.abs (i * z) < 2 ^ 53)%Z -> mul (quarters i) (of_Z z) = quarters (i * z).
Proof.
  intros H. unfold quarters at 1, of_Z. cbn [mul]. apply fin_quarters; [| exact H].
  rewrite Qred_correct. unfold Qeq, Qmult, inject_Z; cbn [Qnum Qden]. lia.
Qed.

Lemma mifflin_quarters (w h a : Z) (gender : string) :
  mifflin w h a gender
  == (40 * w + 25 * h - 20 * a
      + (if String.eqb gender "male" then 20 else - 644))%Z # 4.
Proof.
  unfold mifflin.
  destruct (String.eqb gender "male");
    unfold Qeq, Qminus, Qplus, Qmult, Qopp, inject_Z; cbn [Qnum Qden];
    rewrite ?Pos2Z.inj_mul; lia.
Qed.

(** On whole numbers the settings page computes the closed form
    exactly. *)
Lemma bmr_exact (w h a : Z) (gender : string) :
  measure w -> measure h -> measure a ->
  Settings.calculateBMR (of_Z w) (of_Z h) (of_Z a) gender
  = quarters (40 * w + 25 * h - 20 * a
              + (if String.eqb gender "male" then 20 else - 644)).
Proof.
  unfold measure. intros Hw Hh Ha. unfold Settings.calculateBMR.
  rewrite six_and_a_quarter.
  rewrite (mul_of_Z 10 w), (mul_of_Z 5 a), (mul_quarters 25 h) by lia.
  rewrite (of_Z_quarters (10 * w)), (of_Z_quarters (5 * a)),
    (of_Z_quarters 5), (of_Z_quarters 161).
  rewrite (add_quarters (4 * (10 * w)) (25 * h)) by lia.
  rewrite (sub_quarters _ (4 * (5 * a))) by lia.
  destruct (String.eqb gender "male").
  - rewrite add_quarters by lia. f_equal. lia.
  - rewrite sub_quarters by lia. f_equal. lia.
Qed.


(** *** The product with a multiplier

    The multiplier [mu'] of the page is the binary64 number nearest to
    the decimal [a / b] of the claim.  The product of a multiple of a
    quarter with [a / b] is a multiple of [1 / (4 b)]: it is half-way
    between two integers, and the binary64 product is then exactly
    that value, or it is at least [1 / (4 b)] away from half-way, far
    more than the two roundings can move it. *)

Lemma Qfloor_unique (q : Q) (k : Z) :
  inject_Z k <= q -> q < inject_Z k + 1 -> Qfloor q = k.
Proof.
  intros L U.
  pose proof (Qfloor_le q) as L'. pose proof (Qlt_floor q) as U'.
  rewrite inject_Z_plus in U'. change (inject_Z 1) with 1 in U'.
  apply Z.le_antisymm; apply Z_of_Qlt; lra.
Qed.

Lemma Qmult_le_compat_l (x y z : Q) : x <= y -> 0 <= z -> z * x <= z * y.
Proof.
  intros H Hz. rewrite (Qmult_comm z x), (Qmult_comm z y).
  now apply Qmult_le_compat_r.
Qed.

Lemma odd_above_power (t : Z) :
  (3 <= t)%Z -> Z.odd t = true -> (2 ^ Z.log2 t < t)%Z.
Proof.
  intros H O.
  destruct (Z.log2_spec t ltac:(lia)) as [L _].
  assert (L1 : (1 <= Z.log2 t)%Z).
  { apply Z.log2_le_pow2; [lia |]. change (2 ^ 1)%Z with 2%Z. lia. }
  destruct (Z.eq_dec (2 ^ Z.log2 t) t) as [E | NE]; [| lia].
  exfalso. rewrite <- E in O.
  replace (Z.log2 t) with (1 + (Z.log2 t - 1))%Z in O by ring.
  rewrite Z.pow_add_r, Z.odd_mul in O by lia. discriminate O.
Qed.

Section Multiplier.

Variables (a : Z) (b : positive) (mu' : Q).

Hypothesis a_pos : (0 < a)%Z.
Hypothesis grid : (Z.pos b <= 1000)%Z.
Hypothesis mu_range : 1 <= a # b /\ a # b <= 2.
Hypothesis mu'_range : 1 <= mu' /\ mu' <= 2.
Hypothesis nearest_number : Qabs (mu' - (a # b)) <= (a # b) * (1 # 2 ^ 54).
Hypothesis never_a_half : forall j : Z, (a * j <> 2 * Z.pos b)%Z
                                       /\ (a * j <> - (2 * Z.pos b))%Z.

Lemma product_half (j : Z) :
  (j # 4) * (a # b) + (1 # 2) == (a * j + 2 * Z.pos b)%Z # (4 * b).
Proof.
  unfold Qeq, Qplus, Qmult; cbn [Qnum Qden].
  rewrite !Pos2Z.inj_mul. change (Z.pos 4) with 4%Z. change (Z.pos 2) with 2%Z.
  ring.
Qed.

Lemma product_close (j : Z) :
  (Z.abs j <= 2 ^ 27)%Z ->
  Qabs ((j # 4) * mu' - (j # 4) * (a # b))
  <= Qabs ((j # 4) * (a # b)) * (1 # 2 ^ 54).
Proof.
  intros Hj.
  setoid_replace ((j # 4) * mu' - (j # 4) * (a # b))
    with ((j # 4) * (mu' - (a # b))) by ring.
  rewrite !Qabs_Qmult. rewrite (Qabs_pos (a # b)) by (destruct mu_range; lra).
  rewrite <- Qmult_assoc.
  apply Qmult_le_compat_l; [exact nearest_number | apply Qabs_nonneg].
Qed.

Lemma quarter_bound (j : Z) :
  (Z.abs j <= 2 ^ 27)%Z -> Qabs (j # 4) <= 33554432 # 1.
Proof.
  intros Hj. unfold Qabs, Qle; cbn [Qnum Qden]. lia.
Qed.


Lemma product_bounds (j : Z) :
  (Z.abs j <= 2 ^ 27)%Z ->
  Qabs ((j # 4) * (a # b)) <= 67108864 # 1
  /\ Qabs ((j # 4) * mu') <= 67108864 # 1
  /\ normal ((j # 4) * mu').
Proof.
  intros Hj. pose proof (quarter_bound j Hj) as Q.
  destruct mu_range as [M1 M2]. destruct mu'_range as [N1 N2].
  rewrite !Qabs_Qmult, (Qabs_pos (a # b)), (Qabs_pos mu') by lra.
  assert (P : 0 <= Qabs (j # 4)) by apply Qabs_nonneg.
  assert (B1 : Qabs (j # 4) * (a # b) <= Qabs (j # 4) * 2)
    by (apply Qmult_le_compat_l; assumption).
  assert (B2 : Qabs (j # 4) * mu' <= Qabs (j # 4) * 2)
    by (apply Qmult_le_compat_l; assumption).
  split; [lra | split; [lra |]].
  destruct (Z.eq_dec j 0) as [-> | NZ].
  - left. setoid_replace (0 # 4) with 0 by reflexivity. ring.
  - right. rewrite Qabs_Qmult, (Qabs_pos mu') by lra.
    assert (Q4 : 1 # 4 <= Qabs (j # 4))
      by (unfold Qabs, Qle; cbn [Qnum Qden]; lia).
    assert (B3 : Qabs (j # 4) * 1 <= Qabs (j # 4) * mu')
      by (apply Qmult_le_compat_l; assumption).
    assert (T : pow2 (-1022) <= 1 # 4).
    { change (1 # 4) with (pow2 (-2)). apply pow2_le. lia. }
    lra.
Qed.

(** Away from half-way. *)
Lemma product_far (j k : Z) :
  (Z.abs j <= 2 ^ 27)%Z ->
  (4 * Z.pos b * k + 1 <= a * j + 2 * Z.pos b)%Z ->
  (a * j + 2 * Z.pos b <= 4 * Z.pos b * k + 4 * Z.pos b - 1)%Z ->
  round (round64 ((j # 4) * mu')) = of_Z k.
Proof.
  intros Hj L U.
  destruct (product_bounds j Hj) as (Bp & Bx & Nx).
  pose proof (product_close j Hj) as C.
  destruct (round64_error _ (67108864 # 1) Nx Bx) as (y & -> & E).
  { change (67108864 # 1) with (pow2 26). apply pow2_le. lia. }
  pose proof (product_half j) as H.
  assert (F1 : inject_Z k + (1 # 4000) <= (a * j + 2 * Z.pos b)%Z # (4 * b)).
  { unfold Qle, Qplus, inject_Z; cbn [Qnum Qden].
    rewrite !Pos2Z.inj_mul. change (Z.pos 4) with 4%Z. nia. }
  assert (F2 : (a * j + 2 * Z.pos b)%Z # (4 * b) <= inject_Z k + 1 - (1 # 4000)).
  { unfold Qle, Qminus, Qplus, Qopp, inject_Z; cbn [Qnum Qden].
    rewrite !Pos2Z.inj_mul. change (Z.pos 4) with 4%Z. nia. }
  assert (S1 : Qabs ((j # 4) * (a # b)) * (1 # 2 ^ 54)
               <= (67108864 # 1) * (1 # 2 ^ 54))
    by (apply Qmult_le_compat_r; [exact Bp | discriminate]).
  apply Qabs_Qle_condition in E as [E1 E2].
  assert (C' : Qabs ((j # 4) * mu' - (j # 4) * (a # b))
               <= (67108864 # 1) * (1 # 2 ^ 54)) by lra.
  apply Qabs_Qle_condition in C' as [C1 C2].
  change (1 # 2 ^ 53) with (1 # 9007199254740992) in E1, E2.
  change (1 # 2 ^ 54) with (1 # 18014398509481984) in C1, C2.
  unfold round. f_equal. apply Qfloor_unique; lra.
Qed.

(** Half-way. *)
Lemma product_tie (j k : Z) :
  (Z.abs j <= 2 ^ 27)%Z ->
  (a * j + 2 * Z.pos b = 4 * Z.pos b * k)%Z ->
  round (round64 ((j # 4) * mu')) = of_Z k.
Proof.
  intros Hj T.
  destruct (product_bounds j Hj) as (Bp & Bx & Nx).
  pose proof (product_close j Hj) as C.
  pose proof (product_half j) as H. rewrite T in H.
  assert (P : (j # 4) * (a # b) == (2 * k - 1)%Z # 2).
  { assert (H' : (4 * Z.pos b * k)%Z # (4 * b) == inject_Z k).
    { unfold Qeq, inject_Z; cbn [Qnum Qden]. rewrite Pos2Z.inj_mul.
      change (Z.pos 4) with 4%Z. nia. }
    rewrite H' in H.
    assert (E : (2 * k - 1)%Z # 2 == inject_Z k - (1 # 2)).
    { unfold Qeq, Qminus, Qplus, Qopp, inject_Z; cbn [Qnum Qden]. lia. }
    rewrite E. lra. }
  set (t := Z.abs (2 * k - 1)).
  assert (Ht : (3 <= t)%Z).
  { destruct (never_a_half j) as [N1 N2]. unfold t. nia. }
  assert (Ot : Z.odd t = true).
  { unfold t.
    destruct (Z.abs_eq_or_opp (2 * k - 1)) as [E | E]; rewrite E;
      rewrite ?Z.odd_opp;
      replace (2 * k - 1)%Z with (2 * (k - 1) + 1)%Z by lia; apply Z.odd_odd. }
  pose proof (odd_above_power t Ht Ot) as Lt.
  destruct (Z.log2_spec t ltac:(lia)) as [_ Ut].
  set (l := Z.log2 t) in *.
  assert (Hl : (1 <= l)%Z).
  { apply Z.log2_le_pow2; [lia |]. change (2 ^ 1)%Z with 2%Z. lia. }
  assert (Bt : (t < 2 ^ 30)%Z).
  { rewrite P in Bp. unfold Qabs, Qle in Bp; cbn [Qnum Qden] in Bp.
    fold t in Bp. lia. }
  assert (Hl' : (l < 30)%Z).
  { apply Z.log2_lt_pow2; [lia | exact Bt]. }
  assert (Pw : (2 ^ l * 2 ^ (52 - l) = 2 ^ 52)%Z).
  { rewrite <- Z.pow_add_r by lia. f_equal. ring. }
  assert (Pw1 : (2 ^ Z.succ l = 2 * 2 ^ l)%Z) by (apply Z.pow_succ_r; lia).
  assert (P2 : (0 < 2 ^ (52 - l))%Z) by (apply Z.pow_pos_nonneg; lia).
  assert (N : round64 ((j # 4) * mu') = Fin (Qred ((j # 4) * (a # b)))).
  { apply (round64_near _ _ ((2 * k - 1) * 2 ^ (52 - l)) (l - 1)).
    - rewrite P, inject_Z_mult, <- (pow2_Z (52 - l)) by lia.
      rewrite <- Qmult_assoc, <- pow2_plus.
      replace (52 - l + (l - 1 - 52))%Z with (-1)%Z by ring.
      change (pow2 (-1)) with (1 # 2).
      unfold Qeq, Qmult, inject_Z; cbn [Qnum Qden]. lia.
    - rewrite Z.abs_mul, (Z.abs_eq (2 ^ (52 - l))) by lia. fold t.
      change (2 ^ 53)%Z with (2 * 2 ^ 52)%Z. nia.
    - lia.
    - eapply Qle_lt_trans; [exact C |].
      replace (l - 1 - 53)%Z with (l + (-54))%Z by ring.
      rewrite pow2_plus. change (pow2 (-54)) with (1 # 2 ^ 54).
      apply Qmult_lt_compat_r; [reflexivity |].
      rewrite P, (pow2_Z l) by lia.
      unfold Qabs, Qlt, inject_Z; cbn [Qnum Qden]. fold t. lia. }
  rewrite N. unfold round. f_equal.
  apply Qfloor_unique; rewrite Qred_correct, P;
    unfold Qle, Qlt, Qplus, inject_Z; cbn [Qnum Qden]; lia.
Qed.

(** Maintenance calories are the product with the decimal multiplier,
    rounded half up. *)
Lemma product_rounded (j : Z) :
  (Z.abs j <= 2 ^ 27)%Z ->
  round (round64 ((j # 4) * mu')) = of_Z (round_half_up ((j # 4) * (a # b))).
Proof.
  intros Hj. unfold round_half_up.
  rewrite (Qfloor_comp _ _ (product_half j)). unfold Qfloor.
  set (n := (a * j + 2 * Z.pos b)%Z). set (d := Z.pos (4 * b)).
  assert (Hd : d = (4 * Z.pos b)%Z) by (unfold d; now rewrite Pos2Z.inj_mul).
  pose proof (Z.div_mod n d ltac:(lia)) as DM.
  pose proof (Z.mod_pos_bound n d ltac:(lia)) as MB.
  destruct (Z.eq_dec (n mod d) 0) as [Z0 | NZ].
  - apply product_tie; [exact Hj |]. fold n. rewrite <- Hd. lia.
  - apply product_far; [exact Hj | |]; fold n; rewrite <- Hd; lia.
Qed.

End Multiplier.


(** The five multipliers of the page are the binary64 numbers nearest
    to the decimals of the claim, and each meets the conditions
    above. *)
Lemma level_fits (level : string) (mu : Q) :
  In (level, mu) multipliers ->
  exists mu',
    multiplier level = Fin mu'
    /\ (0 < Qnum mu)%Z
    /\ (Z.pos (Qden mu) <= 1000)%Z
    /\ (1 <= mu /\ mu <= 2)
    /\ (1 <= mu' /\ mu' <= 2)
    /\ Qabs (mu' - mu) <= mu * (1 # 2 ^ 54)
    /\ (forall j : Z, (Qnum mu * j <> 2 * Z.pos (Qden mu))%Z
                      /\ (Qnum mu * j <> - (2 * Z.pos (Qden mu)))%Z).
Proof.
  unfold multipliers. cbn [In].
  intros [E | [E | [E | [E | [E | []]]]]]; injection E as <- <-;
    (eexists; split; [vm_compute; reflexivity |]);
    cbn [Qnum Qden];
    (split; [lia |]); (split; [lia |]);
    (split; [split; apply Qle_bool_imp_le; vm_compute; reflexivity |]);
    (split; [split; apply Qle_bool_imp_le; vm_compute; reflexivity |]);
    (split; [apply Qle_bool_imp_le; vm_compute; reflexivity |]);
    intros j; lia.
Qed.

(** On whole numbers the settings page computes maintenance calories
    as the claim words them. *)
Lemma maintenance_exact (w h a : Z) (gender level : string) (mu : Q) :
  measure w -> measure h -> measure a ->
  In (level, mu) multipliers ->
  Settings.calculateMaintenanceCalories
    (Settings.calculateBMR (of_Z w) (of_Z h) (of_Z a) gender) level
  = of_Z (round_half_up (mifflin w h a gender * mu)).
Proof.
  intros Hw Hh Ha Hl.
  rewrite (bmr_exact w h a gender Hw Hh Ha).
  destruct (level_fits level mu Hl) as (mu' & Em & F1 & F2 & F3 & F4 & F5 & F6).
  unfold Settings.calculateMaintenanceCalories. rewrite Em.
  set (j := (40 * w + 25 * h - 20 * a
             + (if String.eqb gender "male" then 20 else - 644))%Z).
  assert (Hj : (Z.abs j <= 2 ^ 27)%Z).
  { unfold measure in *. unfold j. destruct (String.eqb gender "male"); lia. }
  unfold quarters. cbn [mul]. unfold fin.
  rewrite (round64_comp _ ((j # 4) * mu')) by (now rewrite Qred_correct).
  destruct mu as [a' b']. cbn [Qnum Qden] in *.
  rewrite (product_rounded a' b' mu' F1 F2 F3 F4 F5 F6 j Hj).
  f_equal. unfold round_half_up. apply Qfloor_comp.
  now rewrite (mifflin_quarters w h a gender).
Qed.

(** The target of the settings page: five hundred more or less than
    a whole number of maintenance calories, or that number. *)
Lemma target_exact (m : Z) :
  (Z.abs m <= 2 ^ 52)%Z ->
  Settings.calculateTargetCalories (of_Z m) "bulk" = of_Z (m + 500)
  /\ Settings.calculateTargetCalories (of_Z m) "cut" = of_Z (m - 500)
  /\ Settings.calculateTargetCalories (of_Z m) "maintain" = of_Z m.
Proof.
  intros H. unfold Settings.calculateTargetCalories.
  cbn [String.eqb Ascii.eqb Bool.eqb].
  rewrite add_of_Z, sub_of_Z by lia. rewrite !round_of_Z. auto.
Qed.


(** *** The onboarding page

    The constants of the Harris-Benedict variant are not binary64
    numbers, so the page does not compute the closed form exactly; on
    whole numbers it stays within a millionth of it. *)

Lemma rounding (x : Q) :
  Qabs x <= 67108864 # 1 ->
  exists y, round64 x = Fin y /\ Qabs (y - x) <= 1 # 67108864.
Proof.
  intros H.
  destruct (round64_error_any x (67108864 # 1) H) as (y & E & C).
  { change (67108864 # 1) with (pow2 26). apply pow2_le. lia. }
  exists y. split; [exact E |].
  eapply Qle_trans; [exact C |].
  apply Qle_bool_imp_le. vm_compute. reflexivity.
Qed.

Lemma measure_Q (n : Z) :
  measure n -> 0 <= inject_Z n /\ inject_Z n <= 1000000 # 1.
Proof.
  unfold measure. intros [L U]. split.
  - change 0 with (inject_Z 0). now rewrite <- Zle_Qle.
  - change (1000000 # 1) with (inject_Z 1000000). now rewrite <- Zle_Qle.
Qed.

Ltac constant c :=
  let v := eval vm_compute in (fin c) in
  let E := fresh "E" in
  assert (E : fin c = v) by (vm_compute; reflexivity);
  rewrite E; clear E.

Ltac round_step :=
  unfold fin;
  match goal with
  | |- context [round64 ?x] =>
      lazymatch x with
      | context [round64 _] => fail
      | _ =>
          let y := fresh "y" in
          let R := fresh "R" in
          destruct (rounding x) as (y & -> & R);
          [ apply Qabs_Qle_condition; split; lra
          | apply Qabs_Qle_condition in R; destruct R as [? ?];
            cbn [add mul sub neg] ]
      end
  end.

Lemma harris_benedict_close (w h a : Z) (gender level goal : string) :
  measure w -> measure h -> measure a ->
  exists y,
    Onboarding.bmr_of (whole_profile w h a gender level goal) = Fin y
    /\ Qabs (y - harris_benedict w h a gender) <= 1 # 10000000.
Proof.
  intros Hw Hh Ha.
  apply measure_Q in Hw as [W0 W1], Hh as [H0 H1], Ha as [A0 A1].
  unfold Onboarding.bmr_of, harris_benedict, whole_profile.
  cbn [Profile.gender Profile.weight Profile.height Profile.age].
  destruct (String.eqb gender "male").
  - constant (88362 # 1000). constant (13397 # 1000).
    constant (4799 # 1000). constant (5677 # 1000).
    unfold of_Z. cbn [add mul sub neg].
    round_step. round_step. round_step. round_step. round_step.
    rewrite (round64_comp _ (y2 - y3)) by (now rewrite Qred_correct).
    round_step.
    eexists. split; [reflexivity |].
    apply Qabs_Qle_condition. split; lra.
  - constant (447593 # 1000). constant (9247 # 1000).
    constant (3098 # 1000). constant (4330 # 1000).
    unfold of_Z. cbn [add mul sub neg].
    round_step. round_step. round_step. round_step. round_step.
    rewrite (round64_comp _ (y2 - y3)) by (now rewrite Qred_correct).
    round_step.
    eexists. split; [reflexivity |].
    apply Qabs_Qle_condition. split; lra.
Qed.


Lemma harris_benedict_bound (w h a : Z) (gender : string) :
  measure w -> measure h -> measure a ->
  Qabs (harris_benedict w h a gender) <= 20000000 # 1.
Proof.
  intros Hw Hh Ha.
  apply measure_Q in Hw as [W0 W1], Hh as [H0 H1], Ha as [A0 A1].
  unfold harris_benedict.
  destruct (String.eqb gender "male"); apply Qabs_Qle_condition; split; lra.
Qed.

(** On whole numbers the maintenance calories of the onboarding page
    are a whole number within half a calorie, and a millionth, of the
    closed form times the multiplier. *)
Lemma onboarding_close (w h a : Z) (gender level goal : string) (mu : Q) :
  measure w -> measure h -> measure a ->
  In (level, mu) multipliers ->
  exists m,
    maintenance_calories
      (Onboarding.calculateMaintenanceCalories
         (whole_profile w h a gender level goal)) = of_Z m
    /\ Qabs (inject_Z m - harris_benedict w h a gender * mu)
       <= (1 # 2) + (1 # 1000000).
Proof.
  intros Hw Hh Ha Hl.
  destruct (harris_benedict_close w h a gender level goal Hw Hh Ha)
    as (y & Ey & Cy).
  pose proof (harris_benedict_bound w h a gender Hw Hh Ha) as Bh.
  unfold Onboarding.calculateMaintenanceCalories.
  cbn [maintenance_calories]. rewrite Ey.
  replace (activity_level (whole_profile w h a gender level goal)) with level
    by reflexivity.
  set (hb := harris_benedict w h a gender) in *.
  apply Qabs_Qle_condition in Cy as [Cy1 Cy2].
  apply Qabs_Qle_condition in Bh as [Bh1 Bh2].
  unfold multipliers in Hl. cbn [In] in Hl.
  destruct Hl as [E | [E | [E | [E | [E | []]]]]]; injection E as <- <-;
    match goal with
    | |- context [multiplier ?l] =>
        let v := eval vm_compute in (multiplier l) in
        change (multiplier l) with v
    end;
    cbn [mul]; round_step;
    unfold round;
    (eexists; split; [reflexivity |]);
    match goal with
    | |- context [Qfloor ?q] =>
        pose proof (Qfloor_le q) as L; pose proof (Qlt_floor q) as U;
        rewrite inject_Z_plus in U; change (inject_Z 1) with 1 in U
    end;
    apply Qabs_Qle_condition; split; lra.
Qed.

(** The target of the onboarding page: five hundred more or less
    than a whole number of maintenance calories, or that number. *)
Lemma onboarding_target (p : UserProfile) (m : Z) :
  maintenance_calories (Onboarding.calculateMaintenanceCalories p) = of_Z m ->
  (Z.abs m <= 2 ^ 52)%Z ->
  target_calories (Onboarding.calculateMaintenanceCalories (with_goal p "bulk"))
  = of_Z (m + 500)
  /\ target_calories (Onboarding.calculateMaintenanceCalories (with_goal p "cut"))
     = of_Z (m - 500)
  /\ target_calories
       (Onboarding.calculateMaintenanceCalories (with_goal p "maintain"))
     = of_Z m.
Proof.
  unfold Onboarding.calculateMaintenanceCalories, with_goal, Onboarding.bmr_of.
  cbn [maintenance_calories target_calories goal gender weight height age
       activity_level String.eqb Ascii.eqb Bool.eqb].
  intros -> H. rewrite add_of_Z, sub_of_Z by lia. auto.
Qed.

(** C9, as amended.  For a weight, a height and an age that are whole
    numbers (up to a million) the settings page computes the
    Mifflin-St Jeor value [10 w + 6.25 h - 5 a + 5] for a male and
    [10 w + 6.25 h - 5 a - 161] for any other profile exactly, and its
    maintenance calories are that value times the multiplier 1.2,
    1.375, 1.55, 1.725 or 1.9 of the activity level, rounded to the
    nearest integer, a half going up; its target is a whole number of
    maintenance calories plus 500 for the goal bulk, minus 500 for cut,
    and the number itself for maintain.  On the onboarding page, whose
    formula is the Harris-Benedict variant, the maintenance calories
    for such a profile are a whole number within half a calorie, and a
    millionth, of the formula times the multiplier, and the target is
    that number plus 500, minus 500, or the number itself. *)
Theorem calorie_formulas
        (w h a : Z) (gender level : string) (mu : Q) :
  measure w -> measure h -> measure a ->
  In (level, mu) multipliers ->
  Settings.calculateBMR (of_Z w) (of_Z h) (of_Z a) gender
  = Fin (Qred (mifflin w h a gender))
  /\ Settings.calculateMaintenanceCalories
       (Settings.calculateBMR (of_Z w) (of_Z h) (of_Z a) gender) level
     = of_Z (round_half_up (mifflin w h a gender * mu))
  /\ (forall m : Z,
        (Z.abs m <= 2 ^ 52)%Z ->
        Settings.calculateTargetCalories (of_Z m) "bulk" = of_Z (m + 500)
        /\ Settings.calculateTargetCalories (of_Z m) "cut" = of_Z (m - 500)
        /\ Settings.calculateTargetCalories (of_Z m) "maintain" = of_Z m)
  /\ (forall goal : string,
      exists m : Z,
        maintenance_calories
          (Onboarding.calculateMaintenanceCalories
             (whole_profile w h a gender level goal)) = of_Z m
        /\ Qabs (inject_Z m - harris_benedict w h a gender * mu)
           <= (1 # 2) + (1 # 1000000)
        /\ target_calories
             (Onboarding.calculateMaintenanceCalories
                (whole_profile w h a gender level "bulk")) = of_Z (m + 500)
        /\ target_calories
             (Onboarding.calculateMaintenanceCalories
                (whole_profile w h a gender level "cut")) = of_Z (m - 500)
        /\ target_calories
             (Onboarding.calculateMaintenanceCalories
                (whole_profile w h a gender level "maintain")) = of_Z m).
Proof.
  intros Hw Hh Ha Hl. split; [| split; [| split]].
  - rewrite (bmr_exact w h a gender Hw Hh Ha). unfold quarters. f_equal.
    apply Qred_complete. symmetry. apply mifflin_quarters.
  - now apply maintenance_exact.
  - apply target_exact.
  - intros goal.
    destruct (onboarding_close w h a gender level goal mu Hw Hh Ha Hl)
      as (m & Em & Cm).
    exists m. split; [exact Em |]. split; [exact Cm |].
    assert (Bm : (Z.abs m <= 2 ^ 52)%Z).
    { pose proof (harris_benedict_bound w h a gender Hw Hh Ha) as Bh.
      apply Qabs_Qle_condition in Bh as [Bh1 Bh2].
      apply Qabs_Qle_condition in Cm as [C1 C2].
      assert (M : mu <= 2 /\ 0 <= mu).
      { unfold multipliers in Hl. cbn [In] in Hl.
        destruct Hl as [E | [E | [E | [E | [E | []]]]]]; injection E as <- <-;
          split; apply Qle_bool_imp_le; vm_compute; reflexivity. }
      destruct M as [M1 M2].
      set (hb := harris_benedict w h a gender) in *.
      assert (P1 : hb * mu <= (20000000 # 1) * 2).
      { destruct (Qlt_le_dec hb 0) as [N | P].
        - assert (hb * mu <= 0 * mu)
            by (apply Qmult_le_compat_r; lra). lra.
        - apply Qle_trans with ((20000000 # 1) * mu).
          + apply Qmult_le_compat_r; lra.
          + apply Qmult_le_compat_l; [lra | discriminate]. }
      assert (P2 : - ((20000000 # 1) * 2) <= hb * mu).
      { destruct (Qlt_le_dec hb 0) as [N | P].
        - assert (T : (- hb) * mu <= (20000000 # 1) * mu)
            by (apply Qmult_le_compat_r; lra).
          assert ((20000000 # 1) * mu <= (20000000 # 1) * 2)
            by (apply Qmult_le_compat_l; [lra | discriminate]).
          lra.
        - assert (0 * mu <= hb * mu) by (apply Qmult_le_compat_r; lra). lra. }
      assert (U : inject_Z m <= inject_Z 40000001).
      { change (inject_Z 40000001) with (40000001 # 1). lra. }
      assert (L : inject_Z (- 40000001) <= inject_Z m).
      { change (inject_Z (- 40000001)) with (- (40000001 # 1)). lra. }
      rewrite <- Zle_Qle in U, L. lia. }
    apply (onboarding_target (whole_profile w h a gender level goal) m Em Bm).
Qed.

(** The sample: 70 kg, 175 cm, 30 years, male, moderately active. *)
Lemma calorie_formulas_witness :
  Settings.calculateBMR (of_Z 70) (of_Z 175) (of_Z 30) "male"
  = Fin (Qred (mifflin 70 175 30 "male"))
  /\ Settings.calculateMaintenanceCalories
       (Settings.calculateBMR (of_Z 70) (of_Z 175) (of_Z 30) "male") "moderate"
     = of_Z (round_half_up (mifflin 70 175 30 "male" * (155 # 100))).
Proof.
  destruct (calorie_formulas 70 175 30 "male" "moderate" (155 # 100))
    as (B & M & _).
  - unfold measure. lia.
  - unfold measure. lia.
  - unfold measure. lia.
  - unfold multipliers. cbn [In]. auto.
  - split; [exact B | exact M].
Defined.

(** C9, as stated, fails.  With a weight of 60.03 and a height of
    167.152 the settings page does not return the value of the closed
    form on these numbers: it returns 1499.9999999999998.  On the
    onboarding page the whole numbers 49 kg, 168 cm and 52 years of a
    lightly active female give 1644 maintenance calories, while the
    formula gives 1196 and 1196 times 1.375 is 1644.5, which rounds to
    1645. *)
Lemma rounding_shows_in_calories :
  (exists wq hq bq,
      of_literal (6003 # 100) = Fin wq
      /\ of_literal (167152 # 1000) = Fin hq
      /\ Settings.calculateBMR (Fin wq) (Fin hq) (of_Z 30) "male" = Fin bq
      /\ to_string (Fin bq) = "1499.9999999999998"
      /\ ~ bq == 10 * wq + (625 # 100) * hq - 5 * 30 + 5)
  /\ maintenance_calories
       (Onboarding.calculateMaintenanceCalories
          (whole_profile 49 168 52 "female" "light" "maintain"))
     = of_Z 1644
  /\ round_half_up (harris_benedict 49 168 52 "female" * (1375 # 1000)) = 1645%Z.
Proof.
  split; [| split; vm_compute; reflexivity].
  eexists _, _, _.
  split; [vm_compute; reflexivity |].
  split; [vm_compute; reflexivity |].
  split; [vm_compute; reflexivity |].
  split; [vm_compute; reflexivity |].
  vm_compute. discriminate.
Qed.

End ProfileFacts.
(** ** The edge functions *)

Module GatewayFacts.

(** *** Upstream failure *)

Lemma scan_parse_content_pure (content : value) :
  trace (ScanMeal.parse_content content) = [].
Proof.
  unfold trace, ScanMeal.parse_content. monad_unfold.
  repeat (split_goal_match; cbn [fst snd app]); reflexivity.
Qed.

Ltac use_pure :=
  match goal with
  | E : ScanMeal.parse_content ?c = (_, ?l) |- _ =>
      let H := fresh in
      pose proof (scan_parse_content_pure c) as H;
      rewrite E in H; cbn [trace snd] in H; subst l; clear E
  end.

Ltac failed_call Hf :=
  match goal with
  | E : network _ _ = _ |- _ => rewrite E in Hf; cbn [failed] in Hf
  end;
  try match goal with
      | E : negb (ok _) = false |- _ => rewrite E in Hf
      end;
  try discriminate Hf.

Lemma scan_meal_failure (rt : runtime) (req : request) (call : fetch_request) :
  failed (network rt call) = true ->
  In (Outbound call) (trace (ScanMeal.handler rt req)) ->
  exists r, result (ScanMeal.handler rt req) = inr r /\ error_response 500 r.
Proof.
  intros Hf. unfold trace, result, ScanMeal.handler, ScanMeal.parse_or_fallback.
  monad_unfold.
  repeat (split_goal_match; try use_pure; cbn [fst snd app In negb]);
    intros Hin; try solve [destruct Hin];
    destruct Hin as [Hin | []]; injection Hin as <-; failed_call Hf;
    (eexists; split;
     [reflexivity | split; [reflexivity | do 2 eexists; reflexivity]]).
Qed.

Lemma estimate_nutrition_failure (rt : runtime) (req : request)
      (call : fetch_request) :
  failed (network rt call) = true ->
  In (Outbound call) (trace (EstimateNutrition.handler rt req)) ->
  exists r,
    result (EstimateNutrition.handler rt req) = inr r /\ error_response 500 r.
Proof.
  intros Hf. unfold trace, result, EstimateNutrition.handler. monad_unfold.
  repeat (split_goal_match; cbn [fst snd app In negb]);
    intros Hin; try solve [destruct Hin];
    destruct Hin as [Hin | []]; injection Hin as <-; failed_call Hf;
    (eexists; split;
     [reflexivity | split; [reflexivity | do 2 eexists; reflexivity]]).
Qed.

(** Both edge functions answer every request: no exception leaves
    the handler. *)
Lemma scan_meal_answers (rt : runtime) (req : request) :
  exists r, result (ScanMeal.handler rt req) = inr r.
Proof.
  unfold result, ScanMeal.handler, ScanMeal.parse_or_fallback. monad_unfold.
  repeat (split_goal_match; cbn [fst snd app negb]); eexists; reflexivity.
Qed.

Lemma estimate_nutrition_answers (rt : runtime) (req : request) :
  exists r, result (EstimateNutrition.handler rt req) = inr r.
Proof.
  unfold result, EstimateNutrition.handler. monad_unfold.
  repeat (split_goal_match; cbn [fst snd app negb]); eexists; reflexivity.
Qed.

(** C1, as amended.  When the outbound call of a request fails (the
    fetch rejects, or the status is not 2xx), each edge function
    answers with HTTP 500 and a JSON object that carries an [error]
    message: the failure is reported to the caller, no fallback item
    is produced. *)
Theorem upstream_failure_answers_500
        (rt : runtime) (req : request) (call : fetch_request) :
  failed (network rt call) = true ->
  (In (Outbound call) (trace (ScanMeal.handler rt req)) ->
   exists r, result (ScanMeal.handler rt req) = inr r /\ error_response 500 r)
  /\ (In (Outbound call) (trace (EstimateNutrition.handler rt req)) ->
      exists r,
        result (EstimateNutrition.handler rt req) = inr r
        /\ error_response 500 r).
Proof.
  intros Hf. split.
  - now apply scan_meal_failure.
  - now apply estimate_nutrition_failure.
Qed.

Lemma upstream_failure_answers_500_witness :
  exists r,
    result (ScanMeal.handler (runtime_of server_key (Resolves unavailable))
                             photo_request) = inr r
    /\ error_response 500 r.
Proof.
  apply (proj1 (upstream_failure_answers_500
                  (runtime_of server_key (Resolves unavailable)) photo_request
                  (ScanMeal.openai_request "sk-test" "iVBORw0KGgo=")
                  eq_refl)).
  vm_compute. left. reflexivity.
Defined.

(** C1, as stated, fails: a rejected fetch and a 503 from the model
    both end in a 500 response, not in a 200 with a fallback item. *)
Lemma upstream_failure_not_masked :
  failed (Rejects "timed out") = true
  /\ result (EstimateNutrition.handler
               (runtime_of server_key (Rejects "timed out")) chicken_query)
     = inr {| status := 500;
              headers := EstimateNutrition.json_headers;
              body := Some (js "{'error':'Failed to estimate nutrition','details':'timed out'}") |}
  /\ failed (Resolves unavailable) = true
  /\ result (ScanMeal.handler
               (runtime_of server_key (Resolves unavailable)) photo_request)
     = inr {| status := 500;
              headers := ScanMeal.json_headers;
              body := Some (js "{'error':'Failed to analyze image','details':'upstream unavailable'}") |}.
Proof. vm_compute. repeat split. Qed.

(** *** The shape of the items of [scan-meal] *)

Lemma get_total (v : value) (k : string) :
  nullish v = false -> get v k = inr (get_opt v k).
Proof.
  intros H. unfold get_opt. destruct (get v k) eqn:E; [| reflexivity].
  destruct v; cbn in H; try discriminate; cbn in E;
    repeat (match type of E with
            | context [match ?x with _ => _ end] => destruct x
            end);
    discriminate.
Qed.

Lemma above_zero_truthy (n : number) : gtb n zero = true -> Num.truthy n = true.
Proof.
  destruct n as [q | | |]; cbn; intros H; try reflexivity; try discriminate.
  unfold is_zero. destruct (Qeq_bool q 0) eqn:E; [| reflexivity].
  apply Qeq_bool_iff in E.
  assert (L : Qle_bool q (inject_Z 0) = true)
    by (apply Qle_bool_iff; rewrite E; apply Qle_refl).
  rewrite L in H. discriminate.
Qed.

Lemma number_or_0_number (n : number) : number_or_0 n <> NaN.
Proof.
  unfold number_or_0. destruct n as [q | | |]; cbn;
    try destruct (negb (is_zero q)); discriminate.
Qed.

Lemma Number_or_0_is_number (v out : value) :
  Number_or_0 v = inr out -> exists m, out = VNum m /\ m <> NaN.
Proof.
  unfold Number_or_0. destruct (Number v) as [e | n]; [discriminate |].
  intros H. injection H as <-. exists (number_or_0 n).
  split; [reflexivity | apply number_or_0_number].
Qed.

Lemma Number_or_0_coerced (v out : value) :
  Number_or_0 v = inr out -> coerced v out.
Proof.
  unfold Number_or_0, coerced, number_or_0.
  destruct (Number v) as [e | n]; [discriminate |].
  intros H. injection H as <-. exists n. auto.
Qed.

Lemma Number_or_0_counted (v out : value) :
  Number_or_0 v = inr out -> counted v out.
Proof.
  unfold Number_or_0, counted.
  destruct (Number v) as [e | n] eqn:E; [discriminate |].
  intros H. injection H as <-. exists (number_or_0 n).
  split; [reflexivity |]. split; [apply number_or_0_number |].
  intros n' -> Hp. cbn in E. injection E as <-.
  unfold number_or_0. now rewrite (above_zero_truthy n' Hp).
Qed.

Lemma or_else_truthy (a b : value) :
  truthy b = true -> truthy (or_else a b) = true.
Proof. intros H. unfold or_else. destruct (truthy a) eqn:T; auto. Qed.

Lemma or_else_defaulted (v : value) (d : string) :
  defaulted v d (or_else v (VStr d)).
Proof. unfold defaulted, or_else. destruct (truthy v); auto. Qed.

Lemma validate_not_null (src out : value) :
  ScanMeal.validate src = inr out -> nullish src = false.
Proof. destruct src; try reflexivity; discriminate. Qed.

Lemma validate_validated (src out : value) :
  ScanMeal.validate src = inr out -> validated src out.
Proof.
  intros H. pose proof (validate_not_null src out H) as Hn.
  unfold ScanMeal.validate, bind_pure in H.
  rewrite !(get_total _ _ Hn) in H.
  destruct (Number_or_0 (get_opt src "calories")) as [e | cal] eqn:Ec;
    [discriminate |].
  destruct (Number_or_0 (get_opt src "protein")) as [e | pro] eqn:Ep;
    [discriminate |].
  destruct (Number_or_0 (get_opt src "carbs")) as [e | carb] eqn:Eb;
    [discriminate |].
  destruct (Number_or_0 (get_opt src "fat")) as [e | fat] eqn:Ef;
    [discriminate |].
  injection H as <-.
  do 6 eexists. split; [reflexivity |].
  repeat split;
    auto using Number_or_0_coerced, Number_or_0_counted, or_else_defaulted.
Qed.

(** The inner [try] block of [scan-meal] answers only with the
    validated entries of the text it parsed. *)
Lemma parse_content_ok (content : value) (r : response) :
  result (ScanMeal.parse_content content) = inr r ->
  exists text parsed entries items,
    ToString content = inr text
    /\ JSON_parse text = Some parsed
    /\ get parsed "results" = inr (VArr entries)
    /\ r = ScanMeal.json_response 200 (VObj [("results", VArr items)])
    /\ Forall2 (fun s o => ScanMeal.validate s = inr o) entries items.
Proof.
  unfold result, ScanMeal.parse_content. monad_unfold.
  repeat (split_goal_match; cbn [fst snd app]); intros H; try discriminate.
  injection H as <-. subst. eexists _, _, _, _. repeat split; try eassumption.
  apply mapM_Forall2. eassumption.
Qed.

Lemma parse_or_fallback_pure (content : value) :
  trace (ScanMeal.parse_or_fallback content) = [].
Proof.
  unfold ScanMeal.parse_or_fallback, try_catch, ret, trace.
  pose proof (scan_parse_content_pure content) as H. unfold trace in H.
  destruct (ScanMeal.parse_content content) as [[e | r] l];
    cbn [fst snd] in *; subst; reflexivity.
Qed.

(** A run of [scan-meal] that ends in a 200 response is a preflight,
    or it made one call, the model answered with a completion that has
    a content, and the response is that of the parse stage. *)
Lemma scan_meal_200 (rt : runtime) (req : request) (r : response) :
  result (ScanMeal.handler rt req) = inr r ->
  status r = 200 ->
  body r = None
  \/ exists call resp data content,
       trace (ScanMeal.handler rt req) = [Outbound call]
       /\ network rt call = Resolves resp
       /\ JSON_parse (body_text resp) = Some data
       /\ optional_content_of data = inr content
       /\ ScanMeal.parse_or_fallback content = (inr r, []).
Proof.
  unfold result, trace, ScanMeal.handler. monad_unfold.
  repeat (split_goal_match; cbn [fst snd app negb]);
    intros H Hs; injection H as <-; try discriminate Hs;
    first [ left; reflexivity | right ].
  all: match goal with
       | E : ScanMeal.parse_or_fallback ?c = (_, ?l) |- _ =>
           let H := fresh in
           pose proof (parse_or_fallback_pure c) as H;
           rewrite E in H; cbn [trace snd] in H; subst l
       end.
  all: eexists _, _, _, _; repeat split; eassumption.
Qed.

(** A number in decimal never starts with the letter of [null]. *)
Lemma digits_start (d : Decimal.uint) :
  d <> Decimal.Nil ->
  exists c r, NilEmpty.string_of_uint d = String c r /\ c <> "n"%char.
Proof.
  intros H. destruct d; try contradiction; cbn;
    eexists _, _; (split; [reflexivity | discriminate]).
Qed.

Lemma decimal_digits_start (m : Z) :
  exists c r, decimal_digits m = String c r /\ c <> "n"%char.
Proof.
  apply digits_start. destruct (Z.to_N m) as [| p]; cbn; [discriminate |].
  apply DecimalPos.Unsigned.to_uint_nonnil.
Qed.

Lemma starts_append (s t : string) :
  (exists c r, s = String c r /\ c <> "n"%char) ->
  exists c r, s ++ t = String c r /\ c <> "n"%char.
Proof. intros (c & r & -> & H). exists c, (r ++ t). auto. Qed.

Lemma starts_substring (s : string) (n : nat) :
  (exists c r, s = String c r /\ c <> "n"%char) ->
  (0 < n)%nat ->
  exists c r, substring 0 n s = String c r /\ c <> "n"%char.
Proof.
  intros (c & r & -> & H) Hn. destruct n as [| n]; [lia |].
  cbn. exists c, (substring 0 n r). auto.
Qed.

Lemma format_start (m e : Z) :
  exists c r, format m e = String c r /\ c <> "n"%char.
Proof.
  pose proof (decimal_digits_start m) as D. unfold format.
  set (ds := decimal_digits m) in *.
  set (k := Z.of_nat (String.length ds)).
  destruct ((k <=? k + e) && (k + e <=? 21)); [now apply starts_append |].
  destruct ((0 <? k + e) && (k + e <=? 21)) eqn:E.
  { apply andb_true_iff in E as [E _]. apply Z.ltb_lt in E.
    apply starts_append, starts_substring; [exact D | lia]. }
  destruct ((-6 <? k + e) && (k + e <=? 0)).
  { eexists _, _. split; [reflexivity | discriminate]. }
  apply starts_append. destruct (k =? 1); [exact D |].
  apply starts_append, starts_substring; [exact D | lia].
Qed.

Lemma format_not_null (m e : Z) : format m e <> "null".
Proof.
  destruct (format_start m e) as (c & r & -> & H). intros E.
  injection E as E _. contradiction.
Qed.

(** [JSON.stringify] writes a number that is an infinity, and no
    other number but NaN, as [null]. *)
Lemma infinity_written_null (n : number) :
  n <> NaN ->
  (JSON_stringify (VNum n) = Some "null" <-> n = PosInf \/ n = NegInf).
Proof.
  intros Hn. destruct n as [q | | |]; cbn [JSON_stringify serialize].
  - split; [| intros [H | H]; discriminate H].
    intros H. exfalso. injection H as H. revert H. unfold to_string.
    destruct (is_zero q); [discriminate |].
    destruct (decompose (Qabs q)) as [m e].
    destruct (Qle_bool 0 q); cbn [append]; [apply format_not_null | discriminate].
  - contradiction.
  - split; auto.
  - split; auto.
Qed.

Lemma parse_or_fallback_cases (content : value) (r : response) :
  ScanMeal.parse_or_fallback content = (inr r, []) ->
  r = ScanMeal.json_response 200 (VObj [("results", VArr [ScanMeal.fallback])])
  \/ result (ScanMeal.parse_content content) = inr r.
Proof.
  unfold ScanMeal.parse_or_fallback, try_catch, result, ret.
  destruct (ScanMeal.parse_content content) as [[e | r1] l]; cbn [fst];
    intros H; injection H as <-; auto.
Qed.

Lemma estimate_nutrition_success
      (rt : runtime) (req : request) (b q v : value) (text raw : string) :
  method req <> "OPTIONS" ->
  JSON_parse (req_body req) = Some b ->
  get b "foodQuery" = inr q ->
  truthy q = true ->
  ToString q = inr text ->
  replies rt (EstimateNutrition.openai_request rt text) (VStr raw) ->
  JSON_parse (trim raw) = Some v ->
  EstimateNutrition.handler rt req
  = (inr {| status := 200;
            headers := EstimateNutrition.json_headers;
            body := JSON_stringify
                      (VObj [("results",
                              match v with
                              | VArr _ => v
                              | _ => VArr [v]
                              end)]) |},
     [Outbound (EstimateNutrition.openai_request rt text)]).
Proof.
  intros Hm Hb Hq Ht Hs (resp & data & Hn & Hok & Hd & Hc) Hv.
  unfold EstimateNutrition.handler. rewrite (not_options _ Hm).
  monad_unfold. rewrite Hb, Hq. cbn [negb]. rewrite Ht. cbn [negb].
  rewrite Hs, Hn, Hok. cbn [negb]. rewrite Hd, Hc. cbn [call_trim]. rewrite Hv.
  cbn [app]. unfold EstimateNutrition.ensure_array.
  destruct v; reflexivity.
Qed.

Lemma Forall2_made_from {A B} (R : A -> B -> Prop) (S : A -> B -> Prop)
      (l : list A) (l' : list B) :
  Forall2 R l l' ->
  (forall x y, R x y -> S x y) ->
  Forall (fun y => exists x, In x l /\ S x y) l'.
Proof.
  intros F H. induction F as [| x y l l' Hxy _ IH]; constructor.
  - exists x. split; [now left | auto].
  - eapply Forall_impl; [| exact IH].
    intros b (a & Ha & Hs). exists a. split; [now right | exact Hs].
Qed.

(** C3, as amended.  Every item that [scan-meal] returns on a 200
    response is the fixed fallback item, or it is made from one entry
    of the results array of the reply and is an object with exactly the
    fields name, calories, protein, carbs, fat and serving_size: name
    is the name of the entry, or [Unknown food] when that is missing or
    empty; serving_size is that of the entry, or [1 serving]; protein,
    carbs and fat are [Number(v) || 0] of the values of the entry, that
    is 0 for a value that is missing, not numeric or zero, and
    otherwise its number, a negative one too; calories are a number,
    and the calories of the entry when those are a number above zero.
    A number that is an infinity, and no other, is written as [null]
    in the body.  [estimate-nutrition] validates nothing: the items it
    returns are the parsed reply as it is. *)
Theorem scan_meal_items_shape (rt : runtime) (req : request) (r : response) :
  result (ScanMeal.handler rt req) = inr r ->
  status r = 200 ->
  (body r = None
   \/ exists items,
        body r = JSON_stringify (VObj [("results", VArr items)])
        /\ (items = [ScanMeal.fallback]
            \/ exists entries,
                 reply_entries rt req entries
                 /\ Forall (fun item =>
                              exists entry,
                                In entry entries /\ validated entry item)
                           items))
  /\ (forall n : number,
        n <> NaN ->
        (JSON_stringify (VNum n) = Some "null" <-> n = PosInf \/ n = NegInf))
  /\ (forall (rt' : runtime) (req' : request) (b q v : value)
             (text raw : string),
        method req' <> "OPTIONS" ->
        JSON_parse (req_body req') = Some b ->
        get b "foodQuery" = inr q ->
        truthy q = true ->
        ToString q = inr text ->
        replies rt' (EstimateNutrition.openai_request rt' text) (VStr raw) ->
        JSON_parse (trim raw) = Some v ->
        body_of (EstimateNutrition.handler rt' req')
        = JSON_stringify (VObj [("results", EstimateNutrition.ensure_array v)])).
Proof.
  intros Hr Hs. split; [| split].
  - destruct (scan_meal_200 rt req r Hr Hs)
      as [Hb | (call & resp & data & content & Ht & Hn & Hd & Hc & Hp)];
      [left; exact Hb | right].
    destruct (parse_or_fallback_cases content r Hp) as [-> | Hq].
    + exists [ScanMeal.fallback]. split; [reflexivity | now left].
    + destruct (parse_content_ok content r Hq)
        as (text & parsed & entries & items & E1 & E2 & E3 & -> & F).
      exists items. split; [reflexivity |]. right. exists entries. split.
      * exists call, resp, data, content, text, parsed.
        rewrite Ht. repeat split; auto. now left.
      * apply (Forall2_made_from _ _ _ _ F). intros x y. apply validate_validated.
  - apply infinity_written_null.
  - intros rt' req' b q v text raw Hm Hb Hq Ht Hx Hrep Hv.
    unfold body_of, result.
    rewrite (estimate_nutrition_success rt' req' b q v text raw
               Hm Hb Hq Ht Hx Hrep Hv).
    cbn [fst body]. unfold EstimateNutrition.ensure_array.
    destruct v; reflexivity.
Qed.

Lemma scan_meal_items_shape_witness :
  body soda_response = None
  \/ exists items,
       body soda_response = JSON_stringify (VObj [("results", VArr items)])
       /\ (items = [ScanMeal.fallback]
           \/ exists entries,
                reply_entries soda_runtime photo_request entries
                /\ Forall (fun item =>
                             exists entry,
                               In entry entries /\ validated entry item)
                          items).
Proof.
  apply (proj1 (scan_meal_items_shape soda_runtime photo_request soda_response
                  ltac:(vm_compute; reflexivity) eq_refl)).
Defined.

(** C3, as stated, fails: [scan-meal] returns a negative amount of
    protein as it is, and an amount beyond the range of the numbers as
    [null]; [estimate-nutrition] returns an entry without any of the
    fields. *)
Lemma negative_protein_returned :
  result (ScanMeal.handler soda_runtime photo_request)
  = inr {| status := 200;
           headers := ScanMeal.json_headers;
           body := Some (js "{'results':[{'name':'soda','calories':150,'protein':-2,'carbs':0,'fat':0,'serving_size':'1 serving'}]}") |}
  /\ result (ScanMeal.handler
               (runtime_of server_key
                  (Resolves (completion (js "{'results':[{'name':'oil','calories':900,'fat':1e999}]}"))))
               photo_request)
     = inr {| status := 200;
              headers := ScanMeal.json_headers;
              body := Some (js "{'results':[{'name':'oil','calories':900,'protein':0,'carbs':0,'fat':null,'serving_size':'1 serving'}]}") |}
  /\ result (EstimateNutrition.handler
               (runtime_of server_key (Resolves (completion "[{}]")))
               chicken_query)
     = inr {| status := 200;
              headers := EstimateNutrition.json_headers;
              body := Some (js "{'results':[{}]}") |}.
Proof. vm_compute. repeat split. Qed.

(** *** The empty list of [scan-meal] *)

(** C2 fails on [scan-meal]: a reply whose results list is empty is
    answered with HTTP 200 and an empty results list, not with the
    fallback item. *)
Theorem scan_meal_empty_results_returned :
  result (ScanMeal.handler empty_results_runtime photo_request)
  = inr {| status := 200;
           headers := ScanMeal.json_headers;
           body := Some (js "{'results':[]}") |}.
Proof. vm_compute. reflexivity. Qed.

(** Whatever the content, the parse stage of [scan-meal] answers 200
    with a results list, and the list is the fallback item unless the
    content parses to an object with a results array, every entry of
    which gives one item. *)
Lemma parse_or_fallback_answers (content : value) :
  exists items,
    ScanMeal.parse_or_fallback content
    = (inr (ScanMeal.json_response 200 (VObj [("results", VArr items)])), [])
    /\ (items = [ScanMeal.fallback]
        \/ exists text parsed entries,
             ToString content = inr text
             /\ JSON_parse text = Some parsed
             /\ get parsed "results" = inr (VArr entries)
             /\ Forall2 validated entries items).
Proof.
  unfold ScanMeal.parse_or_fallback, ScanMeal.parse_content. monad_unfold.
  repeat (split_goal_match; cbn [fst snd app]); same_pairs; try discriminate;
    subst; eexists; (split; [reflexivity |]); auto.
  right. eexists _, _, _. repeat split; try eassumption.
  eapply Forall2_weaken; [| apply mapM_Forall2; eassumption].
  intros x y. apply validate_validated.
Qed.

(** *** Entries kept, entries dropped by the client *)

Lemma keep_usable (entry : value) :
  nullish entry = false -> Client.keep entry = inr (usable entry).
Proof.
  intros H. unfold Client.keep, usable, bind_pure.
  rewrite !(get_total _ _ H).
  destruct (truthy (get_opt entry "name")); [| reflexivity].
  destruct (get_opt entry "calories"); reflexivity.
Qed.

Lemma keep_null (entry : value) :
  nullish entry = true -> exists e, Client.keep entry = inl e.
Proof. destruct entry; try discriminate; intros _; eexists; reflexivity. Qed.

Lemma Number_or_0_numeric (v : value) :
  match numeric v with
  | Some out => Number_or_0 v = inr out
  | None => exists e, Number_or_0 v = inl e
  end.
Proof.
  unfold numeric, Number_or_0, number_or_0.
  destruct (Number v) as [e | n]; [now exists e | reflexivity].
Qed.

Lemma clean_cleaned (entry : value) :
  nullish entry = false ->
  match cleaned entry with
  | Some item => Client.clean entry = inr item
  | None => exists e, Client.clean entry = inl e
  end.
Proof.
  intros H. unfold Client.clean, cleaned, bind_pure.
  rewrite !(get_total _ _ H).
  pose proof (Number_or_0_numeric (get_opt entry "calories")) as Hc.
  pose proof (Number_or_0_numeric (get_opt entry "protein")) as Hp.
  pose proof (Number_or_0_numeric (get_opt entry "carbs")) as Hb.
  pose proof (Number_or_0_numeric (get_opt entry "fat")) as Hf.
  destruct (numeric (get_opt entry "calories"));
    [rewrite Hc | destruct Hc as (e & ->); now exists e].
  destruct (numeric (get_opt entry "protein"));
    [rewrite Hp | destruct Hp as (e & ->); now exists e].
  destruct (numeric (get_opt entry "carbs"));
    [rewrite Hb | destruct Hb as (e & ->); now exists e].
  destruct (numeric (get_opt entry "fat"));
    [rewrite Hf | destruct Hf as (e & ->); now exists e].
  reflexivity.
Qed.

Lemma filterM_keep (entries : list value) :
  no_null entries = true ->
  filterM Client.keep entries = inr (filter usable entries).
Proof.
  unfold no_null.
  induction entries as [| e r IH]; cbn; intros H; [reflexivity |].
  apply andb_true_iff in H as [He Hr]. apply negb_true_iff in He.
  rewrite (keep_usable e He), (IH Hr). reflexivity.
Qed.

Lemma filterM_null (entries : list value) :
  no_null entries = false -> exists e, filterM Client.keep entries = inl e.
Proof.
  unfold no_null.
  induction entries as [| x r IH]; cbn; intros H; [discriminate |].
  destruct (nullish x) eqn:Hx.
  - destruct (keep_null x Hx) as (e & ->). now exists e.
  - rewrite (keep_usable x Hx). cbn in H. destruct (IH H) as (e & ->).
    now exists e.
Qed.

Lemma mapM_clean (entries : list value) :
  no_null entries = true ->
  match all_cleaned entries with
  | Some items => mapM Client.clean entries = inr items
  | None => exists e, mapM Client.clean entries = inl e
  end.
Proof.
  unfold no_null.
  induction entries as [| x r IH]; cbn; intros H; [reflexivity |].
  apply andb_true_iff in H as [Hx Hr]. apply negb_true_iff in Hx.
  pose proof (clean_cleaned x Hx) as Hc. specialize (IH Hr).
  destruct (cleaned x) as [item |];
    [rewrite Hc | destruct Hc as (e & ->); now exists e].
  destruct (all_cleaned r) as [items |];
    [rewrite IH | destruct IH as (e & ->); now exists e].
  reflexivity.
Qed.

Lemma validResults_filter (entries : list value) :
  no_null entries = true ->
  match all_cleaned (filter usable entries) with
  | Some items => Client.validResults_of entries = inr items
  | None => exists e, Client.validResults_of entries = inl e
  end.
Proof.
  intros H. unfold Client.validResults_of, bind_pure.
  rewrite (filterM_keep entries H). apply mapM_clean.
  unfold no_null. now apply forallb_filter.
Qed.

Lemma validResults_null (entries : list value) :
  no_null entries = false -> exists e, Client.validResults_of entries = inl e.
Proof.
  intros H. unfold Client.validResults_of, bind_pure.
  destruct (filterM_null entries H) as (e & ->). now exists e.
Qed.

(** What the filter and the map of the client give, against the
    entries shown. *)
Lemma validResults_shown (generic : value) (entries : list value) :
  match Client.validResults_of entries with
  | inr (item :: items) => shown generic entries = item :: items
  | _ => shown generic entries = [generic]
  end.
Proof.
  unfold shown. destruct (no_null entries) eqn:H.
  - pose proof (validResults_filter entries H) as E.
    destruct (all_cleaned (filter usable entries)) as [items |].
    + rewrite E. destruct items; reflexivity.
    + destruct E as (e & ->). reflexivity.
  - destruct (validResults_null entries H) as (e & ->). reflexivity.
Qed.

Lemma all_cleaned_Forall2 (entries items : list value) :
  all_cleaned entries = Some items ->
  Forall2 (fun entry item => cleaned entry = Some item) entries items.
Proof.
  revert items. induction entries as [| x r IH]; cbn; intros items H.
  - injection H as <-. constructor.
  - destruct (cleaned x) eqn:Ex; [| discriminate].
    destruct (all_cleaned r) eqn:Er; [| discriminate].
    injection H as <-. constructor; auto.
Qed.

Lemma search_parse_shown (searchQuery text jsonString : string)
      (parsed : value) (entries : list value) :
  Client.match_braces text = Some jsonString ->
  JSON_parse jsonString = Some parsed ->
  get parsed "results" = inr (VArr entries) ->
  exists t,
    Client.search_parse searchQuery (VStr text)
    = (inr tt,
       [ Ui (SetSearchResults (shown (Client.search_fallback searchQuery) entries));
         Ui (Toast t) ]).
Proof.
  intros Hm Hp Hr.
  pose proof (validResults_shown (Client.search_fallback searchQuery) entries)
    as Hs.
  unfold Client.search_parse, Client.extract_json, Client.toast,
    Client.nonempty_results.
  rewrite Hm. monad_unfold. rewrite Hp, Hr.
  destruct entries as [| x r].
  - cbn. eexists. reflexivity.
  - cbn [fst snd app].
    destruct (Client.validResults_of (x :: r)) as [e | [| item items]];
      rewrite Hs; cbn [fst snd app]; eexists; reflexivity.
Qed.

Lemma scan_parse_shown (text jsonString : string)
      (parsed : value) (entries : list value) :
  Client.match_braces text = Some jsonString ->
  JSON_parse jsonString = Some parsed ->
  get parsed "results" = inr (VArr entries) ->
  exists t,
    Client.scan_parse (VStr text)
    = (inr tt,
       [ Ui (SetSearchResults (shown Client.scan_fallback entries));
         Ui (Toast t) ]).
Proof.
  intros Hm Hp Hr.
  pose proof (validResults_shown Client.scan_fallback entries) as Hs.
  unfold Client.scan_parse, Client.extract_json, Client.toast,
    Client.nonempty_results.
  rewrite Hm. monad_unfold. rewrite Hp, Hr.
  destruct entries as [| x r].
  - cbn. eexists. reflexivity.
  - cbn [fst snd app].
    destruct (Client.validResults_of (x :: r)) as [e | [| item items]];
      rewrite Hs; cbn [fst snd app]; eexists; reflexivity.
Qed.

(** C4, as amended.  For a reply whose extracted JSON has a results
    list, the client-side paths of the text search and of the photo
    scan show, when no entry is [null] and no conversion of a kept
    entry throws, exactly the entries that have a name and calories
    that are a number above zero, in order, each with its numeric
    fields as [Number(v) || 0] and a missing serving size as
    [1 serving]; when no entry is kept, when an entry is [null] or
    when a conversion throws, they show the one generic item of the
    path instead. *)
Theorem entries_kept_or_dropped
        (text jsonString : string) (parsed : value) (entries : list value) :
  Client.match_braces text = Some jsonString ->
  JSON_parse jsonString = Some parsed ->
  get parsed "results" = inr (VArr entries) ->
  (forall searchQuery, exists t,
      Client.search_parse searchQuery (VStr text)
      = (inr tt,
         [ Ui (SetSearchResults
                 (shown (Client.search_fallback searchQuery) entries));
           Ui (Toast t) ]))
  /\ (exists t,
        Client.scan_parse (VStr text)
        = (inr tt,
           [ Ui (SetSearchResults (shown Client.scan_fallback entries));
             Ui (Toast t) ]))
  /\ (forall generic items,
        no_null entries = true ->
        all_cleaned (filter usable entries) = Some items ->
        items <> [] ->
        shown generic entries = items
        /\ Forall2 (fun entry item => cleaned entry = Some item)
                   (filter usable entries) items)
  /\ (forall generic,
        filter usable entries = [] -> shown generic entries = [generic]).
Proof.
  intros Hm Hp Hr. split; [| split; [| split]].
  - intros searchQuery.
    now apply (search_parse_shown searchQuery text jsonString parsed entries).
  - now apply (scan_parse_shown text jsonString parsed entries).
  - intros generic items Hn Ha Hne. split.
    + unfold shown. rewrite Hn, Ha. destruct items; [contradiction | reflexivity].
    + now apply all_cleaned_Forall2.
  - intros generic He. unfold shown. rewrite He. cbn.
    destruct (no_null entries); reflexivity.
Qed.

Lemma entries_kept_or_dropped_witness :
  exists t,
    Client.scan_parse (VStr ("Sure: " ++ mixed_text))
    = (inr tt,
       [ Ui (SetSearchResults (shown Client.scan_fallback mixed_entries));
         Ui (Toast t) ]).
Proof.
  apply (entries_kept_or_dropped ("Sure: " ++ mixed_text) mixed_text
           (VObj [("results", VArr mixed_entries)]) mixed_entries).
  - vm_compute. reflexivity.
  - vm_compute. reflexivity.
  - reflexivity.
Defined.

(** C4, as stated, fails: when every entry of the reply is dropped the
    client shows its generic item, not an empty list, and an entry
    that is [null] replaces the whole list by the generic item, the
    usable entry after it included. *)
Lemma unusable_entries_give_generic :
  Client.search_parse "rice"
    (VStr (js "{'results':[{'name':'rice','calories':0}]}"))
  = (inr tt,
     [ Ui (SetSearchResults [Client.search_fallback "rice"]);
       Ui (Toast estimated_toast) ])
  /\ Client.scan_parse
       (VStr (js "{'results':[null,{'name':'egg','calories':78}]}"))
     = (inr tt,
        [ Ui (SetSearchResults [Client.scan_fallback]);
          Ui (Toast analyzed_toast) ]).
Proof. vm_compute. repeat split. Qed.

(** *** [estimate-nutrition]: the parsed reply goes out as it is *)

(** C10.  In [estimate-nutrition], for a food query that prints as a
    text, as every string does: when the raw text of the reply parses
    as JSON, the response is HTTP 200 and its body is the
    serialization of the parsed value itself under [results], an array
    as it is and any other value as the single element of a list; no
    item is validated, coerced or given a default, and a bare object
    comes back as the one element of the list. *)
Theorem estimate_nutrition_verbatim
        (rt : runtime) (req : request) (b q v : value) (text raw : string) :
  method req <> "OPTIONS" ->
  JSON_parse (req_body req) = Some b ->
  get b "foodQuery" = inr q ->
  truthy q = true ->
  ToString q = inr text ->
  replies rt (EstimateNutrition.openai_request rt text) (VStr raw) ->
  JSON_parse raw = Some v ->
  result (EstimateNutrition.handler rt req)
  = inr {| status := 200;
           headers := EstimateNutrition.json_headers;
           body := JSON_stringify
                     (VObj [("results",
                             match v with
                             | VArr _ => v
                             | _ => VArr [v]
                             end)]) |}
  /\ (forall props, v = VObj props ->
      body_of (EstimateNutrition.handler rt req)
      = JSON_stringify (VObj [("results", VArr [VObj props])])).
Proof.
  intros Hm Hb Hq Ht Hs Hr Hv.
  pose proof (estimate_nutrition_success rt req b q v text raw Hm Hb Hq Ht Hs Hr
                (JsonFacts.JSON_parse_trim raw v Hv)) as E.
  split.
  - unfold result. rewrite E. reflexivity.
  - intros props ->. unfold body_of, result. rewrite E. reflexivity.
Qed.

Ltac sample_replies :=
  eexists _, _;
  split; [reflexivity
         | split; [reflexivity
                  | split; [vm_compute; reflexivity | vm_compute; reflexivity]]].

Lemma estimate_nutrition_verbatim_witness :
  result (EstimateNutrition.handler
            (runtime_of server_key (Resolves (completion chicken_array)))
            chicken_query)
  = inr {| status := 200;
           headers := EstimateNutrition.json_headers;
           body := JSON_stringify (VObj [("results", chicken_value)]) |}.
Proof.
  apply (proj1 (estimate_nutrition_verbatim
                  (runtime_of server_key (Resolves (completion chicken_array)))
                  chicken_query
                  (VObj [("foodQuery", VStr "grilled chicken breast")])
                  (VStr "grilled chicken breast") chicken_value
                  "grilled chicken breast" chicken_array
                  ltac:(discriminate) ltac:(vm_compute; reflexivity)
                  eq_refl eq_refl eq_refl ltac:(sample_replies)
                  ltac:(vm_compute; reflexivity))).
Defined.

(** C5, as amended.  For the body with the food query grilled chicken
    breast: when the raw reply is the object with a [results] field,
    the response is HTTP 200 and its body wraps that whole object as
    the single element of a results list; the body is exactly the
    object of the claim when the raw reply is the bare array of the
    item, the form the prompt of the function asks for. *)
Theorem chicken_reply_bodies (rt : runtime) :
  (replies rt
     (EstimateNutrition.openai_request rt "grilled chicken breast")
     (VStr chicken_object) ->
   result (EstimateNutrition.handler rt chicken_query)
   = inr {| status := 200;
            headers := EstimateNutrition.json_headers;
            body := Some chicken_wrapped |})
  /\ (replies rt
        (EstimateNutrition.openai_request rt "grilled chicken breast")
        (VStr chicken_array) ->
      result (EstimateNutrition.handler rt chicken_query)
      = inr {| status := 200;
               headers := EstimateNutrition.json_headers;
               body := Some chicken_object |}).
Proof.
  assert (Hb : JSON_parse (req_body chicken_query)
               = Some (VObj [("foodQuery", VStr "grilled chicken breast")]))
    by (vm_compute; reflexivity).
  split; intros Hr.
  - rewrite (estimate_nutrition_success rt chicken_query _ _
               (VObj [("results", chicken_value)]) _ chicken_object
               ltac:(discriminate) Hb eq_refl eq_refl eq_refl Hr
               ltac:(vm_compute; reflexivity)).
    vm_compute. reflexivity.
  - rewrite (estimate_nutrition_success rt chicken_query _ _
               chicken_value _ chicken_array
               ltac:(discriminate) Hb eq_refl eq_refl eq_refl Hr
               ltac:(vm_compute; reflexivity)).
    vm_compute. reflexivity.
Qed.

Lemma chicken_reply_bodies_witness :
  result (EstimateNutrition.handler
            (runtime_of server_key (Resolves (completion chicken_object)))
            chicken_query)
  = inr {| status := 200;
           headers := EstimateNutrition.json_headers;
           body := Some chicken_wrapped |}.
Proof.
  apply (proj1 (chicken_reply_bodies
                  (runtime_of server_key (Resolves (completion chicken_object))))).
  sample_replies.
Defined.

(** C5, as stated, fails: with the object reply of the claim the body
    is not that object, the object is nested in a results list. *)
Lemma chicken_object_reply_wrapped :
  result (EstimateNutrition.handler
            (runtime_of server_key (Resolves (completion chicken_object)))
            chicken_query)
  = inr {| status := 200;
           headers := EstimateNutrition.json_headers;
           body := Some chicken_wrapped |}
  /\ chicken_wrapped <> chicken_object.
Proof. split; [vm_compute; reflexivity | discriminate]. Qed.

(** *** Requests without content, requests without credential *)

(** C7, as amended.  For a request other than OPTIONS whose JSON body
    is not null: a missing or falsy [foodQuery] is answered by
    [estimate-nutrition] with HTTP 400 and an [error] message, and a
    missing or falsy [image] likewise by [scan-meal], in both cases
    without any outbound call; the client-side [searchFood] stops on a
    query that is empty after trimming, with a message and without any
    call. *)
Theorem missing_query_rejected (rt : runtime) (req : request) (b : value) :
  method req <> "OPTIONS" ->
  JSON_parse (req_body req) = Some b ->
  nullish b = false ->
  (truthy (get_opt b "foodQuery") = false ->
   EstimateNutrition.handler rt req
   = (inr {| status := 400;
             headers := EstimateNutrition.json_headers;
             body := JSON_stringify
                       (VObj [("error", VStr "Food query is required")]) |},
      []))
  /\ (truthy (get_opt b "image") = false ->
      ScanMeal.handler rt req
      = (inr (ScanMeal.json_response 400
                (VObj [("error", VStr "No image provided")])),
         []))
  /\ (forall searchQuery,
        trim searchQuery = EmptyString ->
        Client.searchFood rt searchQuery
        = (inr tt,
           [ Ui (Toast {| title := "Error";
                          description := "Please enter a food item to search for.";
                          destructive := true |}) ])).
Proof.
  intros Hm Hb Hn. split; [| split].
  - intros Hq. unfold EstimateNutrition.handler. rewrite (not_options _ Hm).
    monad_unfold. rewrite Hb, (get_total _ _ Hn), Hq. reflexivity.
  - intros Hq. unfold ScanMeal.handler. rewrite (not_options _ Hm).
    monad_unfold. rewrite Hb, !(get_total _ _ Hn), Hq. reflexivity.
  - intros searchQuery Hq. unfold Client.searchFood. rewrite Hq. reflexivity.
Qed.

Lemma missing_query_rejected_witness :
  EstimateNutrition.handler (runtime_of server_key (Resolves unavailable))
                            (post (js "{'foodQuery':''}"))
  = (inr {| status := 400;
            headers := EstimateNutrition.json_headers;
            body := JSON_stringify
                      (VObj [("error", VStr "Food query is required")]) |},
     []).
Proof.
  apply (proj1 (missing_query_rejected
                  (runtime_of server_key (Resolves unavailable))
                  (post (js "{'foodQuery':''}"))
                  (VObj [("foodQuery", VStr EmptyString)])
                  ltac:(discriminate) ltac:(vm_compute; reflexivity) eq_refl)).
  reflexivity.
Defined.

(** C7, as stated, fails: a query of blanks passes the check of
    [estimate-nutrition], which calls the model and answers 200. *)
Lemma blank_query_forwarded :
  trim "   " = EmptyString
  /\ outbound_calls
       (EstimateNutrition.handler
          (runtime_of server_key (Resolves (completion chicken_array)))
          (post (js "{'foodQuery':'   '}")))
     = [ Outbound
           (EstimateNutrition.openai_request
              (runtime_of server_key (Resolves (completion chicken_array)))
              "   ") ]
  /\ result
       (EstimateNutrition.handler
          (runtime_of server_key (Resolves (completion chicken_array)))
          (post (js "{'foodQuery':'   '}")))
     = inr {| status := 200;
              headers := EstimateNutrition.json_headers;
              body := Some chicken_object |}.
Proof. vm_compute. repeat split. Qed.

(** C8, as amended.  For a request to [scan-meal] other than OPTIONS
    whose JSON body carries an image, when the variable OPENAI_API_KEY
    is absent or empty the response is HTTP 500 with a body whose
    [error] message says that the key is not configured, and no
    outbound call is made. *)
Theorem missing_credential_rejected (rt : runtime) (req : request) (b : value) :
  method req <> "OPTIONS" ->
  JSON_parse (req_body req) = Some b ->
  nullish b = false ->
  truthy (get_opt b "image") = true ->
  env rt "OPENAI_API_KEY" = None \/ env rt "OPENAI_API_KEY" = Some EmptyString ->
  ScanMeal.handler rt req
  = (inr {| status := 500;
            headers := ScanMeal.json_headers;
            body := Some (js "{'error':'OpenAI API key not configured'}") |},
     []).
Proof.
  intros Hm Hb Hn Hi He. unfold ScanMeal.handler. rewrite (not_options _ Hm).
  monad_unfold. rewrite Hb, !(get_total _ _ Hn), Hi.
  destruct He as [-> | ->]; reflexivity.
Qed.

Lemma missing_credential_rejected_witness :
  ScanMeal.handler (runtime_of [] (Resolves unavailable)) photo_request
  = (inr {| status := 500;
            headers := ScanMeal.json_headers;
            body := Some (js "{'error':'OpenAI API key not configured'}") |},
     []).
Proof.
  apply (missing_credential_rejected
           (runtime_of [] (Resolves unavailable)) photo_request
           (VObj [("image", VStr "data:image/png;base64,iVBORw0KGgo=")])
           ltac:(discriminate) ltac:(vm_compute; reflexivity) eq_refl eq_refl).
  left. reflexivity.
Defined.

(** C8, as stated, fails: without the credential, [scan-meal] answers
    a request that has no image with 400, and [estimate-nutrition]
    does call the model, with the bearer token [undefined]. *)
Lemma credential_check_not_first :
  env (runtime_of [] (Resolves unavailable)) "OPENAI_API_KEY" = None
  /\ ScanMeal.handler (runtime_of [] (Resolves unavailable)) (post "{}")
     = (inr {| status := 400;
               headers := ScanMeal.json_headers;
               body := Some (js "{'error':'No image provided'}") |},
        [])
  /\ env (runtime_of [] (Resolves unavailable)) "OPENAI_KEY" = None
  /\ map (fun e => match e with
                   | Outbound call => fetch_headers call
                   | Ui _ => []
                   end)
         (outbound_calls
            (EstimateNutrition.handler
               (runtime_of [] (Resolves unavailable)) chicken_query))
     = [ [ ("Authorization", "Bearer undefined");
           ("Content-Type", "application/json") ] ].
Proof. vm_compute. repeat split. Qed.

End GatewayFacts.

(** ** The client-side extraction *)

Module ClientFacts.

Lemma from_first_skip (c : ascii) (pre rest : list ascii) :
  forallb (fun a => negb (Ascii.eqb a c)) pre = true ->
  Client.from_first c (pre ++ c :: rest)%list = Some (c :: rest).
Proof.
  induction pre as [| a pre IH]; cbn; intros H.
  - now rewrite Ascii.eqb_refl.
  - apply andb_true_iff in H as [Ha Hp]. apply negb_true_iff in Ha.
    rewrite Ha. auto.
Qed.

Lemma upto_last_none (c : ascii) (post : list ascii) :
  forallb (fun a => negb (Ascii.eqb a c)) post = true ->
  Client.upto_last c post = None.
Proof.
  induction post as [| a post IH]; cbn; intros H; [reflexivity |].
  apply andb_true_iff in H as [Ha Hp]. apply negb_true_iff in Ha.
  now rewrite (IH Hp), Ha.
Qed.

Lemma upto_last_keep (c : ascii) (l post : list ascii) :
  forallb (fun a => negb (Ascii.eqb a c)) post = true ->
  Client.upto_last c (l ++ c :: post)%list = Some (l ++ [c])%list.
Proof.
  intros H. induction l as [| a l IH]; cbn.
  - now rewrite (upto_last_none c post H), Ascii.eqb_refl.
  - now rewrite IH.
Qed.

(** The match is the text from the first opening brace to the last
    closing brace. *)
Lemma match_braces_embedded (pre mid post : string) :
  lacks "{" pre = true ->
  lacks "}" post = true ->
  Client.match_braces (pre ++ String "{" (mid ++ String "}" post))
  = Some (String "{" (mid ++ "}")).
Proof.
  intros Hpre Hpost. unfold Client.match_braces.
  rewrite list_ascii_app. cbn [list_ascii_of_string].
  rewrite (from_first_skip _ _ _ Hpre), list_ascii_app.
  cbn [list_ascii_of_string].
  change ("{"%char :: (list_ascii_of_string mid
                       ++ "}"%char :: list_ascii_of_string post)%list)
    with ((("{"%char :: list_ascii_of_string mid)
           ++ "}"%char :: list_ascii_of_string post)%list).
  rewrite (upto_last_keep _ _ _ Hpost). cbn [option_map].
  f_equal. cbn [app string_of_list_ascii]. f_equal.
  rewrite string_of_list_app, string_of_list_ascii_of_string. reflexivity.
Qed.

Lemma banana_extracted (pre post : string) :
  lacks "{" pre = true ->
  lacks "}" post = true ->
  Client.match_braces (pre ++ banana_text ++ post) = Some banana_text.
Proof.
  intros Hpre Hpost.
  change (banana_text ++ post) with (String "{" (banana_inside ++ String "}" post)).
  rewrite (match_braces_embedded pre banana_inside post Hpre Hpost). reflexivity.
Qed.

Lemma banana_parsed :
  JSON_parse banana_text = Some (VObj [("results", VArr [banana_item])]).
Proof. vm_compute. reflexivity. Qed.

(** C6, as amended.  The client-side parser takes the text from the
    first opening brace to the last closing brace of the raw reply;
    for the Banana object embedded in prose that has no opening brace
    before it and no closing brace after it, the match is exactly the
    object and parsing shows exactly that one item, every field value
    unchanged. *)
Theorem banana_extracted_from_prose (searchQuery pre post : string) :
  lacks "{" pre = true ->
  lacks "}" post = true ->
  Client.match_braces (pre ++ banana_text ++ post) = Some banana_text
  /\ Client.search_parse searchQuery (VStr (pre ++ banana_text ++ post))
     = (inr tt,
        [ Ui (SetSearchResults [banana_item]);
          Ui (Toast (found_toast searchQuery "1")) ]).
Proof.
  intros Hpre Hpost. split; [now apply banana_extracted |].
  unfold Client.search_parse, Client.extract_json.
  rewrite (banana_extracted pre post Hpre Hpost). monad_unfold.
  rewrite banana_parsed. reflexivity.
Qed.

Lemma banana_extracted_from_prose_witness :
  Client.search_parse "banana"
    (VStr ("Here is the estimate: " ++ banana_text ++ " Enjoy!"))
  = (inr tt,
     [ Ui (SetSearchResults [banana_item]);
       Ui (Toast (found_toast "banana" "1")) ]).
Proof.
  apply (proj2 (banana_extracted_from_prose
                  "banana" "Here is the estimate: " " Enjoy!" eq_refl eq_refl)).
Defined.

(** C6, as stated, fails: with a second pair of braces in the prose
    the first balanced substring is the Banana object, but the match
    of the parser runs to the last brace, the parse fails and the
    fallback item is shown; and [scan-meal] extracts nothing, prose
    around the object gives its fallback item. *)
Lemma greedy_match_not_first_balanced :
  first_balanced (banana_text ++ " or {}") = Some banana_text
  /\ Client.match_braces (banana_text ++ " or {}")
     = Some (banana_text ++ " or {}")
  /\ Client.search_parse "banana" (VStr (banana_text ++ " or {}"))
     = (inr tt,
        [ Ui (SetSearchResults [Client.search_fallback "banana"]);
          Ui (Toast estimated_toast) ])
  /\ result (ScanMeal.handler
               (runtime_of server_key
                  (Resolves (completion ("Here it is: " ++ banana_text))))
               photo_request)
     = inr (ScanMeal.json_response 200
              (VObj [("results", VArr [ScanMeal.fallback])])).
Proof. vm_compute. repeat split. Qed.

(** The parse stage of the client never shows an empty list. *)
Lemma scan_parse_shows (content : value) :
  exists items t,
    Client.scan_parse content
    = (inr tt, [Ui (SetSearchResults items); Ui (Toast t)])
    /\ items <> [].
Proof.
  unfold Client.scan_parse, Client.toast. monad_unfold.
  repeat (split_goal_match; cbn [fst snd app]); same_pairs; try discriminate;
    (eexists _, _; split; [reflexivity | discriminate]).
Qed.

Lemma search_parse_shows (searchQuery : string) (content : value) :
  exists items t,
    Client.search_parse searchQuery content
    = (inr tt, [Ui (SetSearchResults items); Ui (Toast t)])
    /\ items <> [].
Proof.
  unfold Client.search_parse, Client.toast. monad_unfold.
  repeat (split_goal_match; cbn [fst snd app]); same_pairs; try discriminate;
    (eexists _, _; split; [reflexivity | discriminate]).
Qed.

End ClientFacts.

(** * Further properties *)

Import Terms.


Module EdgeFacts.

Import GatewayFacts.

Lemma ensure_array_array (v : value) :
  exists items, EstimateNutrition.ensure_array v = VArr items.
Proof.
  unfold EstimateNutrition.ensure_array.
  destruct v; cbn; eauto.
Qed.

Ltac close_envelope :=
  eexists; split; [reflexivity |];
  unfold enveloped; cbn [headers status body ScanMeal.json_response];
  split; [cbn; auto |];
  split; [intros; congruence |];
  intros _; split; [cbn; auto 10 |];
  first [ left; split; [reflexivity | eexists; reflexivity]
        | right; split; [auto | do 2 eexists; reflexivity] ].

(** Whatever the request and the model, [scan-meal] answers with a
    response that carries the CORS header: an empty 200 for a
    preflight, otherwise a JSON object that holds an array under
    [results] with status 200 or an [error] message with status 400 or
    500. *)
Lemma scan_meal_enveloped (rt : runtime) (req : request) :
  exists r, result (ScanMeal.handler rt req) = inr r /\ enveloped req r.
Proof.
  unfold result, ScanMeal.handler, ScanMeal.parse_or_fallback. monad_unfold.
  destruct (String.eqb_spec (method req) "OPTIONS") as [E | NE].
  - eexists. split; [reflexivity |]. unfold enveloped. cbn.
    split; [auto |]. split; [auto | intros; congruence].
  - repeat (split_goal_match; cbn [fst snd app negb]);
      try match goal with
          | E : ScanMeal.parse_content ?c = (inr ?r, _) |- _ =>
              let H := fresh in
              assert (H : result (ScanMeal.parse_content c) = inr r)
                by (rewrite E; reflexivity);
              apply parse_content_ok in H as (? & ? & ? & ? & _ & _ & _ & -> & _)
          end;
      close_envelope.
Qed.

(** The same for [estimate-nutrition]: no request makes it answer
    outside that envelope. *)
Lemma estimate_nutrition_enveloped (rt : runtime) (req : request) :
  exists r, result (EstimateNutrition.handler rt req) = inr r /\ enveloped req r.
Proof.
  unfold result, EstimateNutrition.handler. monad_unfold.
  destruct (String.eqb_spec (method req) "OPTIONS") as [E | NE].
  - eexists. split; [reflexivity |]. unfold enveloped. cbn.
    split; [auto |]. split; [auto | intros; congruence].
  - repeat (split_goal_match; cbn [fst snd app negb]);
      try match goal with
          | |- context [EstimateNutrition.ensure_array ?v] =>
              destruct (ensure_array_array v) as (? & ->)
          end;
      close_envelope.
Qed.


Ltac close_calls :=
  unfold at_most_one_call;
  first [ left; reflexivity
        | right; eexists; split; [reflexivity | split; reflexivity] ].

(** Neither edge function talks to the outside more than once in a
    request, and then it is a POST to the chat completions endpoint. *)
Lemma edge_functions_call_once (rt : runtime) (req : request) :
  at_most_one_call (trace (ScanMeal.handler rt req))
  /\ at_most_one_call (trace (EstimateNutrition.handler rt req)).
Proof.
  split.
  - unfold trace, ScanMeal.handler, ScanMeal.parse_or_fallback. monad_unfold.
    repeat (split_goal_match; try use_pure; cbn [fst snd app negb]);
      close_calls.
  - unfold trace, EstimateNutrition.handler. monad_unfold.
    repeat (split_goal_match; cbn [fst snd app negb]); close_calls.
Qed.

(** [scan-meal] calls the model only for a request other than a
    preflight whose body has a non-empty text under [image], and with a
    key from the environment that is not empty; the call is the one
    made from that key and from the image without its data URL
    prefix. *)
Lemma scan_meal_call_guarded (rt : runtime) (req : request) (c : fetch_request) :
  In (Outbound c) (trace (ScanMeal.handler rt req)) ->
  method req <> "OPTIONS"
  /\ exists b image key,
       JSON_parse (req_body req) = Some b
       /\ get b "image" = inr (VStr image)
       /\ image <> EmptyString
       /\ env rt "OPENAI_API_KEY" = Some key
       /\ key <> EmptyString
       /\ c = ScanMeal.openai_request key (ScanMeal.strip_data_url image).
Proof.
  unfold trace, ScanMeal.handler, ScanMeal.parse_or_fallback,
    ScanMeal.replace_data_url.
  monad_unfold.
  destruct (String.eqb_spec (method req) "OPTIONS") as [E | NE];
    [intros [] |].
  repeat (split_goal_match; try use_pure; cbn [fst snd app negb In]);
    intros Hin; try solve [destruct Hin];
    destruct Hin as [Hin | []]; injection Hin as <-;
    (split; [assumption |]);
    same_pairs.
  all: try discriminate.
  all: eexists _, _, _; repeat split; try eassumption; try discriminate.
  all: intros ->; discriminate.
Qed.

(** The sample: the photo request against a model that is down. *)
Lemma scan_meal_call_guarded_witness :
  method photo_request <> "OPTIONS"
  /\ exists b image key,
       JSON_parse (req_body photo_request) = Some b
       /\ get b "image" = inr (VStr image)
       /\ image <> EmptyString
       /\ env (runtime_of server_key (Resolves unavailable)) "OPENAI_API_KEY"
          = Some key
       /\ key <> EmptyString
       /\ ScanMeal.openai_request "sk-test" "iVBORw0KGgo="
          = ScanMeal.openai_request key (ScanMeal.strip_data_url image).
Proof.
  apply (scan_meal_call_guarded (runtime_of server_key (Resolves unavailable))
           photo_request (ScanMeal.openai_request "sk-test" "iVBORw0KGgo=")).
  vm_compute. left. reflexivity.
Defined.



(** *** The data URL prefix *)

Lemma prefix_of_same (p r : list ascii) : prefix_of p (p ++ r) = Some r.
Proof.
  induction p as [| a p IH]; cbn; [reflexivity |].
  now rewrite Ascii.eqb_refl.
Qed.

Lemma span_app (p : ascii -> bool) (l a b : list ascii) :
  span p l = (a, b) -> l = (a ++ b)%list /\ forallb p a = true.
Proof.
  revert a b. induction l as [| c l IH]; cbn; intros a b H.
  - injection H as <- <-. auto.
  - destruct (p c) eqn:Hc.
    + destruct (span p l) as [a' b'] eqn:E. injection H as <- <-.
      destruct (IH a' b' eq_refl) as [-> Ha]. cbn. now rewrite Hc.
    + injection H as <- <-. auto.
Qed.

Lemma span_stop (p : ascii -> bool) (a : list ascii) (c : ascii) (r : list ascii) :
  forallb p a = true -> p c = false -> span p (a ++ c :: r) = (a, c :: r).
Proof.
  intros Ha Hc. induction a as [| x a IH]; cbn.
  - now rewrite Hc.
  - cbn in Ha. apply andb_true_iff in Ha as [Hx Ha].
    now rewrite Hx, (IH Ha).
Qed.

Lemma string_list_inv (s : string) (l : list ascii) :
  list_ascii_of_string s = l -> s = string_of_list_ascii l.
Proof. intros <-. now rewrite string_of_list_ascii_of_string. Qed.

(** The prefix that [scan-meal] takes off an image: the result
    differs from the text exactly when the text is
    [data:image/<format>;base64,<payload>] for a non-empty lower-case
    format, and it is then the payload. *)
Lemma data_url_stripped (s payload : string) :
  payload <> s ->
  ScanMeal.strip_data_url s = payload
  <-> exists format,
        format <> EmptyString
        /\ lowercase format = true
        /\ s = "data:image/" ++ format ++ ";base64," ++ payload.
Proof.
  intros Hne. unfold ScanMeal.strip_data_url, lowercase. split.
  - destruct (prefix_of _ (list_ascii_of_string s)) as [r |] eqn:E1;
      [| intros <-; contradiction].
    destruct (span is_lower r) as [[| c f] r2] eqn:E2;
      [intros <-; contradiction |].
    destruct (prefix_of (list_ascii_of_string ";base64,") r2) as [rest |] eqn:E3;
      [| intros <-; contradiction].
    intros <-. apply JsonFacts.prefix_of_app in E1, E3.
    apply span_app in E2 as [-> Hf]. subst r2.
    exists (string_of_list_ascii (c :: f)).
    split; [discriminate |].
    split; [now rewrite list_ascii_of_string_of_list_ascii |].
    apply string_list_inv in E1. rewrite E1.
    now rewrite !string_of_list_app.
  - intros (format & Hf & Hl & ->).
    rewrite !list_ascii_app, prefix_of_same.
    change (list_ascii_of_string ";base64,")
      with (";"%char :: list_ascii_of_string "base64,").
    cbn [app]. rewrite (span_stop is_lower _ ";"%char _ Hl eq_refl).
    destruct (list_ascii_of_string format) as [| c f] eqn:Ef.
    + apply string_list_inv in Ef. contradiction.
    + change (";"%char :: (list_ascii_of_string "base64," ++ list_ascii_of_string payload))%list
        with (list_ascii_of_string ";base64," ++ list_ascii_of_string payload)%list.
      rewrite prefix_of_same. apply string_of_list_ascii_of_string.
Qed.

Lemma data_url_stripped_witness :
  ScanMeal.strip_data_url "data:image/png;base64,iVBORw0KGgo=" = "iVBORw0KGgo="
  <-> exists format,
        format <> EmptyString
        /\ lowercase format = true
        /\ "data:image/png;base64,iVBORw0KGgo="
           = "data:image/" ++ format ++ ";base64," ++ "iVBORw0KGgo=".
Proof.
  apply (data_url_stripped "data:image/png;base64,iVBORw0KGgo=" "iVBORw0KGgo=").
  discriminate.
Defined.

(** For a food query that prints as a text, when the text of the
    reply, trimmed, is not JSON, [estimate-nutrition] still answers
    200, with the one generic item named after the query. *)
Lemma estimate_nutrition_unparseable
      (rt : runtime) (req : request) (b q : value) (text raw : string) :
  method req <> "OPTIONS" ->
  JSON_parse (req_body req) = Some b ->
  get b "foodQuery" = inr q ->
  truthy q = true ->
  ToString q = inr text ->
  replies rt (EstimateNutrition.openai_request rt text) (VStr raw) ->
  JSON_parse (trim raw) = None ->
  EstimateNutrition.handler rt req
  = (inr {| status := 200;
            headers := EstimateNutrition.json_headers;
            body := JSON_stringify
                      (VObj [("results",
                              VArr [VObj
                                [ ("name", VStr (text ++ " (estimated)"));
                                  ("calories", VNum (of_Z 100));
                                  ("protein", VNum (of_Z 5));
                                  ("carbs", VNum (of_Z 15));
                                  ("fat", VNum (of_Z 3));
                                  ("serving_size", VStr "100g") ]])]) |},
     [Outbound (EstimateNutrition.openai_request rt text)]).
Proof.
  intros Hm Hb Hq Ht Hs (resp & data & Hn & Hok & Hd & Hc) Hv.
  unfold EstimateNutrition.handler. rewrite (not_options _ Hm).
  monad_unfold. rewrite Hb, Hq. cbn [negb]. rewrite Ht. cbn [negb].
  rewrite Hs, Hn, Hok. cbn [negb]. rewrite Hd, Hc. cbn [call_trim]. rewrite Hv.
  reflexivity.
Qed.

Lemma estimate_nutrition_unparseable_witness :
  EstimateNutrition.handler
    (runtime_of server_key (Resolves (completion "About 165 kcal per 100g.")))
    chicken_query
  = (inr {| status := 200;
            headers := EstimateNutrition.json_headers;
            body := JSON_stringify
                      (VObj [("results",
                              VArr [VObj
                                [ ("name",
                                   VStr ("grilled chicken breast"
                                         ++ " (estimated)"));
                                  ("calories", VNum (of_Z 100));
                                  ("protein", VNum (of_Z 5));
                                  ("carbs", VNum (of_Z 15));
                                  ("fat", VNum (of_Z 3));
                                  ("serving_size", VStr "100g") ]])]) |},
     [Outbound (EstimateNutrition.openai_request
                  (runtime_of server_key
                     (Resolves (completion "About 165 kcal per 100g.")))
                  "grilled chicken breast")]).
Proof.
  apply (estimate_nutrition_unparseable _ chicken_query
           (VObj [("foodQuery", VStr "grilled chicken breast")])
           (VStr "grilled chicken breast") "grilled chicken breast"
           "About 165 kcal per 100g.").
  - discriminate.
  - vm_compute. reflexivity.
  - reflexivity.
  - reflexivity.
  - reflexivity.
  - sample_replies.
  - vm_compute. reflexivity.
Defined.

(** For a food query that prints as a text, a 2xx completion without
    a text, because its body is not JSON or because
    [choices[0].message.content] is missing or not a string, makes
    [estimate-nutrition] answer 500 after its one call; a food query
    that does not print makes it answer 500 without any call. *)
Lemma estimate_nutrition_no_text
      (rt : runtime) (req : request) (b q : value) :
  method req <> "OPTIONS" ->
  JSON_parse (req_body req) = Some b ->
  get b "foodQuery" = inr q ->
  truthy q = true ->
  (forall (text : string) (resp : upstream_response),
      ToString q = inr text ->
      network rt (EstimateNutrition.openai_request rt text) = Resolves resp ->
      ok resp = true ->
      no_text resp ->
      exists details,
        EstimateNutrition.handler rt req
        = (inr {| status := 500;
                  headers := EstimateNutrition.json_headers;
                  body := JSON_stringify
                            (VObj [ ("error", VStr "Failed to estimate nutrition");
                                    ("details", VStr details) ]) |},
           [Outbound (EstimateNutrition.openai_request rt text)]))
  /\ (forall e : exn,
        ToString q = inl e ->
        EstimateNutrition.handler rt req
        = (inr {| status := 500;
                  headers := EstimateNutrition.json_headers;
                  body := JSON_stringify
                            (VObj [ ("error", VStr "Failed to estimate nutrition");
                                    ("details", VStr (exn_message rt e)) ]) |},
           [])).
Proof.
  intros Hm Hb Hq Ht. split.
  - intros text resp Hs Hn Hok Hno. unfold no_text in Hno.
    unfold EstimateNutrition.handler. rewrite (not_options _ Hm).
    monad_unfold. rewrite Hb, Hq. cbn [negb]. rewrite Ht. cbn [negb].
    rewrite Hs, Hn, Hok. cbn [negb].
    destruct (JSON_parse (body_text resp)) as [data |]; [| eexists; reflexivity].
    destruct (content_of data) as [e | c] eqn:Hc; [eexists; reflexivity |].
    destruct c; try (eexists; reflexivity).
    now destruct (Hno s).
  - intros e Hs.
    unfold EstimateNutrition.handler. rewrite (not_options _ Hm).
    monad_unfold. rewrite Hb, Hq. cbn [negb]. rewrite Ht. cbn [negb].
    rewrite Hs. reflexivity.
Qed.

Lemma estimate_nutrition_no_text_witness :
  exists details,
    EstimateNutrition.handler
      (runtime_of server_key
         (Resolves {| up_status := 200; statusText := "OK";
                      body_bytes := js "{'choices':[]}" |}))
      chicken_query
    = (inr {| status := 500;
              headers := EstimateNutrition.json_headers;
              body := JSON_stringify
                        (VObj [ ("error", VStr "Failed to estimate nutrition");
                                ("details", VStr details) ]) |},
       [Outbound (EstimateNutrition.openai_request
                    (runtime_of server_key
                       (Resolves {| up_status := 200; statusText := "OK";
                                    body_bytes := js "{'choices':[]}" |}))
                    "grilled chicken breast")]).
Proof.
  apply (proj1 (estimate_nutrition_no_text _ chicken_query
                  (VObj [("foodQuery", VStr "grilled chicken breast")])
                  (VStr "grilled chicken breast")
                  ltac:(discriminate) ltac:(vm_compute; reflexivity)
                  eq_refl eq_refl)
           "grilled chicken breast"
           {| up_status := 200; statusText := "OK";
              body_bytes := js "{'choices':[]}" |}).
  - reflexivity.
  - reflexivity.
  - reflexivity.
  - vm_compute. discriminate.
Defined.

(** A 2xx completion whose first choice has no content, an empty
    list of choices included, makes [scan-meal] answer 500 with
    [No analysis returned from AI]. *)
Lemma scan_meal_no_analysis
      (rt : runtime) (req : request) (b : value) (image key : string)
      (resp : upstream_response) (data content : value) :
  method req <> "OPTIONS" ->
  JSON_parse (req_body req) = Some b ->
  get b "image" = inr (VStr image) ->
  image <> EmptyString ->
  env rt "OPENAI_API_KEY" = Some key ->
  key <> EmptyString ->
  network rt (ScanMeal.openai_request key (ScanMeal.strip_data_url image))
  = Resolves resp ->
  ok resp = true ->
  JSON_parse (body_text resp) = Some data ->
  optional_content_of data = inr content ->
  truthy content = false ->
  ScanMeal.handler rt req
  = (inr (ScanMeal.json_response 500
            (VObj [("error", VStr "No analysis returned from AI")])),
     [Outbound (ScanMeal.openai_request key (ScanMeal.strip_data_url image))]).
Proof.
  intros Hm Hb Hi Hne He Hk Hn Hok Hd Hc Ht.
  assert (Hnn : nullish b = false)
    by (destruct b; try reflexivity; discriminate Hi).
  unfold ScanMeal.handler. rewrite (not_options _ Hm).
  monad_unfold. rewrite Hb, Hi, (get_total _ _ Hnn).
  assert (Hti : truthy (VStr image) = true).
  { cbn. apply negb_true_iff. now apply String.eqb_neq. }
  rewrite Hti. cbn [negb]. rewrite He.
  destruct key as [| a k]; [contradiction |].
  cbn [ScanMeal.replace_data_url]. rewrite Hn, Hok. cbn [negb].
  rewrite Hd, Hc, Ht. reflexivity.
Qed.

Lemma scan_meal_no_analysis_witness :
  ScanMeal.handler
    (runtime_of server_key
       (Resolves {| up_status := 200; statusText := "OK";
                    body_bytes := js "{'choices':[]}" |}))
    photo_request
  = (inr (ScanMeal.json_response 500
            (VObj [("error", VStr "No analysis returned from AI")])),
     [Outbound (ScanMeal.openai_request "sk-test"
                  (ScanMeal.strip_data_url "data:image/png;base64,iVBORw0KGgo="))]).
Proof.
  apply (scan_meal_no_analysis _ photo_request
           (VObj [("image", VStr "data:image/png;base64,iVBORw0KGgo=")])
           "data:image/png;base64,iVBORw0KGgo=" "sk-test"
           {| up_status := 200; statusText := "OK";
              body_bytes := js "{'choices':[]}" |}
           (VObj [("choices", VArr [])]) Undefined).
  - discriminate.
  - vm_compute. reflexivity.
  - reflexivity.
  - discriminate.
  - reflexivity.
  - discriminate.
  - reflexivity.
  - reflexivity.
  - vm_compute. reflexivity.
  - reflexivity.
  - reflexivity.
Defined.

(** A request whose body is not JSON, or is the JSON [null], is
    answered 500 by both edge functions without any call to the
    model. *)
Lemma unusable_body_rejected (rt : runtime) (req : request) :
  method req <> "OPTIONS" ->
  JSON_parse (req_body req) = None
  \/ JSON_parse (req_body req) = Some Null ->
  (exists message,
     ScanMeal.handler rt req
     = (inr (ScanMeal.json_response 500
               (VObj [ ("error", VStr "Internal server error");
                       ("message", VStr message) ])), []))
  /\ (exists details,
        EstimateNutrition.handler rt req
        = (inr {| status := 500;
                  headers := EstimateNutrition.json_headers;
                  body := JSON_stringify
                            (VObj [ ("error", VStr "Failed to estimate nutrition");
                                    ("details", VStr details) ]) |}, [])).
Proof.
  intros Hm Hb.
  unfold ScanMeal.handler, EstimateNutrition.handler.
  rewrite (not_options _ Hm). monad_unfold.
  destruct Hb as [-> | ->]; split; eexists; reflexivity.
Qed.

Lemma unusable_body_rejected_witness :
  (exists message,
     ScanMeal.handler (runtime_of server_key (Resolves unavailable))
                      (post "image=abc")
     = (inr (ScanMeal.json_response 500
               (VObj [ ("error", VStr "Internal server error");
                       ("message", VStr message) ])), []))
  /\ (exists details,
        EstimateNutrition.handler (runtime_of server_key (Resolves unavailable))
                                  (post "image=abc")
        = (inr {| status := 500;
                  headers := EstimateNutrition.json_headers;
                  body := JSON_stringify
                            (VObj [ ("error", VStr "Failed to estimate nutrition");
                                    ("details", VStr details) ]) |}, [])).
Proof.
  apply (unusable_body_rejected _ (post "image=abc")).
  - discriminate.
  - left. vm_compute. reflexivity.
Defined.

(** The body is read as the platform reads it: a byte order mark
    before the JSON text is dropped, and the request is served. *)
Lemma marked_body_read :
  req_body (post (string_of_list_ascii byte_order_mark
                  ++ js "{'foodQuery':'grilled chicken breast'}"))
  = req_body chicken_query
  /\ result (EstimateNutrition.handler
               (runtime_of server_key (Resolves (completion chicken_array)))
               (post (string_of_list_ascii byte_order_mark
                      ++ js "{'foodQuery':'grilled chicken breast'}")))
     = inr {| status := 200;
              headers := EstimateNutrition.json_headers;
              body := Some chicken_object |}.
Proof. vm_compute. split; reflexivity. Qed.

End EdgeFacts.

Module ScreenFacts.

Import GatewayFacts ClientFacts EdgeFacts.

(** The parse stage ends in results that are not empty and a notice
    that is not a warning. *)
Lemma scan_parse_friendly (content : value) :
  exists items t,
    Client.scan_parse content
    = (inr tt, [Ui (SetSearchResults items); Ui (Toast t)])
    /\ items <> [] /\ destructive t = false.
Proof.
  unfold Client.scan_parse, Client.toast. monad_unfold.
  repeat (split_goal_match; cbn [fst snd app]); same_pairs; try discriminate;
    (eexists _, _; split; [reflexivity | split; [discriminate | reflexivity]]).
Qed.

Lemma search_parse_friendly (searchQuery : string) (content : value) :
  exists items t,
    Client.search_parse searchQuery content
    = (inr tt, [Ui (SetSearchResults items); Ui (Toast t)])
    /\ items <> [] /\ destructive t = false.
Proof.
  unfold Client.search_parse, Client.toast. monad_unfold.
  repeat (split_goal_match; cbn [fst snd app]); same_pairs; try discriminate;
    (eexists _, _; split; [reflexivity | split; [discriminate | reflexivity]]).
Qed.

Ltac use_shows :=
  match goal with
  | |- context [Client.search_parse ?q ?c] =>
      let E := fresh in
      destruct (search_parse_friendly q c) as (? & ? & E & ? & ?); rewrite E
  | |- context [Client.scan_parse ?c] =>
      let E := fresh in
      destruct (scan_parse_friendly c) as (? & ? & E & ? & ?); rewrite E
  end.

Ltac split_trace :=
  lazymatch goal with
  | |- exists calls shown, [_; Outbound ?c; ?x; ?y; _] = _ /\ _ =>
      exists [Outbound c], [x; y]
  | |- exists calls shown, [_; Outbound ?c; ?x; _] = _ /\ _ =>
      exists [Outbound c], [x]
  | |- exists calls shown, [_; ?x; ?y; _] = _ /\ _ => exists [], [x; y]
  | |- exists calls shown, [_; ?x; _] = _ /\ _ => exists [], [x]
  end;
  split; [reflexivity |]; split; [close_calls |].

Ltac close_shape := split; [reflexivity |]; split_trace.

(** A search with a query that is not blank never throws; it turns
    the loading flag on first and off last, calls the model at most
    once, and in between shows results exactly once: a list that is not
    empty with a notice, or a warning followed by the generic
    result. *)
Lemma searchFood_shape (rt : runtime) (searchQuery : string) :
  trim searchQuery <> EmptyString ->
  result (Client.searchFood rt searchQuery) = inr tt
  /\ exists calls shown,
       trace (Client.searchFood rt searchQuery)
       = (Ui (SetLoading true) :: calls ++ shown ++ [Ui (SetLoading false)])%list
       /\ at_most_one_call calls
       /\ shows_results shown.
Proof.
  intros Hq.
  assert (Ht : truthy (VStr (trim searchQuery)) = true).
  { cbn. apply negb_true_iff. now apply String.eqb_neq. }
  unfold result, trace, Client.searchFood, Client.toast. rewrite Ht.
  monad_unfold. cbn [negb].
  repeat (first [use_shows | split_goal_match]; cbn [fst snd app negb]);
    same_pairs; close_shape;
    (eexists _, _; split;
     [| first [ left; split; [reflexivity | eassumption]
              | right; split; reflexivity ] ]);
    (eassumption || discriminate).
Qed.


Lemma searchFood_shape_witness :
  result (Client.searchFood (runtime_of [] (Rejects "offline")) "banana") = inr tt
  /\ exists calls shown,
       trace (Client.searchFood (runtime_of [] (Rejects "offline")) "banana")
       = (Ui (SetLoading true) :: calls ++ shown ++ [Ui (SetLoading false)])%list
       /\ at_most_one_call calls
       /\ shows_results shown.
Proof.
  apply (searchFood_shape (runtime_of [] (Rejects "offline")) "banana").
  vm_compute. discriminate.
Defined.

(** A file that is not an image only gets the [Invalid File]
    warning, and an image above 10 MB only the [File Too Large]
    warning: the scan ends there, before the file is read, without a
    call to the model and without a change of the scanning flag or of
    the results.  For an image of at most 10 MB the scanning flag is
    turned on before anything else. *)
Lemma processImageFile_guards (rt : runtime) (f : Client.file) :
  (startsWith (Client.file_type f) "image/" = false ->
   Client.processImageFile rt f
   = (inr tt, [warning "Invalid File" "Please select an image file."]))
  /\ (startsWith (Client.file_type f) "image/" = true ->
      10485760 < Client.file_size f ->
      Client.processImageFile rt f
      = (inr tt,
         [warning "File Too Large" "Please select an image smaller than 10MB."]))
  /\ (startsWith (Client.file_type f) "image/" = true ->
      Client.file_size f <= 10485760 ->
      exists rest,
        trace (Client.processImageFile rt f)
        = Ui (SetScanningPhoto true) :: rest).
Proof.
  unfold trace, Client.processImageFile, Client.toast, warning.
  split; [| split].
  - intros ->. reflexivity.
  - intros -> Hl. cbn [negb].
    destruct (Z.ltb_spec (10 * 1024 * 1024) (Client.file_size f)) as [_ | Hg];
      [reflexivity | lia].
  - intros -> Hl. cbn [negb].
    destruct (Z.ltb_spec (10 * 1024 * 1024) (Client.file_size f)) as [Hg | _];
      [lia |].
    monad_unfold. eexists. reflexivity.
Qed.

Lemma processImageFile_guards_witness :
  Client.processImageFile (runtime_of browser_key (Rejects "offline"))
    {| Client.file_type := "application/pdf";
       Client.file_size := 2048;
       Client.data_url := "data:application/pdf;base64,JVBERi0=" |}
  = (inr tt, [warning "Invalid File" "Please select an image file."]).
Proof.
  apply (proj1 (processImageFile_guards
                  (runtime_of browser_key (Rejects "offline"))
                  {| Client.file_type := "application/pdf";
                     Client.file_size := 2048;
                     Client.data_url := "data:application/pdf;base64,JVBERi0=" |})).
  reflexivity.
Defined.

(** The search calls the model only for a query that is not blank
    and with a key that is configured and not empty; the call carries
    the prompt made from the query as typed. *)
Lemma searchFood_call_guarded
      (rt : runtime) (searchQuery : string) (c : fetch_request) :
  In (Outbound c) (trace (Client.searchFood rt searchQuery)) ->
  trim searchQuery <> EmptyString
  /\ exists key,
       env rt "VITE_OPENAI_API_KEY" = Some key
       /\ key <> EmptyString
       /\ c = Client.client_request key
                (VStr (Prompts.food_search_text searchQuery)) 500.
Proof.
  unfold trace, Client.searchFood, Client.toast.
  destruct (String.eqb_spec (trim searchQuery) EmptyString) as [E | NE].
  - cbn [truthy]. rewrite E. cbn. intros [H | []]. discriminate H.
  - assert (Ht : truthy (VStr (trim searchQuery)) = true).
    { cbn. apply negb_true_iff. now apply String.eqb_neq. }
    rewrite Ht. monad_unfold. cbn [negb].
    repeat (first [use_shows | split_goal_match]; cbn [fst snd app negb]);
      cbn [In]; intros Hin;
      repeat match goal with
             | H : _ \/ _ |- _ => destruct H as [H | H]
             | H : False |- _ => destruct H
             end;
      try discriminate;
      injection Hin as <-;
      (split; [assumption |]); eexists;
      (split; [reflexivity |]); (split; [discriminate | reflexivity]).
Qed.

Lemma searchFood_call_guarded_witness :
  trim "banana" <> EmptyString
  /\ exists key,
       env (runtime_of [("VITE_OPENAI_API_KEY", "sk-test")] (Rejects "offline"))
           "VITE_OPENAI_API_KEY" = Some key
       /\ key <> EmptyString
       /\ Client.client_request "sk-test"
            (VStr (Prompts.food_search_text "banana")) 500
          = Client.client_request key
              (VStr (Prompts.food_search_text "banana")) 500.
Proof.
  apply (searchFood_call_guarded
           (runtime_of [("VITE_OPENAI_API_KEY", "sk-test")] (Rejects "offline"))
           "banana").
  vm_compute. right. left. reflexivity.
Defined.

(** The scan calls the model only for an image of at most 10 MB and
    with a key that is configured and not empty; the call carries the
    data URL of the file. *)
Lemma processImageFile_call_guarded
      (rt : runtime) (f : Client.file) (c : fetch_request) :
  In (Outbound c) (trace (Client.processImageFile rt f)) ->
  startsWith (Client.file_type f) "image/" = true
  /\ Client.file_size f <= 10485760
  /\ exists key,
       env rt "VITE_OPENAI_API_KEY" = Some key
       /\ key <> EmptyString
       /\ c = Client.client_request key (scan_content f) 1000.
Proof.
  unfold trace, Client.processImageFile, Client.toast, scan_content.
  destruct (startsWith (Client.file_type f) "image/") eqn:Hs; cbn [negb];
    [| cbn; intros [H | []]; discriminate H].
  destruct (Z.ltb_spec (10 * 1024 * 1024) (Client.file_size f)) as [Hl | Hl];
    [cbn; intros [H | []]; discriminate H |].
  monad_unfold.
  repeat (first [use_shows | split_goal_match]; cbn [fst snd app negb]);
    cbn [In]; intros Hin;
    repeat match goal with
           | H : _ \/ _ |- _ => destruct H as [H | H]
           | H : False |- _ => destruct H
           end;
    try discriminate;
    injection Hin as <-;
    (split; [reflexivity |]); (split; [lia |]); eexists;
    (split; [reflexivity |]); (split; [discriminate | reflexivity]).
Qed.


Lemma processImageFile_call_guarded_witness :
  startsWith (Client.file_type sample_photo) "image/" = true
  /\ Client.file_size sample_photo <= 10485760
  /\ exists key,
       env (runtime_of browser_key (Rejects "offline")) "VITE_OPENAI_API_KEY"
       = Some key
       /\ key <> EmptyString
       /\ Client.client_request "sk-test" (scan_content sample_photo) 1000
          = Client.client_request key (scan_content sample_photo) 1000.
Proof.
  apply (processImageFile_call_guarded
           (runtime_of browser_key (Rejects "offline")) sample_photo).
  vm_compute. right. left. reflexivity.
Defined.

(** *** The notices of the failures *)

Lemma key_missing_notice (rt : runtime) :
  Client.search_error_message (exn_message rt Client.key_missing)
  = "OpenAI API key not configured. Please add your API key to the .env file."
  /\ Client.scan_error_message (exn_message rt Client.key_missing)
     = "OpenAI API key not configured. Please add your API key to the .env file.".
Proof. split; vm_compute; reflexivity. Qed.

(** Without a key in the environment the search does not call the
    model: it warns that the key is not configured and shows its
    generic result. *)
Lemma client_without_key (rt : runtime) (searchQuery : string) :
  key_absent rt "VITE_OPENAI_API_KEY" ->
  trim searchQuery <> EmptyString ->
  Client.searchFood rt searchQuery
  = (inr tt,
     [ Ui (SetLoading true);
       warning "Search Failed"
         "OpenAI API key not configured. Please add your API key to the .env file.";
       Ui (SetSearchResults [Client.search_fallback searchQuery]);
       Ui (SetLoading false) ]).
Proof.
  intros Hk Hq.
  assert (Ht : truthy (VStr (trim searchQuery)) = true).
  { cbn. apply negb_true_iff. now apply String.eqb_neq. }
  destruct (key_missing_notice rt) as [E1 _].
  unfold Client.searchFood, Client.toast, warning.
  rewrite Ht. monad_unfold. cbn [negb].
  destruct Hk as [-> | ->]; cbn [fst snd app]; rewrite E1; reflexivity.
Qed.

Lemma client_without_key_witness :
  Client.searchFood (runtime_of [] (Rejects "offline")) "banana"
  = (inr tt,
     [ Ui (SetLoading true);
       warning "Search Failed"
         "OpenAI API key not configured. Please add your API key to the .env file.";
       Ui (SetSearchResults [Client.search_fallback "banana"]);
       Ui (SetLoading false) ]).
Proof.
  apply (client_without_key (runtime_of [] (Rejects "offline")) "banana").
  - left. reflexivity.
  - vm_compute. discriminate.
Defined.

Lemma status_notice (rt : runtime) (resp : upstream_response)
      (hint text : string) :
  explained (up_status resp) text ->
  ok resp = false
  /\ Client.search_error_message
       (exn_message rt (Client.response_error resp hint)) = text
  /\ Client.scan_error_message
       (exn_message rt (Client.response_error resp hint)) = text.
Proof.
  unfold ok, Client.response_error.
  intros [[-> ->] | [-> ->]]; cbn [Z.eqb Z.leb Z.compare Pos.compare
    Pos.compare_cont Pos.eqb andb exn_message]; repeat split;
    vm_compute; reflexivity.
Qed.

(** A 401 or a 429 from the model is explained by name in the
    warning of the search, which then shows its generic result. *)
Lemma searchFood_status_notice
      (rt : runtime) (searchQuery key text : string) (resp : upstream_response) :
  trim searchQuery <> EmptyString ->
  env rt "VITE_OPENAI_API_KEY" = Some key ->
  key <> EmptyString ->
  network rt (Client.client_request key
                (VStr (Prompts.food_search_text searchQuery)) 500)
  = Resolves resp ->
  explained (up_status resp) text ->
  Client.searchFood rt searchQuery
  = (inr tt,
     [ Ui (SetLoading true);
       Outbound (Client.client_request key
                   (VStr (Prompts.food_search_text searchQuery)) 500);
       warning "Search Failed" text;
       Ui (SetSearchResults [Client.search_fallback searchQuery]);
       Ui (SetLoading false) ]).
Proof.
  intros Hq He Hk Hn Hx.
  assert (Ht : truthy (VStr (trim searchQuery)) = true).
  { cbn. apply negb_true_iff. now apply String.eqb_neq. }
  destruct (status_notice rt resp
              "Your OpenAI account does not have access to GPT-4o. Please upgrade your account."
              text Hx) as (Hok & E & _).
  unfold Client.searchFood, Client.toast, warning.
  rewrite Ht, He. destruct key as [| a k]; [contradiction |].
  monad_unfold. cbn [negb]. rewrite Hn, Hok. cbn [negb fst snd app].
  rewrite E. reflexivity.
Qed.

Lemma searchFood_status_notice_witness :
  Client.searchFood (runtime_of browser_key (Resolves unauthorized)) "banana"
  = (inr tt,
     [ Ui (SetLoading true);
       Outbound (Client.client_request "sk-test"
                   (VStr (Prompts.food_search_text "banana")) 500);
       warning "Search Failed"
         "Invalid OpenAI API key. Please check your API key.";
       Ui (SetSearchResults [Client.search_fallback "banana"]);
       Ui (SetLoading false) ]).
Proof.
  apply (searchFood_status_notice
           (runtime_of browser_key (Resolves unauthorized)) "banana" "sk-test"
           "Invalid OpenAI API key. Please check your API key." unauthorized).
  - vm_compute. discriminate.
  - reflexivity.
  - discriminate.
  - reflexivity.
  - left. split; reflexivity.
Defined.

(** A 401 or a 429 from the model is explained by name in the
    warning of the scan. *)
Lemma processImageFile_status_notice
      (rt : runtime) (f : Client.file) (key text : string)
      (resp : upstream_response) :
  startsWith (Client.file_type f) "image/" = true ->
  Client.file_size f <= 10485760 ->
  env rt "VITE_OPENAI_API_KEY" = Some key ->
  key <> EmptyString ->
  network rt (Client.client_request key (scan_content f) 1000) = Resolves resp ->
  explained (up_status resp) text ->
  Client.processImageFile rt f
  = (inr tt,
     [ Ui (SetScanningPhoto true);
       Outbound (Client.client_request key (scan_content f) 1000);
       warning "Scan Failed" text;
       Ui (SetScanningPhoto false) ]).
Proof.
  intros Hs Hl He Hk Hn Hx.
  assert (Hz : (10 * 1024 * 1024 <? Client.file_size f) = false)
    by (apply Z.ltb_ge; lia).
  destruct (status_notice rt resp
              "Your OpenAI account does not have access to GPT-4o. Please upgrade your account or use text search."
              text Hx) as (Hok & _ & E).
  unfold Client.processImageFile, Client.toast, warning.
  rewrite Hs, Hz, He. destruct key as [| a k]; [contradiction |].
  monad_unfold. cbn [negb]. fold (scan_content f).
  rewrite Hn, Hok. cbn [negb fst snd app].
  rewrite E. reflexivity.
Qed.

Lemma processImageFile_status_notice_witness :
  Client.processImageFile (runtime_of browser_key (Resolves unauthorized))
                          sample_photo
  = (inr tt,
     [ Ui (SetScanningPhoto true);
       Outbound (Client.client_request "sk-test" (scan_content sample_photo) 1000);
       warning "Scan Failed"
         "Invalid OpenAI API key. Please check your API key.";
       Ui (SetScanningPhoto false) ]).
Proof.
  apply (processImageFile_status_notice
           (runtime_of browser_key (Resolves unauthorized)) sample_photo
           "sk-test" "Invalid OpenAI API key. Please check your API key."
           unauthorized).
  - reflexivity.
  - vm_compute. discriminate.
  - reflexivity.
  - discriminate.
  - reflexivity.
  - left. split; reflexivity.
Defined.

(** *** The items on screen *)

Lemma filterM_kept {A} (f : A -> exn + bool) (l kept : list A) :
  filterM f l = inr kept -> Forall (fun x => f x = inr true) kept.
Proof.
  revert kept. induction l as [| x r IH]; cbn; intros kept H.
  - injection H as <-. constructor.
  - unfold bind_pure in H. destruct (f x) as [e | b] eqn:Hx; [discriminate |].
    destruct (filterM f r) as [e | ys]; [discriminate |].
    injection H as <-. destruct b; auto.
Qed.

Lemma kept_cleaned_ok (entry out : value) :
  Client.keep entry = inr true -> Client.clean entry = inr out -> shown_ok out.
Proof.
  unfold Client.keep, Client.clean, bind_pure.
  destruct (get entry "name") as [e | name]; [discriminate |].
  destruct (truthy name) eqn:Tn; [| discriminate].
  destruct (get entry "calories") as [e | cal]; [discriminate |].
  destruct cal as [| | | n | | |]; try discriminate.
  intros Hk. injection Hk as Hk.
  unfold Number_or_0 at 1, number_or_0. cbn [Number].
  rewrite (above_zero_truthy n Hk).
  destruct (get entry "protein") as [e | pro]; [discriminate |].
  destruct (Number_or_0 pro) as [e | p] eqn:Ep; [discriminate |].
  destruct (get entry "carbs") as [e | carb]; [discriminate |].
  destruct (Number_or_0 carb) as [e | cb] eqn:Eb; [discriminate |].
  destruct (get entry "fat") as [e | fat]; [discriminate |].
  destruct (Number_or_0 fat) as [e | ft] eqn:Ef; [discriminate |].
  destruct (get entry "serving_size") as [e | ss]; [discriminate |].
  intros H. injection H as <-.
  apply Number_or_0_is_number in Ep as (p' & -> & Hp).
  apply Number_or_0_is_number in Eb as (cb' & -> & Hcb).
  apply Number_or_0_is_number in Ef as (ft' & -> & Hft).
  exists name, n, p', cb', ft', (or_else ss (VStr "1 serving")).
  repeat split; auto. now apply or_else_truthy.
Qed.

(** Every item that comes out of the filter and the map of the
    browser has a name, calories above zero, protein, carbs and fat
    that are numbers, and a serving size. *)
Lemma validResults_shown_ok (entries outs : list value) :
  Client.validResults_of entries = inr outs -> Forall shown_ok outs.
Proof.
  unfold Client.validResults_of, bind_pure.
  destruct (filterM Client.keep entries) as [e | kept] eqn:Hk; [discriminate |].
  intros Hm. apply filterM_kept in Hk. apply mapM_Forall2 in Hm.
  induction Hm as [| x y l l' Hxy _ IH]; constructor.
  - inversion Hk; subst. eapply kept_cleaned_ok; eauto.
  - apply IH. now inversion Hk.
Qed.

Lemma validResults_shown_ok_witness :
  Forall shown_ok
    [ VObj [ ("name", VStr "egg"); ("calories", VNum (of_Z 78));
             ("protein", VNum (of_Z 6)); ("carbs", VNum zero);
             ("fat", VNum zero); ("serving_size", VStr "1 serving") ] ].
Proof.
  apply (validResults_shown_ok mixed_entries). vm_compute. reflexivity.
Defined.

(** *** The text between the braces *)

Lemma from_first_inv (c : ascii) (l t : list ascii) :
  Client.from_first c l = Some t ->
  exists pre rest,
    l = (pre ++ c :: rest)%list /\ t = c :: rest
    /\ forallb (fun a => negb (Ascii.eqb a c)) pre = true.
Proof.
  induction l as [| a r IH]; cbn; intros H; [discriminate |].
  destruct (Ascii.eqb_spec a c) as [-> | Hne].
  - injection H as <-. exists [], r. auto.
  - destruct (IH H) as (pre & rest & -> & -> & Hp).
    exists (a :: pre), rest. repeat split. cbn. rewrite Hp.
    apply Ascii.eqb_neq in Hne. now rewrite Hne.
Qed.

Lemma upto_last_none_inv (c : ascii) (l : list ascii) :
  Client.upto_last c l = None ->
  forallb (fun a => negb (Ascii.eqb a c)) l = true.
Proof.
  induction l as [| a r IH]; cbn; intros H; [reflexivity |].
  destruct (Client.upto_last c r); [discriminate |].
  destruct (Ascii.eqb a c); [discriminate |]. now rewrite IH.
Qed.

Lemma upto_last_inv (c : ascii) (l p : list ascii) :
  Client.upto_last c l = Some p ->
  exists inner post,
    l = (inner ++ c :: post)%list /\ p = (inner ++ [c])%list
    /\ forallb (fun a => negb (Ascii.eqb a c)) post = true.
Proof.
  revert p. induction l as [| a r IH]; cbn; intros p H; [discriminate |].
  destruct (Client.upto_last c r) as [p' |] eqn:E.
  - injection H as <-. destruct (IH p' eq_refl) as (inner & post & -> & -> & Hp).
    exists (a :: inner), post. auto.
  - destruct (Ascii.eqb_spec a c) as [-> | Hne]; [| discriminate].
    injection H as <-. exists [], r. repeat split.
    now apply upto_last_none_inv.
Qed.

(** The match of the brace pattern, characterised: it succeeds
    exactly on a text with an opening brace followed later by a closing
    one, and it is the text from the first opening brace to the last
    closing brace. *)
Lemma match_braces_spans (s m : string) :
  Client.match_braces s = Some m
  <-> exists pre mid post,
        lacks "{" pre = true
        /\ lacks "}" post = true
        /\ s = pre ++ String "{" (mid ++ String "}" post)
        /\ m = String "{" (mid ++ "}").
Proof.
  split.
  - unfold Client.match_braces, lacks.
    destruct (Client.from_first "{" (list_ascii_of_string s)) as [t |] eqn:E1;
      [| discriminate].
    destruct (Client.upto_last "}" t) as [p |] eqn:E2; [| discriminate].
    cbn [option_map]. intros H. injection H as <-.
    apply from_first_inv in E1 as (pre & rest & Hs & -> & Hpre).
    apply upto_last_inv in E2 as (inner & post & Ht & -> & Hpost).
    destruct inner as [| b mid]; [discriminate Ht |].
    cbn in Ht. injection Ht as <- ->.
    exists (string_of_list_ascii pre), (string_of_list_ascii mid),
      (string_of_list_ascii post).
    rewrite !list_ascii_of_string_of_list_ascii.
    repeat split; auto.
    + apply string_list_inv in Hs. rewrite Hs.
      rewrite string_of_list_app. cbn. now rewrite string_of_list_app.
    + cbn. now rewrite string_of_list_app.
  - intros (pre & mid & post & Hpre & Hpost & -> & ->).
    now apply match_braces_embedded.
Qed.

End ScreenFacts.

(** ** Dropped photos and the search through the edge function *)

Module IntakeFacts.

Import EdgeFacts ScreenFacts.

Lemma find_first {A} (p : A -> bool) (l : list A) (x : A) :
  find p l = Some x ->
  exists pre post,
    l = (pre ++ x :: post)%list
    /\ Forall (fun y => p y = false) pre /\ p x = true.
Proof.
  induction l as [| a r IH]; cbn; intros H; [discriminate |].
  destruct (p a) eqn:Ha.
  - injection H as <-. exists [], r. auto.
  - destruct (IH H) as (pre & post & -> & Hpre & Hx).
    exists (a :: pre), post. auto.
Qed.

Lemma find_nowhere {A} (p : A -> bool) (l : list A) :
  find p l = None -> Forall (fun y => p y = false) l.
Proof.
  induction l as [| a r IH]; cbn; intros H; [constructor |].
  destruct (p a) eqn:Ha; [discriminate | auto].
Qed.

Lemma image_never_refused (rt : runtime) (f : Client.file) :
  startsWith (Client.file_type f) "image/" = true ->
  ~ In (warning "Invalid File" "Please select an image file.")
       (trace (Client.processImageFile rt f)).
Proof.
  intros Hs. unfold trace, Client.processImageFile, Client.toast, warning.
  rewrite Hs. cbn [negb].
  destruct (10 * 1024 * 1024 <? Client.file_size f);
    [cbn; intros [H | []]; discriminate H |].
  monad_unfold.
  repeat (first [use_shows | split_goal_match]; cbn [fst snd app negb]);
    cbn [In]; intros Hin;
    repeat match goal with
           | H : _ \/ _ |- _ => destruct H as [H | H]
           | H : False |- _ => destruct H
           end;
    try discriminate;
    injection Hin as Hin; subst; discriminate.
Qed.

(** A drop turns the highlight off and processes the first image
    among the files, and only that one; without an image among them it
    only warns.  The check of [processImageFile] on the type never
    fires on a dropped file. *)
Lemma handleDrop_first_image
      (rt : runtime) (isDragOver : bool) (files : list Client.file) :
  fst (Intake.handleDrop rt isDragOver files) = false
  /\ ((exists pre imageFile post,
         files = (pre ++ imageFile :: post)%list
         /\ Forall not_image pre
         /\ startsWith (Client.file_type imageFile) "image/" = true
         /\ snd (Intake.handleDrop rt isDragOver files)
            = Client.processImageFile rt imageFile)
      \/ (Forall not_image files
          /\ snd (Intake.handleDrop rt isDragOver files)
             = (inr tt, [warning "Invalid File" "Please drop an image file."])))
  /\ ~ In (warning "Invalid File" "Please select an image file.")
          (trace (snd (Intake.handleDrop rt isDragOver files))).
Proof.
  unfold Intake.handleDrop. cbn [fst snd]. split; [reflexivity |].
  destruct (find _ files) as [imageFile |] eqn:E.
  - apply find_first in E as (pre & post & -> & Hpre & Hx). split.
    + left. exists pre, imageFile, post. auto.
    + now apply image_never_refused.
  - apply find_nowhere in E. split.
    + right. split; [exact E | reflexivity].
    + cbn. intros [H | []]. discriminate H.
Qed.

(** The search through the edge function shows the array under
    [data.results] as it is, an empty one included, when the answer
    carries no error; in every other case it warns and shows the
    generic result.  The loading flag is on first and off last. *)
Lemma edge_search_shows_what_it_gets
      (invoke : value -> exn + EdgeSearch.invocation) (searchQuery : string) :
  trim searchQuery <> EmptyString ->
  EdgeSearch.searchFood invoke searchQuery
  = (inr tt,
     (Ui (SetLoading true)
      :: match accepted (invoke (VObj [("foodQuery", VStr searchQuery)])) with
         | Some items =>
             [ Ui (SetSearchResults items); estimate_notice searchQuery items ]
         | None =>
             [ warning "Search Failed"
                 "Failed to estimate nutrition. Please try again.";
               Ui (SetSearchResults [EdgeSearch.estimated searchQuery]) ]
         end
      ++ [Ui (SetLoading false)])%list).
Proof.
  intros Hq.
  assert (Ht : truthy (VStr (trim searchQuery)) = true).
  { cbn. apply negb_true_iff. now apply String.eqb_neq. }
  unfold EdgeSearch.searchFood, Client.toast, accepted, estimate_notice, warning.
  rewrite Ht. monad_unfold. cbn [negb].
  destruct (invoke _) as [e | reply]; [reflexivity |].
  destruct (truthy (EdgeSearch.error reply)); [reflexivity |].
  destruct (get_opt (EdgeSearch.data reply) "results");
    cbn [Array_isArray]; rewrite ?andb_false_r; reflexivity.
Qed.

Lemma edge_search_shows_what_it_gets_witness :
  EdgeSearch.searchFood
    (fun _ => inr {| EdgeSearch.data := VObj [("results", VArr [])];
                     EdgeSearch.error := Null |})
    "banana"
  = (inr tt,
     (Ui (SetLoading true)
      :: match accepted
                 (inr {| EdgeSearch.data := VObj [("results", VArr [])];
                         EdgeSearch.error := Null |}) with
         | Some items =>
             [ Ui (SetSearchResults items); estimate_notice "banana" items ]
         | None =>
             [ warning "Search Failed"
                 "Failed to estimate nutrition. Please try again.";
               Ui (SetSearchResults [EdgeSearch.estimated "banana"]) ]
         end
      ++ [Ui (SetLoading false)])%list).
Proof.
  apply (edge_search_shows_what_it_gets
           (fun _ => inr {| EdgeSearch.data := VObj [("results", VArr [])];
                            EdgeSearch.error := Null |})
           "banana").
  vm_compute. discriminate.
Defined.

End IntakeFacts.

(** ** The profile pages as the user drives them *)

Module PageFacts.

Import Profile.

(** *** Onboarding *)

Lemma settled_ready (st : Wizard.state) :
  settled st -> Wizard.step st = 3 -> plan_ready (Wizard.profile st).
Proof.
  intros (Hs & Hp & Hc) E. destruct (Hp ltac:(lia)) as (Hw & Hh & Ha).
  specialize (Hc E). set (p := Wizard.profile st) in *.
  assert (Hm : maintenance_calories p
               = round (mul (Onboarding.bmr_of p) (multiplier (activity_level p))))
    by (rewrite <- Hc at 1; reflexivity).
  assert (Ht : target_calories p
               = (if String.eqb (goal p) "bulk"
                  then add (round (mul (Onboarding.bmr_of p)
                                       (multiplier (activity_level p))))
                           (of_Z 500)
                  else if String.eqb (goal p) "cut"
                       then sub (round (mul (Onboarding.bmr_of p)
                                            (multiplier (activity_level p))))
                                (of_Z 500)
                       else round (mul (Onboarding.bmr_of p)
                                       (multiplier (activity_level p)))))
    by (rewrite <- Hc at 1; reflexivity).
  unfold plan_ready. repeat split; auto.
  rewrite Hm. exact Ht.
Qed.

Lemma act_settled (a : Wizard.action) (st : Wizard.state) :
  settled st ->
  settled (fst (Wizard.act a st))
  /\ forall id row,
       In (Wizard.Upsert id row) (snd (Wizard.act a st)) -> plan_ready row.
Proof.
  intros Hst. pose proof Hst as (Hs & Hp & Hc).
  unfold Wizard.act. destruct (Wizard.left st); [split; [exact Hst | intros ? ? []] |].
  destruct a; cbn [fst snd].
  1-6: split; [| intros ? ? []];
    match goal with
    | |- context [Wizard.step ?s =? ?k] =>
        destruct (Z.eqb_spec (Wizard.step s) k) as [E | E]; [| exact Hst]
    end;
    unfold settled, Wizard.setProfile; cbn [Wizard.step Wizard.profile];
    (split; [lia |]); (split; [intros; try lia | intros; lia]).
  1-2: destruct (Hp ltac:(lia)) as (Hw & Hh & Ha); repeat split; assumption.
  - (* Back *)
    split; [| intros ? ? []].
    destruct (Z.ltb_spec 1 (Wizard.step st)) as [L | L]; cbn [andb];
      [| exact Hst].
    destruct (Wizard.loading st); cbn [negb]; [exact Hst |].
    unfold settled, Wizard.setStep; cbn [Wizard.step Wizard.profile].
    split; [lia |]. split; [intros; apply Hp; lia | intros; lia].
  - (* Next *)
    split; [| intros ? ? []].
    destruct (Z.ltb_spec (Wizard.step st) 3) as [L | L]; cbn [andb];
      [| exact Hst].
    destruct (Wizard.isStepValid st) eqn:V; cbn [negb orb]; [| exact Hst].
    destruct (Wizard.loading st); cbn [negb]; [exact Hst |].
    unfold Wizard.handleNext, Wizard.isStepValid in *.
    destruct (Z.eqb_spec (Wizard.step st) 2) as [E2 | E2].
    + assert (L3 : (Wizard.step st <? 3) = true) by (apply Z.ltb_lt; lia).
      rewrite L3. unfold settled, Wizard.setStep, Wizard.setProfile.
      cbn [Wizard.step Wizard.profile].
      destruct (Hp ltac:(lia)) as (Hw & Hh & Ha).
      split; [lia |]. split; [intros _; repeat split; assumption |].
      intros _. reflexivity.
    + assert (E1 : Wizard.step st = 1) by lia.
      rewrite E1 in *. cbn in V |- *.
      unfold settled, Wizard.setStep. cbn [Wizard.step Wizard.profile].
      apply andb_true_iff in V as [V Ha]. apply andb_true_iff in V as [Hw Hh].
      split; [lia |]. split; [intros _; repeat split; assumption | intros; lia].
  - (* Complete *)
    destruct (Z.ltb_spec (Wizard.step st) 3) as [L | L]; cbn [negb andb];
      [split; [exact Hst | intros ? ? []] |].
    destruct (Wizard.loading st) eqn:Hl; cbn [negb];
      [split; [exact Hst | intros ? ? []] |].
    assert (E3 : Wizard.step st = 3) by lia.
    pose proof (settled_ready st Hst E3) as Hr.
    unfold Wizard.handleComplete.
    destruct (Wizard.getSession b) as [e | [uid |]];
      try destruct (Wizard.upsert b uid (Wizard.profile st)) as [e | []];
      cbn [fst snd]; (split; [exact Hst |]);
      intros id row Hin; cbn [In] in Hin;
      repeat match goal with
             | H : _ \/ _ |- _ => destruct H as [H | H]
             | H : False |- _ => destruct H
             end;
      try discriminate; injection Hin as <- <-; exact Hr.
Qed.

Lemma run_settled (actions : list Wizard.action) (st : Wizard.state) :
  settled st ->
  settled (fst (Wizard.run actions st))
  /\ forall id row,
       In (Wizard.Upsert id row) (snd (Wizard.run actions st)) -> plan_ready row.
Proof.
  revert st. induction actions as [| a rest IH]; intros st Hst; cbn [Wizard.run].
  - split; [exact Hst | intros ? ? []].
  - destruct (act_settled a st Hst) as [H1 U1].
    destruct (Wizard.act a st) as [st1 e1]. cbn [fst snd] in H1, U1.
    destruct (IH st1 H1) as [H2 U2].
    destruct (Wizard.run rest st1) as [st2 e2]. cbn [fst snd] in *.
    split; [exact H2 |]. intros id row Hin.
    apply in_app_or in Hin as [Hin | Hin]; eauto.
Qed.

Lemma initial_settled : settled Wizard.initial.
Proof.
  unfold settled, Wizard.initial. cbn [Wizard.step Wizard.profile].
  split; [lia |]. split; intros; lia.
Qed.

(** Whatever the user does on the onboarding page, a profile that is
    sent to the table has weight, height and age above zero and the
    calories computed from its own fields; the step stays between 1
    and 3. *)
Lemma onboarding_saves_computed_plan
      (actions : list Wizard.action) (id : string) (row : UserProfile) :
  In (Wizard.Upsert id row) (snd (Wizard.run actions Wizard.initial)) ->
  plan_ready row
  /\ 1 <= Wizard.step (fst (Wizard.run actions Wizard.initial)) <= 3.
Proof.
  intros Hin. destruct (run_settled actions Wizard.initial initial_settled)
    as [(Hs & _) U].
  split; [exact (U id row Hin) | exact Hs].
Qed.


Lemma onboarding_saves_computed_plan_witness :
  plan_ready sample_plan
  /\ 1 <= Wizard.step (fst (Wizard.run sample_session Wizard.initial)) <= 3.
Proof.
  apply (onboarding_saves_computed_plan sample_session "user-1" sample_plan).
  vm_compute. left. reflexivity.
Defined.

(** *** Settings *)

Lemma recalculate_current (p : UserProfile) : plan_current (Settings.recalculate p).
Proof. split; reflexivity. Qed.

Lemma control_recalculates
      (getSession : SettingsPage.session_answer) (p : UserProfile)
      (c : SettingsPage.control) :
  SettingsPage.updateProfileWithCalculations getSession (Some p)
    (SettingsPage.update_of c)
  = (Some (Settings.recalculate (SettingsPage.spread p (SettingsPage.update_of c))),
     match getSession with
     | inr (Some id) =>
         [ {| SettingsPage.row_id := id;
              SettingsPage.row :=
                Settings.recalculate
                  (SettingsPage.spread p (SettingsPage.update_of c)) |} ]
     | _ => []
     end).
Proof. destruct c; reflexivity. Qed.

Lemma edits_current
      (getSession : SettingsPage.session_answer)
      (controls : list SettingsPage.control) (p : UserProfile) :
  plan_current p ->
  exists p',
    fst (SettingsPage.edits getSession controls (Some p)) = Some p'
    /\ plan_current p'
    /\ (forall w,
          In w (snd (SettingsPage.edits getSession controls (Some p))) ->
          plan_current (SettingsPage.row w)
          /\ getSession = inr (Some (SettingsPage.row_id w)))
    /\ (forall id,
          getSession = inr (Some id) -> controls <> [] ->
          exists before,
            snd (SettingsPage.edits getSession controls (Some p))
            = (before ++ [ {| SettingsPage.row_id := id;
                              SettingsPage.row := p' |} ])%list).
Proof.
  revert p. induction controls as [| c rest IH]; intros p Hp;
    cbn [SettingsPage.edits].
  - exists p. cbn. split; [reflexivity |]. split; [exact Hp |].
    split; [intros w [] |]. intros id _ H. now destruct H.
  - rewrite control_recalculates.
    set (p1 := Settings.recalculate
                 (SettingsPage.spread p (SettingsPage.update_of c))).
    destruct (IH p1 (recalculate_current _)) as (p' & E & Hc & Hw & Hl).
    destruct (SettingsPage.edits getSession rest (Some p1)) as [p2 w2] eqn:Er.
    cbn [fst snd] in *. exists p'. split; [exact E |]. split; [exact Hc |].
    split.
    + intros w Hin. apply in_app_or in Hin as [Hin | Hin]; [| auto].
      destruct getSession as [e | [id |]]; try destruct Hin.
      * subst w. cbn. split; [apply recalculate_current | reflexivity].
      * destruct H.
    + intros id Hs _. rewrite Hs. destruct rest as [| c' rest'].
      * cbn in Er. injection Er as <- <-. injection E as <-.
        exists []. reflexivity.
      * destruct (Hl id Hs ltac:(discriminate)) as (before & ->).
        eexists. rewrite app_assoc. reflexivity.
Qed.

(** After any use of the controls of the settings page the calories
    of the profile are those computed from its fields, every row
    written is such a profile, written under the id of the session, and
    the last row written is the profile on screen.  Without a loaded
    profile the controls do nothing. *)
Lemma settings_edits_keep_plan_current
      (getSession : SettingsPage.session_answer)
      (controls : list SettingsPage.control) (p : UserProfile) :
  controls <> [] ->
  SettingsPage.edits getSession controls None = (None, [])
  /\ exists p',
       fst (SettingsPage.edits getSession controls (Some p)) = Some p'
       /\ plan_current p'
       /\ (forall w,
             In w (snd (SettingsPage.edits getSession controls (Some p))) ->
             plan_current (SettingsPage.row w)
             /\ getSession = inr (Some (SettingsPage.row_id w)))
       /\ (forall id,
             getSession = inr (Some id) ->
             exists before,
               snd (SettingsPage.edits getSession controls (Some p))
               = (before ++ [ {| SettingsPage.row_id := id;
                                 SettingsPage.row := p' |} ])%list).
Proof.
  intros Hne. split.
  - clear Hne. induction controls as [| c rest IH]; cbn; [reflexivity |].
    now rewrite IH.
  - destruct controls as [| c rest]; [contradiction |].
    cbn [SettingsPage.edits]. rewrite control_recalculates.
    set (p1 := Settings.recalculate
                 (SettingsPage.spread p (SettingsPage.update_of c))).
    destruct (edits_current getSession rest p1 (recalculate_current _))
      as (p' & E & Hc & Hw & Hl).
    destruct (SettingsPage.edits getSession rest (Some p1)) as [p2 w2] eqn:Er.
    cbn [fst snd] in *. exists p'. split; [exact E |]. split; [exact Hc |].
    split.
    + intros w Hin. apply in_app_or in Hin as [Hin | Hin]; [| auto].
      destruct getSession as [e | [id |]]; try destruct Hin.
      * subst w. cbn. split; [apply recalculate_current | reflexivity].
      * destruct H.
    + intros id Hs. rewrite Hs. destruct rest as [| c' rest'].
      * cbn in Er. injection Er as <- <-. injection E as <-.
        exists []. reflexivity.
      * destruct (Hl id Hs ltac:(discriminate)) as (before & ->).
        eexists. rewrite app_assoc. reflexivity.
Qed.


Lemma settings_edits_keep_plan_current_witness :
  SettingsPage.edits (inr (Some "user-1"))
    [SettingsPage.Weight (of_Z 72); SettingsPage.Goal "cut"] None
  = (None, [])
  /\ exists p',
       fst (SettingsPage.edits (inr (Some "user-1"))
              [SettingsPage.Weight (of_Z 72); SettingsPage.Goal "cut"]
              (Some sample_profile)) = Some p'
       /\ plan_current p'
       /\ (forall w,
             In w (snd (SettingsPage.edits (inr (Some "user-1"))
                          [SettingsPage.Weight (of_Z 72); SettingsPage.Goal "cut"]
                          (Some sample_profile))) ->
             plan_current (SettingsPage.row w)
             /\ @inr exn (option string) (Some "user-1")
                = inr (Some (SettingsPage.row_id w)))
       /\ (forall id,
             @inr exn (option string) (Some "user-1") = inr (Some id) ->
             exists before,
               snd (SettingsPage.edits (inr (Some "user-1"))
                      [SettingsPage.Weight (of_Z 72); SettingsPage.Goal "cut"]
                      (Some sample_profile))
               = (before ++ [ {| SettingsPage.row_id := id;
                                 SettingsPage.row := p' |} ])%list).
Proof.
  apply (settings_edits_keep_plan_current (inr (Some "user-1"))
           [SettingsPage.Weight (of_Z 72); SettingsPage.Goal "cut"]
           sample_profile).
  discriminate.
Defined.

End PageFacts.

(** ** The tracker page and its dialogs *)

Module TrackerFacts.

Lemma or_text_some (a : string) (b : string) :
  a <> EmptyString -> Tracker.or_text (Some a) b = a.
Proof.
  intros H. unfold Tracker.or_text. cbn.
  apply String.eqb_neq in H. now rewrite H.
Qed.



Lemma parseFloat_or_0_number (text : string) :
  CustomFood.parseFloat_or_0 text <> NaN.
Proof.
  unfold CustomFood.parseFloat_or_0.
  destruct (Maths.parseFloat text); cbn; try discriminate.
  destruct (negb (is_zero q)); discriminate.
Qed.

(** A custom food is stored under the meal picked in the form,
    whatever section was selected on the page, with a name, a serving
    size and numbers. *)
Lemma custom_food_keeps_its_meal
      (b : Tracker.store) (formData : CustomFood.FormData) (food : Tracker.Food)
      (user_id : string) (st : Tracker.page) :
  CustomFood.handleSubmit formData = Some food ->
  Tracker.getSession b = inr (Some user_id) ->
  exists row rest,
    snd (Tracker.custom_onAddFood b food st) = Tracker.Insert row :: rest
    /\ Tracker.new_meal_type row = CustomFood.meal_type formData
    /\ CustomFood.meal_type formData <> EmptyString
    /\ Tracker.new_name row = CustomFood.name formData
    /\ CustomFood.name formData <> EmptyString
    /\ Tracker.new_serving_size row <> EmptyString
    /\ row_numbers row.
Proof.
  unfold CustomFood.handleSubmit. cbn [truthy].
  destruct (String.eqb_spec (CustomFood.name formData) EmptyString) as [| Hn];
    cbn [negb orb]; [discriminate |].
  destruct (String.eqb_spec (CustomFood.calories formData) EmptyString) as [| Hc];
    cbn [negb orb]; [discriminate |].
  destruct (String.eqb_spec (CustomFood.meal_type formData) EmptyString) as [| Hm];
    cbn [negb orb]; [discriminate |].
  intros H Hs. injection H as <-.
  unfold Tracker.custom_onAddFood, Tracker.addFoodEntry. rewrite Hs.
  cbn [Tracker.food_meal_type Tracker.food_name Tracker.food_calories
       Tracker.food_protein Tracker.food_carbs Tracker.food_fat
       Tracker.food_serving_size].
  rewrite (or_text_some _ _ Hm).
  destruct (Tracker.insert b _); cbn [snd];
    (eexists _, _; split; [reflexivity |]);
    cbn [Tracker.new_meal_type Tracker.new_name Tracker.new_serving_size];
    repeat split; auto; try apply parseFloat_or_0_number;
    (destruct (String.eqb_spec (CustomFood.serving_size formData) EmptyString)
       as [| Hz]; cbn [negb]; [discriminate | exact Hz]).
Qed.

Lemma custom_food_keeps_its_meal_witness :
  exists row rest,
    snd (Tracker.custom_onAddFood sample_store
           {| Tracker.food_name := "Smoothie";
              Tracker.food_calories := of_Z 250;
              Tracker.food_protein := fin (205 # 10);
              Tracker.food_carbs := zero;
              Tracker.food_fat := zero;
              Tracker.food_serving_size := "1 serving";
              Tracker.food_meal_type := Some "snacks" |}
           (Tracker.handleAddFood "breakfast" empty_page))
    = Tracker.Insert row :: rest
    /\ Tracker.new_meal_type row = CustomFood.meal_type sample_form
    /\ CustomFood.meal_type sample_form <> EmptyString
    /\ Tracker.new_name row = CustomFood.name sample_form
    /\ CustomFood.name sample_form <> EmptyString
    /\ Tracker.new_serving_size row <> EmptyString
    /\ row_numbers row.
Proof.
  apply (custom_food_keeps_its_meal sample_store sample_form _ "user-1").
  - vm_compute. reflexivity.
  - reflexivity.
Defined.

Lemma filter_other_ids (id' : string) (entries : list Tracker.FoodEntry) :
  ~ In id' (ids entries) ->
  filter (fun entry => negb (String.eqb (Tracker.id entry) id')) entries = entries.
Proof.
  induction entries as [| e r IH]; cbn; intros H; [reflexivity |].
  destruct (String.eqb_spec (Tracker.id e) id') as [E | E]; cbn.
  - destruct H. now left.
  - rewrite IH; [reflexivity |]. intros Hin. apply H. now right.
Qed.

(** Removing an entry that was just added gives back the list of
    before, when the id of the new entry is a new one. *)
Lemma add_then_remove
      (b : Tracker.store) (food : Tracker.Food) (mealType : option string)
      (user_id : string) (data : Tracker.FoodEntry) (st : Tracker.page) :
  Tracker.getSession b = inr (Some user_id) ->
  (forall row, Tracker.insert b row = Tracker.Given data) ->
  Tracker.delete b (Tracker.id data) = Tracker.Given tt ->
  ~ In (Tracker.id data) (ids (Tracker.todaysEntries st)) ->
  Tracker.todaysEntries (fst (Tracker.addFoodEntry b food mealType st))
  = data :: Tracker.todaysEntries st
  /\ Tracker.todaysEntries
       (fst (Tracker.removeEntry b (Tracker.id data)
               (fst (Tracker.addFoodEntry b food mealType st))))
     = Tracker.todaysEntries st.
Proof.
  intros Hs Hi Hd Hfresh.
  unfold Tracker.addFoodEntry. rewrite Hs, Hi. cbn [fst Tracker.todaysEntries].
  split; [reflexivity |].
  unfold Tracker.removeEntry. rewrite Hd. cbn [fst Tracker.todaysEntries filter].
  rewrite String.eqb_refl. cbn [negb]. now apply filter_other_ids.
Qed.

Lemma add_then_remove_witness :
  Tracker.todaysEntries
    (fst (Tracker.addFoodEntry sample_store sample_food (Some "breakfast")
            empty_page))
  = sample_entry :: Tracker.todaysEntries empty_page
  /\ Tracker.todaysEntries
       (fst (Tracker.removeEntry sample_store (Tracker.id sample_entry)
               (fst (Tracker.addFoodEntry sample_store sample_food
                       (Some "breakfast") empty_page))))
     = Tracker.todaysEntries empty_page.
Proof.
  apply (add_then_remove sample_store sample_food (Some "breakfast") "user-1"
           sample_entry empty_page).
  - reflexivity.
  - reflexivity.
  - reflexivity.
  - cbn. tauto.
Defined.

(** After an answer without error [removeEntry] leaves no entry with
    the id and every other entry. *)
Lemma removeEntry_keeps_the_others
      (b : Tracker.store) (id' : string) (st : Tracker.page) :
  Tracker.delete b id' = Tracker.Given tt ->
  ~ In id' (ids (Tracker.todaysEntries (fst (Tracker.removeEntry b id' st))))
  /\ (forall entry,
        In entry (Tracker.todaysEntries (fst (Tracker.removeEntry b id' st)))
        <-> In entry (Tracker.todaysEntries st) /\ Tracker.id entry <> id')
  /\ exists notice,
       snd (Tracker.removeEntry b id' st)
       = [Tracker.Delete id'; Tracker.Shown notice]
       /\ destructive notice = false.
Proof.
  intros Hd. unfold Tracker.removeEntry. rewrite Hd.
  cbn [fst snd Tracker.todaysEntries]. split; [| split].
  - unfold ids. rewrite in_map_iff. intros (e & He & Hin).
    apply filter_In in Hin as [_ Hin]. apply negb_true_iff in Hin.
    apply String.eqb_neq in Hin. contradiction.
  - intros entry. rewrite filter_In, negb_true_iff, String.eqb_neq. tauto.
  - eexists. split; reflexivity.
Qed.

Lemma removeEntry_keeps_the_others_witness :
  ~ In "e-1"
       (ids (Tracker.todaysEntries
               (fst (Tracker.removeEntry sample_store "e-1" logged_page))))
  /\ (forall entry,
        In entry (Tracker.todaysEntries
                    (fst (Tracker.removeEntry sample_store "e-1" logged_page)))
        <-> In entry (Tracker.todaysEntries logged_page)
            /\ Tracker.id entry <> "e-1")
  /\ exists notice,
       snd (Tracker.removeEntry sample_store "e-1" logged_page)
       = [Tracker.Delete "e-1"; Tracker.Shown notice]
       /\ destructive notice = false.
Proof.
  apply (removeEntry_keeps_the_others sample_store "e-1" logged_page).
  reflexivity.
Defined.

(** A write that the backend does not accept changes nothing on the
    page, and the user is warned. *)
Lemma refused_write_changes_nothing
      (b : Tracker.store) (food : Tracker.Food) (mealType : option string)
      (id' : string) (st : Tracker.page) :
  (forall row data, Tracker.insert b row <> Tracker.Given data) ->
  (forall u, Tracker.delete b id' <> Tracker.Given u) ->
  fst (Tracker.addFoodEntry b food mealType st) = st
  /\ fst (Tracker.removeEntry b id' st) = st
  /\ forall t,
       In (Tracker.Shown t)
          (snd (Tracker.addFoodEntry b food mealType st)
           ++ snd (Tracker.removeEntry b id' st))%list ->
       destructive t = true.
Proof.
  intros Hi Hd. unfold Tracker.addFoodEntry, Tracker.removeEntry.
  destruct (Tracker.delete b id') as [| | u] eqn:Ed;
    [| | now destruct (Hd u)];
    (destruct (Tracker.getSession b) as [e | [user_id |]];
     [| match goal with
        | |- context [Tracker.insert b ?row] =>
            destruct (Tracker.insert b row) as [| | data] eqn:Ei;
            [| | now destruct (Hi row data)]
        end |]);
    cbn [fst snd app]; (split; [reflexivity |]); (split; [reflexivity |]);
    intros t Hin; cbn [In] in Hin;
    repeat match goal with
           | H : _ \/ _ |- _ => destruct H as [H | H]
           | H : False |- _ => destruct H
           end;
    try discriminate; injection Hin as <-; reflexivity.
Qed.

Lemma refused_write_changes_nothing_witness :
  fst (Tracker.addFoodEntry closed_store sample_food None logged_page)
  = logged_page
  /\ fst (Tracker.removeEntry closed_store "e-1" logged_page) = logged_page
  /\ forall t,
       In (Tracker.Shown t)
          (snd (Tracker.addFoodEntry closed_store sample_food None logged_page)
           ++ snd (Tracker.removeEntry closed_store "e-1" logged_page))%list ->
       destructive t = true.
Proof.
  apply (refused_write_changes_nothing closed_store sample_food None "e-1"
           logged_page).
  - discriminate.
  - discriminate.
Defined.

(** *** The progress shown *)

Lemma round64_canonical (x y : Q) : round64 x = Fin y -> Qred y = y.
Proof.
  unfold round64. destruct (is_zero x).
  - intros H. injection H as <-. apply FloatFacts.Qred_inject_Z.
  - match goal with
    | |- (if ?b then _ else _) = _ -> _ => destruct b
    end.
    + destruct (Qle_bool 0 x); discriminate.
    + intros H. injection H as <-. apply Qred_complete, Qred_correct.
Qed.

Lemma hundred_or_more (x : Q) :
  (inject_Z 100 <= x)%Q -> Maths.min (fin x) (of_Z 100) = of_Z 100.
Proof.
  intros H.
  pose proof (FloatFacts.round64_at_least (inject_Z 100) x 100 0
                ltac:(change (pow2 0) with 1%Q; ring)
                ltac:(lia) ltac:(lia) H) as A.
  unfold fin. destruct (round64 x) as [y | | |] eqn:E;
    unfold at_least in A; try contradiction; [| reflexivity].
  unfold Maths.min, of_Z. cbn [gtb].
  destruct (Qle_bool y (inject_Z 100)) eqn:L; cbn [negb]; [| reflexivity].
  apply Qle_bool_iff in L. f_equal.
  rewrite <- (round64_canonical x y E), <- (FloatFacts.Qred_inject_Z 100).
  apply Qred_complete. now apply Qle_antisym.
Qed.

Lemma positive_not_zero (t : Q) : (0 < t)%Q -> is_zero t = false.
Proof.
  intros H. unfold is_zero. destruct (Qeq_bool t 0) eqn:E; [| reflexivity].
  apply Qeq_bool_iff in E. rewrite E in H. now apply Qlt_irrefl in H.
Qed.

Lemma ratio_full (t c : Q) :
  (0 < t)%Q -> (t <= c)%Q ->
  Maths.min (mul (Maths.div (Fin c) (Fin t)) (of_Z 100)) (of_Z 100) = of_Z 100.
Proof.
  intros Ht Hc. unfold Maths.div. rewrite (positive_not_zero t Ht).
  assert (H1 : (1 <= c / t)%Q).
  { apply Qle_shift_div_l; [exact Ht |]. now rewrite Qmult_1_l. }
  pose proof (FloatFacts.round64_at_least 1 (c / t) 1 0
                ltac:(change (pow2 0) with 1%Q; ring)
                ltac:(lia) ltac:(lia) H1) as A.
  unfold fin at 1. destruct (round64 (c / t)) as [y | | |];
    unfold at_least in A; try contradiction; [| reflexivity].
  unfold of_Z at 1. cbn [mul].
  apply hundred_or_more.
  setoid_replace (inject_Z 100) with (1 * inject_Z 100)%Q at 1 by ring.
  apply Qmult_le_compat_r; [exact A | discriminate].
Qed.

(** Once the target is reached the ring and the bar are full and
    nothing remains, on the chart and on the page alike. *)
Lemma full_when_target_reached (target current : Q) :
  (0 < target)%Q -> (target <= current)%Q ->
  Chart.calorieProgress (Fin target) (Fin current) = of_Z 100
  /\ Tracker.caloriesProgress (Fin current) (Fin target) = of_Z 100
  /\ Tracker.remainingCalories (Fin current) (Fin target) = zero
  /\ (Chart.isOverTarget (Fin target) (Fin current) = true
      <-> (target < current)%Q).
Proof.
  intros Ht Hc. split; [now apply ratio_full |]. split; [now apply ratio_full |].
  split.
  - unfold Tracker.remainingCalories, sub, neg, add, fin.
    assert (L : (target + Qred (- current) <= 0)%Q).
    { rewrite Qred_correct.
      setoid_replace 0%Q with (current + - current)%Q by ring.
      now apply Qplus_le_l. }
    pose proof (FloatFacts.round64_at_most_0 _ L) as A.
    destruct (round64 (target + Qred (- current))) as [y | | |];
      unfold at_most in A; try contradiction; [| reflexivity].
    unfold Maths.max, zero, of_Z. cbn [gtb].
    assert (B : Qle_bool y (inject_Z 0) = true) by now apply Qle_bool_iff.
    now rewrite B.
  - unfold Chart.isOverTarget. cbn [gtb]. rewrite negb_true_iff.
    split; intros H.
    + apply Qnot_le_lt. intros L. apply Qle_bool_iff in L. congruence.
    + destruct (Qle_bool current target) eqn:L; [| reflexivity].
      apply Qle_bool_iff in L. apply Qlt_not_le in H. contradiction.
Qed.

Lemma full_when_target_reached_witness :
  Chart.calorieProgress (Fin (inject_Z 2000)) (Fin (inject_Z 2150)) = of_Z 100
  /\ Tracker.caloriesProgress (Fin (inject_Z 2150)) (Fin (inject_Z 2000))
     = of_Z 100
  /\ Tracker.remainingCalories (Fin (inject_Z 2150)) (Fin (inject_Z 2000)) = zero
  /\ (Chart.isOverTarget (Fin (inject_Z 2000)) (Fin (inject_Z 2150)) = true
      <-> (inject_Z 2000 < inject_Z 2150)%Q).
Proof.
  apply (full_when_target_reached (inject_Z 2000) (inject_Z 2150)).
  - reflexivity.
  - discriminate.
Defined.

Lemma round64_number (x : Q) : round64 x <> NaN.
Proof.
  unfold round64. destruct (is_zero x); [discriminate |].
  match goal with
  | |- (if ?b then _ else _) <> _ => destruct b
  end; [destruct (Qle_bool 0 x) |]; discriminate.
Qed.

Lemma times_hundred_number (n : number) : n <> NaN -> mul n (of_Z 100) <> NaN.
Proof.
  destruct n as [y | | |]; intros H; try contradiction; cbn [mul of_Z].
  - apply round64_number.
  - discriminate.
  - discriminate.
Qed.

(** The share of a macro is a number whatever was eaten: with nothing
    eaten it is zero, not the NaN of a division of zero by zero. *)
Lemma percentage_defined (current grams : Q) (perGram : Z) :
  Chart.percentage (Fin current) (Fin grams) perGram <> NaN
  /\ Chart.percentage zero (Fin grams) perGram = zero.
Proof.
  split; [| reflexivity].
  unfold Chart.percentage, zero, of_Z. cbn [gtb].
  destruct (Qle_bool current (inject_Z 0)) eqn:L; cbn [negb]; [discriminate |].
  assert (Hz : is_zero current = false).
  { unfold is_zero. destruct (Qeq_bool current 0) eqn:E; [| reflexivity].
    apply Qeq_bool_iff in E.
    assert (L' : Qle_bool current (inject_Z 0) = true)
      by (apply Qle_bool_iff; rewrite E; apply Qle_refl).
    congruence. }
  apply times_hundred_number. cbn [mul]. unfold fin.
  pose proof (round64_number (grams * inject_Z perGram)) as N.
  destruct (round64 (grams * inject_Z perGram)) as [y | | |];
    try contradiction; unfold Maths.div; rewrite ?Hz.
  - apply round64_number.
  - destruct (Qle_bool 0 current); discriminate.
  - destruct (negb (Qle_bool 0 current)); discriminate.
Qed.

End TrackerFacts.

(** ** Numbers typed by the user *)

Module NumberFacts.

Lemma uint_digits (d : Decimal.uint) :
  forallb is_digit (list_ascii_of_string (NilEmpty.string_of_uint d)) = true.
Proof. induction d; cbn; auto. Qed.

Lemma digits_acc (d : Decimal.uint) (acc : positive) :
  fold_left (fun a c => 10 * a + digit_val c)
            (list_ascii_of_string (NilEmpty.string_of_uint d)) (Z.pos acc)
  = Z.pos (Pos.of_uint_acc d acc).
Proof.
  revert acc. induction d; intros acc;
    cbn [NilEmpty.string_of_uint list_ascii_of_string fold_left Pos.of_uint_acc];
    try reflexivity;
    match goal with
    | |- context [digit_val ?c] =>
        let v := eval vm_compute in (digit_val c) in
        change (digit_val c) with v
    end;
    match goal with
    | |- fold_left _ _ ?x = Z.pos (Pos.of_uint_acc _ ?p) =>
        replace x with (Z.pos p) by lia
    end;
    apply IHd.
Qed.

Lemma digits_value (d : Decimal.uint) :
  digits_val (list_ascii_of_string (NilEmpty.string_of_uint d))
  = Z.of_N (Pos.of_uint d).
Proof.
  unfold digits_val. induction d;
    cbn [NilEmpty.string_of_uint list_ascii_of_string fold_left Pos.of_uint];
    try reflexivity;
    match goal with
    | |- context [digit_val ?c] =>
        let v := eval vm_compute in (digit_val c) in
        change (digit_val c) with v
    end;
    cbn [Z.mul Z.add];
    [exact IHd | apply digits_acc ..].
Qed.

Lemma decimal_digits_value (n : Z) :
  0 <= n -> digits_val (list_ascii_of_string (decimal_digits n)) = n.
Proof.
  intros H. unfold decimal_digits. rewrite digits_value.
  change (Pos.of_uint (N.to_uint (Z.to_N n)))
    with (N.of_uint (N.to_uint (Z.to_N n))).
  rewrite DecimalN.Unsigned.of_to. now apply Z2N.id.
Qed.

Lemma decimal_digits_head (n : Z) :
  exists c r,
    list_ascii_of_string (decimal_digits n) = c :: r
    /\ is_digit c = true /\ forallb is_digit r = true.
Proof.
  unfold decimal_digits.
  pose proof (uint_digits (N.to_uint (Z.to_N n))) as H.
  destruct (list_ascii_of_string (NilEmpty.string_of_uint (N.to_uint (Z.to_N n))))
    as [| c r] eqn:E.
  - exfalso. destruct (Z.to_N n) as [| p]; [discriminate E |].
    cbn [N.to_uint] in E.
    pose proof (DecimalPos.Unsigned.to_uint_nonnil p) as Hp.
    destruct (Pos.to_uint p); try discriminate E. now destruct Hp.
  - exists c, r. cbn in H. apply andb_true_iff in H as [Hc Hr]. auto.
Qed.

Ltac digit_cases c H :=
  destruct c as [[] [] [] [] [] [] [] []];
  try (vm_compute in H; discriminate H).

Lemma digit_not_space (c : ascii) (r : list ascii) :
  is_digit c = true -> first_prefix ws_seqs (c :: r) = None.
Proof. intros H. digit_cases c H; vm_compute; reflexivity. Qed.

Lemma digit_not_sign (c : ascii) (r : list ascii) :
  is_digit c = true ->
  match c :: r with
  | "+"%char :: t => (true, t)
  | "-"%char :: t => (false, t)
  | _ => (true, c :: r)
  end = (true, c :: r).
Proof. intros H. digit_cases c H; reflexivity. Qed.

Lemma digit_not_infinity (c : ascii) (r : list ascii) :
  is_digit c = true -> prefix_of infinity_word (c :: r) = None.
Proof. intros H. digit_cases c H; reflexivity. Qed.

Lemma span_digits (l : list ascii) :
  forallb is_digit l = true -> span is_digit l = (l, []).
Proof.
  induction l as [| c l IH]; cbn; intros H; [reflexivity |].
  apply andb_true_iff in H as [Hc Hl]. now rewrite Hc, (IH Hl).
Qed.

Lemma parseFloat_digits (s : string) (c : ascii) (r : list ascii) :
  list_ascii_of_string s = c :: r ->
  is_digit c = true -> forallb is_digit r = true ->
  Maths.parseFloat s = of_literal (inject_Z (digits_val (c :: r))).
Proof.
  intros Hs Hc Hr. unfold Maths.parseFloat. rewrite Hs.
  cbn [List.length trim_start]. rewrite (digit_not_space c r Hc).
  rewrite (digit_not_sign c r Hc), (digit_not_infinity c r Hc).
  rewrite span_digits by (cbn; now rewrite Hc, Hr).
  cbn [Maths.leading_exponent]. unfold decimal_value.
  cbn [List.length Z.of_nat]. rewrite app_nil_r.
  change (0 - 0) with 0. change (0 <=? 0) with true. change (10 ^ 0) with 1.
  cbv iota. now rewrite Z.mul_1_r.
Qed.

Lemma of_literal_whole (n : Z) :
  0 <= n <= 2 ^ 53 -> of_literal (inject_Z n) = of_Z n.
Proof.
  intros [H0 H1]. unfold of_literal.
  destruct (Z.eq_dec n (2 ^ 53)) as [-> | Hn].
  - assert (E : (inject_Z (2 ^ 53) == inject_Z 1 * pow2 53)%Q)
      by (rewrite (FloatFacts.pow2_Z 53) by lia; ring).
    rewrite (FloatFacts.round64_exact _ 1 53 E) by lia.
    unfold of_Z. now rewrite FloatFacts.Qred_inject_Z.
  - apply FloatFacts.round64_Z; [reflexivity | lia].
Qed.

Lemma parseFloat_whole (n : Z) :
  0 <= n <= 2 ^ 53 -> Maths.parseFloat (decimal_digits n) = of_Z n.
Proof.
  intros H. destruct (decimal_digits_head n) as (c & r & E & Hc & Hr).
  rewrite (parseFloat_digits _ c r E Hc Hr), <- E.
  rewrite decimal_digits_value by lia. now apply of_literal_whole.
Qed.

(** A whole number typed in the calories field of the form arrives as
    that number, zero included: its decimal text is read back by
    [parseFloat], and the form is not held back by a zero. *)
Lemma typed_whole_number_arrives (formData : CustomFood.FormData) (n : Z) :
  0 <= n <= 2 ^ 53 ->
  CustomFood.name formData <> EmptyString ->
  CustomFood.meal_type formData <> EmptyString ->
  CustomFood.calories formData = decimal_digits n ->
  Maths.parseFloat (CustomFood.calories formData) = of_Z n
  /\ exists food,
       CustomFood.handleSubmit formData = Some food
       /\ Tracker.food_calories food = of_Z n.
Proof.
  intros Hn Hname Hmeal Hc. rewrite Hc. split; [now apply parseFloat_whole |].
  unfold CustomFood.handleSubmit. cbn [truthy].
  apply String.eqb_neq in Hname, Hmeal. rewrite Hname, Hmeal, Hc.
  assert (Hd : (decimal_digits n =? EmptyString)%string = false).
  { apply String.eqb_neq. intros E.
    destruct (decimal_digits_head n) as (c & r & El & _).
    rewrite E in El. discriminate El. }
  rewrite Hd. cbn [negb orb]. eexists. split; [reflexivity |].
  cbn [Tracker.food_calories]. unfold CustomFood.parseFloat_or_0.
  rewrite (parseFloat_whole n Hn).
  destruct (Num.truthy (of_Z n)) eqn:T; [reflexivity |].
  unfold of_Z, Num.truthy, is_zero in T. apply negb_false_iff in T.
  apply Qeq_bool_iff in T. unfold Qeq, inject_Z in T. cbn [Qnum Qden] in T.
  assert (n = 0) by lia. now subst n.
Qed.

Lemma typed_whole_number_arrives_witness :
  Maths.parseFloat (CustomFood.calories sample_form) = of_Z 250
  /\ exists food,
       CustomFood.handleSubmit sample_form = Some food
       /\ Tracker.food_calories food = of_Z 250.
Proof.
  apply (typed_whole_number_arrives sample_form 250).
  - split; [lia | vm_compute; discriminate].
  - discriminate.
  - discriminate.
  - reflexivity.
Defined.

End NumberFacts.
